(** * Volve dataset health analyzer: a shallow embedding and its properties

    The development follows [scripts/analyze_volve_dataset_health.py]:
    name normalisation and column resolution, the mergeable running
    statistics, the chunked analysis loop with its duplicate sample, the
    fit score, and the batch driver.

    Numbers: Python [int] is [Z].  Python [float] has two readings.  The
    analyzer and its record are written over exact rationals [Q], with
    [math.sqrt] as the real square root: what is proved of rates, counts
    and scores there is a statement about exact arithmetic.  The running
    statistics are written a second time, in module [Float64], over the
    IEEE 754 binary64 numbers with their rounding, infinities and NaN;
    what is said about doubles is proved there.

    Strings are strings of 8-bit characters; the embedding of
    [str.lower] is the ASCII one, which is Python's on ASCII names. *)

From Stdlib Require Import ZArith QArith Qminmax Lqa Lia Bool List.
From Stdlib Require Import Ascii String.
From Stdlib Require Import Reals Qreals.
From Stdlib Require Import Setoid Morphisms.
From Stdlib Require Import Qabs.
From Stdlib Require SpecFloat.
Import ListNotations.

Open Scope string_scope.
Open Scope list_scope.
Open Scope Z_scope.

(* ================================================================== *)
(** * Python exceptions and the two small monads                        *)
(* ================================================================== *)

Inductive PyExc : Type :=
| ZeroDivisionError
| ValueError
| OverflowError
| KeyError (key : string)
| FileNotFoundError (name : string)
| ReadError (name : string).

Inductive Exc (A : Type) : Type :=
| OK (a : A)
| Raise (e : PyExc).
Arguments OK {A} a.
Arguments Raise {A} e.

Definition ebind {A B} (m : Exc A) (k : A -> Exc B) : Exc B :=
  match m with
  | OK a => k a
  | Raise e => Raise e
  end.

Declare Scope exc_scope.
Delimit Scope exc_scope with exc.
Notation "x <- m ;; k" := (ebind m (fun x => k))
  (at level 61, m at next level, right associativity) : exc_scope.
Notation "' p <- m ;; k" := (ebind m (fun x => match x with p => k end))
  (at level 61, p pattern, m at next level, right associativity) : exc_scope.

(** [for x in xs: st = body(st, x)] where the body may raise. *)
Fixpoint efold {A S} (body : S -> A -> Exc S) (xs : list A) (st : S) : Exc S :=
  match xs with
  | [] => OK st
  | x :: xs' => ebind (body st x) (efold body xs')
  end.

(* ================================================================== *)
(** * Python dictionaries (insertion ordered)                           *)
(* ================================================================== *)

Section Dict.
Context {V : Type}.

Definition dict := list (string * V).

Fixpoint dict_get (k : string) (d : dict) : option V :=
  match d with
  | [] => None
  | (k', v) :: d' => if String.eqb k k' then Some v else dict_get k d'
  end.

(** [d[k] = v]: an existing key keeps its position, a new key goes last. *)
Fixpoint dict_set (k : string) (v : V) (d : dict) : dict :=
  match d with
  | [] => [(k, v)]
  | (k', v') :: d' =>
      if String.eqb k k' then (k', v) :: d' else (k', v') :: dict_set k v d'
  end.

(** [d[k]] as an expression: raises [KeyError] on a missing key. *)
Definition dict_item (k : string) (d : dict) : Exc V :=
  match dict_get k d with
  | Some v => OK v
  | None => Raise (KeyError k)
  end.
End Dict.
Arguments dict V : clear implicits.

(** [{key(x): val(x) for x in xs}], one assignment per element. *)
Definition set_step {A V} (key : A -> string) (val : A -> V)
    (d : dict V) (x : A) : dict V :=
  dict_set (key x) (val x) d.

Definition dict_comprehension {A V} (key : A -> string) (val : A -> V)
    (xs : list A) : dict V :=
  fold_left (set_step key val) xs [].

(* ================================================================== *)
(** * NameMatcher: [normalize_name], [find_column]                      *)
(* ================================================================== *)

Definition code (c : ascii) : N := N_of_ascii c.

Definition is_upper (c : ascii) : bool := ((65 <=? code c) && (code c <=? 90))%N.
Definition is_lower (c : ascii) : bool := ((97 <=? code c) && (code c <=? 122))%N.
Definition is_digit (c : ascii) : bool := ((48 <=? code c) && (code c <=? 57))%N.

(** [str.lower] on ASCII characters; a character outside ASCII is left
    as it is, whereas Python's mapping knows all of Unicode. *)
Definition lower_char (c : ascii) : ascii :=
  if is_upper c then ascii_of_N (code c + 32) else c.

Fixpoint lower (s : string) : string :=
  match s with
  | EmptyString => EmptyString
  | String c s' => String (lower_char c) (lower s')
  end.

(** The character class [[a-z0-9]] of the regular expression. *)
Definition is_word (c : ascii) : bool := is_lower c || is_digit c.

(** [re.sub(r"[^a-z0-9]+", " ", s)]: every maximal run of characters
    outside the class becomes one space.  [in_run] tells whether the
    previous character already belonged to such a run. *)
Fixpoint sub_runs (in_run : bool) (s : string) : string :=
  match s with
  | EmptyString => EmptyString
  | String c s' =>
      if is_word c then String c (sub_runs false s')
      else if in_run then sub_runs true s'
      else String " " (sub_runs true s')
  end.

(** Whitespace as [str.strip] sees it, on ASCII. *)
Definition is_space (c : ascii) : bool :=
  ((9 <=? code c) && (code c <=? 13) || (28 <=? code c) && (code c <=? 32))%N.

Fixpoint lstrip (s : string) : string :=
  match s with
  | EmptyString => EmptyString
  | String c s' => if is_space c then lstrip s' else s
  end.

Fixpoint rstrip (s : string) : string :=
  match s with
  | EmptyString => EmptyString
  | String c s' =>
      match rstrip s' with
      | EmptyString => if is_space c then EmptyString else String c EmptyString
      | r => String c r
      end
  end.

Definition strip (s : string) : string := rstrip (lstrip s).

Definition normalize_name (value : string) : string :=
  strip (sub_runs false (lower value)).

(** Python's [needle in hay] on strings. *)
Fixpoint str_in (needle hay : string) : bool :=
  if String.prefix needle hay then true
  else match hay with
       | EmptyString => false
       | String _ hay' => str_in needle hay'
       end.

(** Truthiness of a string: [if s]. *)
Definition truthy (s : string) : bool :=
  match s with EmptyString => false | _ => true end.

(** Truthiness of an [Optional[str]]: [None] and [""] are falsy. *)
Definition otruthy (o : option string) : bool :=
  match o with Some s => truthy s | None => false end.

(** First loop of [find_column]: exact lookups in candidate order. *)
Fixpoint find_exact (normalized : dict string) (candidates : list string)
  : option string :=
  match candidates with
  | [] => None
  | candidate :: rest =>
      let key := normalize_name candidate in
      match dict_get key normalized with
      | Some original => Some original
      | None => find_exact normalized rest
      end
  end.

(** Inner loop of the second pass: [for norm, original in normalized.items()]. *)
Fixpoint scan_items (key : string) (items : dict string) : option string :=
  match items with
  | [] => None
  | (norm, original) :: items' =>
      if truthy key && str_in key norm then Some original
      else scan_items key items'
  end.

(** Second loop of [find_column]: substring matches in candidate order. *)
Fixpoint find_substring (normalized : dict string) (candidates : list string)
  : option string :=
  match candidates with
  | [] => None
  | candidate :: rest =>
      match scan_items (normalize_name candidate) normalized with
      | Some original => Some original
      | None => find_substring normalized rest
      end
  end.

Definition find_column (columns candidates : list string) : option string :=
  let normalized := dict_comprehension normalize_name (fun col => col) columns in
  match find_exact normalized candidates with
  | Some original => Some original
  | None => find_substring normalized candidates
  end.

Record StandardColumns : Type := mkStandardColumns {
  sc_depth : option string;
  sc_rop : option string;
  sc_vibration : option string;
  sc_time : option string
}.

Definition depth_candidates : list string :=
  ["BIT_DEPTH"; "BIT_DEPTH_M"; "BIT MEASURED DEPTH"; "DEPTH"; "MD"; "HOLE DEPTH"].
Definition rop_candidates : list string :=
  ["ROP"; "ROP_MH"; "ROP_M/H"; "RATE OF PENETRATION"; "TIME AVERAGED ROP"].
Definition vibration_candidates : list string :=
  ["VIBRATION_0_5"; "VIBRATION"; "VIBRATION_RAW"; "LATERAL VIBRATION"; "VIBRATION_PROXY"].
Definition time_candidates : list string :=
  ["TIME"; "TIMESTAMP"; "DATETIME"; "DATE TIME"].

Definition detect_standard_columns (columns : list string) : StandardColumns :=
  let depth := find_column columns depth_candidates in
  let rop := find_column columns rop_candidates in
  let vibration := find_column columns vibration_candidates in
  let time_col := find_column columns time_candidates in
  mkStandardColumns depth rop vibration time_col.

Definition expect_vibration_range (column_name : option string) : option (Q * Q) :=
  match column_name with
  | None => None
  | Some name =>
      if negb (truthy name) then None
      else
        let normalized := normalize_name name in
        if str_in "vibration 0 5" normalized
           || (str_in "vibration" normalized && negb (str_in "raw" normalized))
        then Some (0%Q, 5%Q)
        else None
  end.

(* ================================================================== *)
(** * Cells, series and the pandas reductions used by the analyzer      *)
(* ================================================================== *)

(** A cell as pandas holds it once the chunk it belongs to is parsed:
    missing (NaN), a number, or text that does not read as a number.
    pandas infers the type of a column chunk by chunk, so the same line
    of a file may be held as a number under one cut into chunks and as
    text under another; the cells are those of the cut at hand.  A
    chunk in which pandas holds a number as text (a column that mixes
    numbers with other text) has no counterpart here. *)
Inductive Cell : Type :=
| CNull
| CNum (q : Q)
| CText (s : string).

Definition Series := list Cell.

(** [Series.isna()] *)
Definition isna (c : Cell) : bool :=
  match c with CNull => true | _ => false end.

(** [pd.to_numeric(_, errors="coerce")] on one cell: [None] is NaN. *)
Definition to_numeric (c : Cell) : option Q :=
  match c with CNum q => Some q | _ => None end.

(** [pd.to_numeric(series, errors="coerce").dropna()] *)
Fixpoint numeric_values (series : Series) : list Q :=
  match series with
  | [] => []
  | c :: rest =>
      match to_numeric c with
      | Some q => q :: numeric_values rest
      | None => numeric_values rest
      end
  end.

Definition len {A} (l : list A) : Z := Z.of_nat (List.length l).

(** [int(mask.sum())] for a boolean mask given by a predicate. *)
Definition count_where {A} (p : A -> bool) (l : list A) : Z :=
  len (filter p l).

Definition Qltb (a b : Q) : bool := negb (Qle_bool b a).

Fixpoint sumQ (l : list Q) : Q :=
  match l with
  | [] => 0%Q
  | x :: r => (x + sumQ r)%Q
  end.

(** [values.mean()]; the analyzer calls the pandas reductions on
    non-empty values only. *)
Definition series_mean (values : list Q) : Q :=
  (sumQ values / inject_Z (len values))%Q.

(** [values.var(ddof=0)]: the population variance. *)
Definition series_var0 (values : list Q) : Q :=
  let m := series_mean values in
  (sumQ (map (fun x => (x - m) * (x - m)) values) / inject_Z (len values))%Q.

(** [values.min()], [values.max()] of a non-empty series. *)
Definition series_min (values : list Q) : Q :=
  match values with
  | [] => 0%Q
  | x :: r => fold_left Qmin r x
  end.

Definition series_max (values : list Q) : Q :=
  match values with
  | [] => 0%Q
  | x :: r => fold_left Qmax r x
  end.

(** Float division [a / b]: raises on a zero divisor. *)
Definition fdiv (a b : Q) : Exc Q :=
  if Qeq_bool b 0 then Raise ZeroDivisionError else OK (a / b)%Q.

(** [a / b] on two ints (true division). *)
Definition truediv (a b : Z) : Exc Q := fdiv (inject_Z a) (inject_Z b).

(* ================================================================== *)
(** * OnlineStat: [RunningStat]                                         *)
(* ================================================================== *)

(** The accumulator under exact arithmetic: the floats are the rationals
    they stand for, and no operation rounds.  This is the reading the
    analyzer below is written over; the double-precision reading
    follows it. *)
Record RunningStat : Type := mkRunningStat {
  count : Z;
  mean : Q;
  m2 : Q;
  min_value : option Q;
  max_value : option Q
}.

(** [RunningStat()] *)
Definition fresh_stat : RunningStat := mkRunningStat 0 0 0 None None.

Open Scope exc_scope.

Definition update (self : RunningStat) (series : Series) : Exc RunningStat :=
  let values := numeric_values series in
  match values with
  | [] => OK self
  | _ =>
      let chunk_count := len values in
      let chunk_mean := series_mean values in
      let chunk_var := series_var0 values in
      let chunk_m2 := (chunk_var * inject_Z chunk_count)%Q in
      '(count', mean', m2') <-
        (if count self =? 0 then OK (chunk_count, chunk_mean, chunk_m2)
         else
           let delta := (chunk_mean - mean self)%Q in
           let total := count self + chunk_count in
           dm <- fdiv (delta * inject_Z chunk_count) (inject_Z total) ;;
           d2 <- fdiv (delta * delta * inject_Z (count self) * inject_Z chunk_count)
                      (inject_Z total) ;;
           OK (total, (mean self + dm)%Q, (m2 self + chunk_m2 + d2)%Q)) ;;
      let chunk_min := series_min values in
      let chunk_max := series_max values in
      let min' :=
        match min_value self with
        | None => Some chunk_min
        | Some m => if Qltb chunk_min m then Some chunk_min else Some m
        end in
      let max' :=
        match max_value self with
        | None => Some chunk_max
        | Some m => if Qltb m chunk_max then Some chunk_max else Some m
        end in
      OK (mkRunningStat count' mean' m2' min' max')
  end.

(** [math.sqrt]: raises [ValueError] on a negative argument. *)
Definition math_sqrt (q : Q) : Exc R :=
  if Qltb q 0 then Raise ValueError else OK (sqrt (Q2R q)).

Definition std (self : RunningStat) : Exc R :=
  if count self <=? 1 then OK 0%R
  else q <- fdiv (m2 self) (inject_Z (count self)) ;; math_sqrt q.

(** Feeding the batches of a column one [update] at a time, as the
    chunk loop does for every column. *)
Definition update_all (self : RunningStat) (batches : list Series)
  : Exc RunningStat :=
  efold update batches self.

(* ================================================================== *)
(** * OnlineStat in double precision                                    *)
(* ================================================================== *)

(** [RunningStat] once more, this time with Python's [float] as the
    IEEE 754 binary64 numbers ([spec_float] at precision 53 with
    exponent bound 1024, rounding to nearest, ties to even), for a
    column that pandas holds as float64.  In such a column NaN is the
    missing value and [pd.to_numeric(_, errors="coerce")] changes
    nothing.  Rounding, overflow to infinity and the exceptions of
    Python's float arithmetic are those of the source.  The doubles are
    the values that [valid_binary prec emax] accepts. *)
Module Float64.
Import SpecFloat.

Definition float : Type := spec_float.

Definition prec : Z := 53.
Definition emax : Z := 1024.

(** [x + y], [x - y], [x * y] on two floats never raise. *)
Definition fadd (x y : float) : float := SFadd prec emax x y.
Definition fsub (x y : float) : float := SFsub prec emax x y.
Definition fmul (x y : float) : float := SFmul prec emax x y.

(** [x < y]; false as soon as one side is NaN. *)
Definition flt (x y : float) : bool := SFltb x y.

Definition isnan (x : float) : bool :=
  match x with S754_nan => true | _ => false end.

Definition is_zero (x : float) : bool :=
  match x with S754_zero _ => true | _ => false end.

(** The conversion of a Python [int] in a mixed operation: correctly
    rounded, [OverflowError] when the int rounds beyond the largest
    double. *)
Definition float_of_int (n : Z) : Exc float :=
  if 2 ^ 1024 - 2 ^ 970 <=? Z.abs n then Raise OverflowError
  else OK (binary_normalize prec emax n 0 false).

(** [x * n] and [x / n] for a float [x] and an int [n]. *)
Definition mul_int (x : float) (n : Z) : Exc float :=
  y <- float_of_int n ;; OK (fmul x y).

Definition div_int (x : float) (n : Z) : Exc float :=
  y <- float_of_int n ;;
  if is_zero y then Raise ZeroDivisionError else OK (SFdiv prec emax x y).

(** [math.sqrt]: [ValueError] below zero, NaN for NaN. *)
Definition math_sqrt (x : float) : Exc float :=
  match x with
  | S754_infinity true | S754_finite true _ _ => Raise ValueError
  | _ => OK (SFsqrt prec emax x)
  end.

(** A float64 column; [dropna] removes the NaN entries. *)
Definition Series : Type := list float.

Definition dropna (series : Series) : list float :=
  filter (fun x => negb (isnan x)) series.

(** numpy's division and its conversion of a count: neither raises. *)
Definition np_div (x y : float) : float := SFdiv prec emax x y.
Definition np_float (n : Z) : float := binary_normalize prec emax n 0 false.

(** The plain summation loop, from 0.0 and from left to right. *)
Definition sum_loop (values : list float) : float :=
  fold_left fadd values (S754_zero false).

Record RunningStat : Type := mkRunningStat {
  count : Z;
  mean : float;
  m2 : float;
  min_value : option float;
  max_value : option float
}.

(** [RunningStat()] *)
Definition fresh_stat : RunningStat :=
  mkRunningStat 0 (S754_zero false) (S754_zero false) None None.

(** [values.min()] and [values.max()] return one of the values. *)
Definition series_min (values : list float) : float :=
  match values with
  | [] => S754_nan
  | x :: rest => fold_left (fun acc v => if flt v acc then v else acc) rest x
  end.

Definition series_max (values : list float) : float :=
  match values with
  | [] => S754_nan
  | x :: rest => fold_left (fun acc v => if flt acc v then v else acc) rest x
  end.

Section Reductions.

(** The order in which pandas adds the values of a column up is not
    fixed by the source: it is numpy's pairwise summation or
    bottleneck's loop, depending on the installation.  The definitions
    take the summation as a parameter; on fewer than eight values both
    libraries run [sum_loop]. *)
Variable series_sum : list float -> float.

(** [values.mean()] *)
Definition series_mean (values : list float) : float :=
  np_div (series_sum values) (np_float (len values)).

(** [values.var(ddof=0)]: the mean of the squared distances to the
    mean, in two passes. *)
Definition series_var0 (values : list float) : float :=
  let avg := series_mean values in
  np_div (series_sum (map (fun v => fmul (fsub avg v) (fsub avg v)) values))
         (np_float (len values)).

Definition update (self : RunningStat) (series : Series) : Exc RunningStat :=
  let values := dropna series in
  match values with
  | [] => OK self
  | _ =>
      let chunk_count := len values in
      let chunk_mean := series_mean values in
      let chunk_var := series_var0 values in
      chunk_m2 <- mul_int chunk_var chunk_count ;;
      '(count', mean', m2') <-
        (if count self =? 0 then OK (chunk_count, chunk_mean, chunk_m2)
         else
           let delta := fsub chunk_mean (mean self) in
           let total := count self + chunk_count in
           dn <- mul_int delta chunk_count ;;
           dm <- div_int dn total ;;
           dd <- mul_int (fmul delta delta) (count self) ;;
           ddn <- mul_int dd chunk_count ;;
           d2 <- div_int ddn total ;;
           OK (total, fadd (mean self) dm, fadd (fadd (m2 self) chunk_m2) d2)) ;;
      let chunk_min := series_min values in
      let chunk_max := series_max values in
      let min' :=
        match min_value self with
        | None => Some chunk_min
        | Some m => if flt chunk_min m then Some chunk_min else Some m
        end in
      let max' :=
        match max_value self with
        | None => Some chunk_max
        | Some m => if flt m chunk_max then Some chunk_max else Some m
        end in
      OK (mkRunningStat count' mean' m2' min' max')
  end.

Definition std (self : RunningStat) : Exc float :=
  if count self <=? 1 then OK (S754_zero false)
  else q <- div_int (m2 self) (count self) ;; math_sqrt q.

(** One [update] per batch, as the chunk loop does for a column. *)
Definition update_all (self : RunningStat) (batches : list Series)
  : Exc RunningStat :=
  efold update batches self.

End Reductions.

(** The doubles written [0.1] and [1e308] in Python. *)
Definition tenth : float := S754_finite false 7205759403792794 (-56).
Definition huge : float := S754_finite false 5010420900022432 971.

(** The rational a finite float stands for (0 for the others). *)
Definition to_Q (x : float) : Q :=
  match x with
  | S754_finite s m e =>
      let v := if 0 <=? e then inject_Z (Zpos m * 2 ^ e)
               else (inject_Z (Zpos m) / inject_Z (2 ^ (- e)))%Q in
      if s then (- v)%Q else v
  | _ => 0%Q
  end.

(** [abs(a - b) <= tol * max(abs(a), abs(b))] *)
Definition rel_close (tol a b : Q) : bool :=
  Qle_bool (Qabs (a - b)) (tol * Qmax (Qabs a) (Qabs b)).

End Float64.

(* ================================================================== *)
(** * Datasets, files and the log                                       *)
(* ================================================================== *)

Definition CHUNK_SIZE : Z := 200000.
Definition DUPLICATE_SAMPLE_ROWS : Z := 200000.
Definition LARGE_FILE_BYTES : Z := 500 * 1024 * 1024.
Definition PRIMARY_DATASET_NAME : string := "volve_drilling_ares1_ready.csv".

(** A row holds its cells in header order; a missing trailing cell reads
    as NaN.  A chunk is the data frame of one iteration of
    [pd.read_csv(path, chunksize=CHUNK_SIZE)], with the cells as that
    iteration parsed them. *)
Definition Row := list Cell.
Definition Chunk := list Row.

Record Dataset : Type := mkDataset {
  ds_header : list string;
  ds_chunks : list Chunk
}.

(** A file under [data/volve_logs]: its size and, when pandas can open it
    and read its header, its parsed content. *)
Record File : Type := mkFile {
  f_size : Z;
  f_content : option Dataset
}.

(** The directory [data/volve_logs], by file name. *)
Definition FS := string -> option File.

Inductive LogMsg : Type :=
| LogStarting
| LogConfig (chunk sample large : Z)
| LogNotFound (name : string)
| LogPrimaryMissing
| LogNoDatasets
| LogAnalyzing (name role : string)
| LogLargeFile (size : Z)
| LogProcessed (rows : Z) (name : string)
| LogWrote
| LogError (e : PyExc).

Fixpoint index_of (col : string) (columns : list string) : option nat :=
  match columns with
  | [] => None
  | c :: rest =>
      if String.eqb col c then Some O
      else match index_of col rest with
           | Some i => Some (S i)
           | None => None
           end
  end.

Definition cell_at (i : nat) (row : Row) : Cell := nth i row CNull.

(** [chunk[col]] *)
Definition frame_col (columns : list string) (chunk : Chunk) (col : string)
  : Exc Series :=
  match index_of col columns with
  | Some i => OK (map (cell_at i) chunk)
  | None => Raise (KeyError col)
  end.

(** [col in chunk] *)
Definition in_frame (columns : list string) (col : string) : bool :=
  existsb (String.eqb col) columns.

(** The cells of a row as the data frame holds them. *)
Definition row_cells (ncols : nat) (row : Row) : list Cell :=
  map (fun i => cell_at i row) (seq 0 ncols).

(** One entry of [chunk.isna().all(axis=1)]. *)
Definition row_all_na (ncols : nat) (row : Row) : bool :=
  forallb isna (row_cells ncols row).

Definition cell_eqb (a b : Cell) : bool :=
  match a, b with
  | CNull, CNull => true
  | CNum p, CNum q => Qeq_bool p q
  | CText s, CText t => String.eqb s t
  | _, _ => false
  end.

Fixpoint cells_eqb (a b : list Cell) : bool :=
  match a, b with
  | [], [] => true
  | x :: a', y :: b' => cell_eqb x y && cells_eqb a' b'
  | _, _ => false
  end.

Definition row_eqb (ncols : nat) (r1 r2 : Row) : bool :=
  cells_eqb (row_cells ncols r1) (row_cells ncols r2).

(** [DataFrame.duplicated()]: a row is marked when an earlier row of the
    frame equals it.  [seen] holds the rows before the current one. *)
Fixpoint duplicated_from (ncols : nat) (seen rows : list Row) : list bool :=
  match rows with
  | [] => []
  | r :: rest =>
      existsb (row_eqb ncols r) seen :: duplicated_from ncols (seen ++ [r]) rest
  end.

Definition duplicated (ncols : nat) (rows : list Row) : list bool :=
  duplicated_from ncols [] rows.

(* ================================================================== *)
(** * DatasetAnalyzer: [analyze_dataset]                                *)
(* ================================================================== *)

Record Missingness : Type := mkMissingness {
  missing : Z;
  missing_rate : Q;
  non_null : Z;
  non_null_rate : Q
}.

Record Summary : Type := mkSummary {
  s_count : Z;
  s_min : option Q;
  s_max : option Q;
  s_mean : Q;
  s_std : R
}.

Record DuplicateSample : Type := mkDuplicateSample {
  method : string;
  sample_rows : Z;
  duplicate_rows : Z;
  duplicate_rate : Q
}.

Record DepthInfo : Type := mkDepthInfo {
  depth_column : option string;
  depth_min : option Q;
  depth_max : option Q;
  negative_count : Z
}.

Record RopInfo : Type := mkRopInfo {
  rop_column : option string;
  rop_min : option Q;
  rop_max : option Q;
  rop_mean : option Q;
  rop_std : option R
}.

Record VibrationInfo : Type := mkVibrationInfo {
  vib_column : option string;
  vib_min : option Q;
  vib_max : option Q;
  vib_mean : option Q;
  vib_std : option R;
  expected_range : option (Q * Q);
  out_of_range_count : Z
}.

Record TimeInfo : Type := mkTimeInfo {
  time_column : option string;
  time_non_null_rate : Q
}.

(** The dictionary returned by [analyze_dataset]. *)
Record HealthRecord : Type := mkHealthRecord {
  path : string;
  size_bytes : Z;
  rows : Z;
  cols : Z;
  columns : list string;
  missingness : dict Missingness;
  numeric_stats : dict Summary;
  fully_empty_rows : Z;
  fully_empty_row_pct : Q;
  duplicate_sample : DuplicateSample;
  standard_columns : StandardColumns;
  depth : DepthInfo;
  rop : RopInfo;
  vibration : VibrationInfo;
  time : TimeInfo;
  unit_flags : list string;
  fit_score : Z;
  fit_score_notes : list string
}.

(** The local variables the chunk loop of [analyze_dataset] updates. *)
Record LoopState : Type := mkLoopState {
  missing_counts : dict Z;
  stats : dict RunningStat;
  row_count : Z;
  fully_empty : Z;
  depth_negative : Z;
  vibration_out_of_range : Z;
  sample_frames : list (list Row);
  sample_remaining : Z
}.

(** The state before the first chunk; [cap] is [DUPLICATE_SAMPLE_ROWS]. *)
Definition init_state (cap : Z) (columns : list string) : LoopState :=
  mkLoopState
    (dict_comprehension (fun col => col) (fun _ => 0) columns)
    (dict_comprehension (fun col => col) (fun _ => fresh_stat) columns)
    0 0 0 0 [] cap.

(** Body of [for col in columns] inside the chunk loop. *)
Definition column_step (columns : list string) (chunk : Chunk)
    (acc : dict Z * dict RunningStat) (col : string)
  : Exc (dict Z * dict RunningStat) :=
  let '(missing_counts, numeric_stats) := acc in
  old <- dict_item col missing_counts ;;
  series <- frame_col columns chunk col ;;
  let missing_counts := dict_set col (old + count_where isna series) missing_counts in
  stat <- dict_item col numeric_stats ;;
  series <- frame_col columns chunk col ;;
  stat' <- update stat series ;;
  OK (missing_counts, dict_set col stat' numeric_stats).

(** The duplicate sampler's step: keep the first rows of the chunk while
    capacity remains. *)
Definition sample_step (chunk : Chunk) (frames : list (list Row)) (remaining : Z)
  : list (list Row) * Z :=
  if 0 <? remaining then
    let take := Z.min remaining (len chunk) in
    (frames ++ [firstn (Z.to_nat take) chunk], remaining - take)
  else (frames, remaining).

(** One iteration of the chunk loop, without its heartbeat log line. *)
Definition process_chunk (columns : list string) (standard_cols : StandardColumns)
    (vibration_range : option (Q * Q)) (st : LoopState) (chunk : Chunk)
  : Exc LoopState :=
  let row_count := row_count st + len chunk in
  let fully_empty_rows :=
    fully_empty st + count_where (row_all_na (List.length columns)) chunk in
  '(missing_counts, numeric_stats) <-
    efold (column_step columns chunk) columns (missing_counts st, stats st) ;;
  depth_negative <-
    match sc_depth standard_cols with
    | Some depth_col =>
        if truthy depth_col && in_frame columns depth_col then
          series <- frame_col columns chunk depth_col ;;
          OK (depth_negative st
              + count_where (fun q => Qltb q 0) (numeric_values series))
        else OK (depth_negative st)
    | None => OK (depth_negative st)
    end ;;
  vibration_out_of_range <-
    match sc_vibration standard_cols, vibration_range with
    | Some vibration_col, Some (lower, upper) =>
        if truthy vibration_col && in_frame columns vibration_col then
          series <- frame_col columns chunk vibration_col ;;
          OK (vibration_out_of_range st
              + count_where (fun q => Qltb q lower || Qltb upper q)
                            (numeric_values series))
        else OK (vibration_out_of_range st)
    | _, _ => OK (vibration_out_of_range st)
    end ;;
  let '(frames, remaining) :=
    sample_step chunk (sample_frames st) (sample_remaining st) in
  OK (mkLoopState missing_counts numeric_stats row_count fully_empty_rows
        depth_negative vibration_out_of_range frames remaining).

(** [missingness] of the record. *)
Definition missingness_step (row_count : Z) (missing_counts : dict Z)
    (acc : dict Missingness) (col : string) : Exc (dict Missingness) :=
  missing <- dict_item col missing_counts ;;
  let non_null := row_count - missing in
  rate <- (if row_count =? 0 then OK 0%Q else truediv missing row_count) ;;
  nn_rate <- (if row_count =? 0 then OK 0%Q else truediv non_null row_count) ;;
  OK (dict_set col (mkMissingness missing rate non_null nn_rate) acc).

(** [numeric_summary] of the record: columns without numbers are left out. *)
Definition summary_step (acc : dict Summary) (item : string * RunningStat)
  : Exc (dict Summary) :=
  let '(col, stat) := item in
  if count stat =? 0 then OK acc
  else
    sd <- std stat ;;
    OK (dict_set col
          (mkSummary (count stat) (min_value stat) (max_value stat) (mean stat) sd)
          acc).

Definition finish_sample (ncols : nat) (frames : list (list Row))
  : Exc DuplicateSample :=
  match frames with
  | [] => OK (mkDuplicateSample "sampled" 0 0 0%Q)
  | _ =>
      let sample_df := List.concat frames in
      let duplicate_rows := count_where (fun b : bool => b) (duplicated ncols sample_df) in
      rate <- (if len sample_df =? 0 then OK 0%Q
               else truediv duplicate_rows (len sample_df)) ;;
      OK (mkDuplicateSample "first_rows" (len sample_df) duplicate_rows rate)
  end.

(** [d.get(col, {})] under the guard [if col else {}]. *)
Definition get_if {V} (col : option string) (d : dict V) : option V :=
  match col with
  | Some c => if truthy c then dict_get c d else None
  | None => None
  end.

(** [stats.get(key)] on an optional sub-dictionary whose value may
    itself be [None]. *)
Definition opt {A B} (o : option A) (f : A -> option B) : option B :=
  match o with Some a => f a | None => None end.

(** [missingness.get(col, {}).get("non_null_rate", 0.0) if col else 0.0] *)
Definition rate_of (col : option string) (m : dict Missingness) : Q :=
  match get_if col m with
  | Some e => non_null_rate e
  | None => 0%Q
  end.

Definition compute_unit_flags (depth_negative : Z) (rop_stats : option Summary)
    (vibration_out_of_range : Z) : list string :=
  let unit_flags := [] in
  let unit_flags :=
    if 0 <? depth_negative
    then unit_flags ++ ["Negative depth values detected"] else unit_flags in
  let unit_flags :=
    match rop_stats with
    | Some st =>
        let unit_flags :=
          match s_max st with
          | Some rop_max =>
              if negb (Qeq_bool rop_max 0) && Qltb 300 rop_max
              then unit_flags ++ ["ROP max exceeds 300 m/h (unit check)"]
              else unit_flags
          | None => unit_flags
          end in
        if Qltb (s_mean st) (1 # 100)
        then unit_flags ++ ["ROP mean is extremely low (possible unit mismatch)"]
        else unit_flags
    | None => unit_flags
    end in
  if 0 <? vibration_out_of_range
  then unit_flags ++ ["Vibration values outside expected 0-5 range"]
  else unit_flags.

(** The scoring rules, in source order: the score before the clamp and
    the notes. *)
Definition score_rules (standard_cols : StandardColumns)
    (depth_rate rop_rate vib_rate time_rate fully_empty_pct : Q)
    (depth_negative : Z) : Z * list string :=
  let depth_col := otruthy (sc_depth standard_cols) in
  let rop_col := otruthy (sc_rop standard_cols) in
  let vibration_col := otruthy (sc_vibration standard_cols) in
  let time_col := otruthy (sc_time standard_cols) in
  let '(fit_score, score_notes) := (0, @nil string) in
  let '(fit_score, score_notes) :=
    if depth_col && Qltb (9 # 10) depth_rate
    then (fit_score + 30, score_notes ++ ["Depth coverage >90% (+30)"])
    else if depth_col && Qltb (7 # 10) depth_rate
    then (fit_score + 15, score_notes ++ ["Depth coverage >70% (+15)"])
    else (fit_score, score_notes) in
  let '(fit_score, score_notes) :=
    if rop_col && Qltb (7 # 10) rop_rate
    then (fit_score + 20, score_notes ++ ["ROP coverage >70% (+20)"])
    else if rop_col && Qltb (4 # 10) rop_rate
    then (fit_score + 10, score_notes ++ ["ROP coverage >40% (+10)"])
    else (fit_score, score_notes) in
  let '(fit_score, score_notes) :=
    if vibration_col && Qltb (7 # 10) vib_rate
    then (fit_score + 20, score_notes ++ ["Vibration coverage >70% (+20)"])
    else if vibration_col && Qltb (4 # 10) vib_rate
    then (fit_score + 10, score_notes ++ ["Vibration coverage >40% (+10)"])
    else (fit_score, score_notes) in
  let '(fit_score, score_notes) :=
    if time_col && Qltb (5 # 10) time_rate
    then (fit_score + 10, score_notes ++ ["TIME coverage >50% (+10)"])
    else (fit_score, score_notes) in
  let '(fit_score, score_notes) :=
    if Qltb (1 # 10) fully_empty_pct
    then (fit_score - 10, score_notes ++ ["Fully empty rows >10% (-10)"])
    else (fit_score, score_notes) in
  let '(fit_score, score_notes) :=
    if 0 <? depth_negative
    then (fit_score - 10, score_notes ++ ["Negative depth values (-10)"])
    else (fit_score, score_notes) in
  (fit_score, score_notes).

(** [max(0, min(100, fit_score))] *)
Definition clamp_score (fit_score : Z) : Z := Z.max 0 (Z.min 100 fit_score).

(** The record [analyze_dataset] returns, from the loop's final state and
    the four tables computed after the loop. *)
Definition assemble (name : string) (file_size : Z) (columns : list string)
    (standard_cols : StandardColumns) (vibration_range : option (Q * Q))
    (st : LoopState) (missingness : dict Missingness)
    (numeric_summary : dict Summary) (duplicate_sample : DuplicateSample)
    (fully_empty_pct : Q) : HealthRecord :=
  let depth_col := sc_depth standard_cols in
  let rop_col := sc_rop standard_cols in
  let vibration_col := sc_vibration standard_cols in
  let time_col := sc_time standard_cols in
  let depth_stats := get_if depth_col numeric_summary in
  let rop_stats := get_if rop_col numeric_summary in
  let vibration_stats := get_if vibration_col numeric_summary in
  let unit_flags :=
    compute_unit_flags (depth_negative st) rop_stats (vibration_out_of_range st) in
  let depth_rate := rate_of depth_col missingness in
  let rop_rate := rate_of rop_col missingness in
  let vib_rate := rate_of vibration_col missingness in
  let time_rate := rate_of time_col missingness in
  let '(fit_score, score_notes) :=
    score_rules standard_cols depth_rate rop_rate vib_rate time_rate
      fully_empty_pct (depth_negative st) in
  let fit_score := clamp_score fit_score in
  mkHealthRecord
    ("data/volve_logs/" ++ name)%string file_size (row_count st) (len columns)
    columns missingness numeric_summary (fully_empty st) fully_empty_pct
    duplicate_sample standard_cols
    (mkDepthInfo depth_col (opt depth_stats s_min) (opt depth_stats s_max)
       (depth_negative st))
    (mkRopInfo rop_col (opt rop_stats s_min) (opt rop_stats s_max)
       (option_map s_mean rop_stats) (option_map s_std rop_stats))
    (mkVibrationInfo vibration_col (opt vibration_stats s_min)
       (opt vibration_stats s_max) (option_map s_mean vibration_stats)
       (option_map s_std vibration_stats) vibration_range
       (vibration_out_of_range st))
    (mkTimeInfo time_col time_rate)
    unit_flags fit_score score_notes.

(** Everything [analyze_dataset] does after the chunk loop. *)
Definition finalize (name : string) (file_size : Z) (columns : list string)
    (standard_cols : StandardColumns) (vibration_range : option (Q * Q))
    (st : LoopState) : Exc HealthRecord :=
  let row_count := row_count st in
  missingness <- efold (missingness_step row_count (missing_counts st)) columns [] ;;
  numeric_summary <- efold summary_step (stats st) [] ;;
  duplicate_sample <- finish_sample (List.length columns) (sample_frames st) ;;
  fully_empty_pct <-
    (if row_count =? 0 then OK 0%Q else truediv (fully_empty st) row_count) ;;
  OK (assemble name file_size columns standard_cols vibration_range st
        missingness numeric_summary duplicate_sample fully_empty_pct).

(* ================================================================== *)
(** * The logging layer and the batch driver [main]                     *)
(* ================================================================== *)

(** The report written to [docs/dataset_quick_stats.json] (its
    [generated_at] timestamp is left out). *)
Record Report : Type := mkReport {
  datasets : list HealthRecord
}.

(** What a run leaves behind: the console log, oldest line first, and the
    report file if it was written. *)
Record World : Type := mkWorld {
  w_log : list LogMsg;
  w_output : option Report
}.

Definition IO (A : Type) : Type := World -> Exc A * World.

Definition iret {A} (a : A) : IO A := fun w => (OK a, w).

Definition ibind {A B} (m : IO A) (k : A -> IO B) : IO B :=
  fun w =>
    match m w with
    | (OK a, w') => k a w'
    | (Raise e, w') => (Raise e, w')
    end.

Definition lift {A} (m : Exc A) : IO A := fun w => (m, w).

Definition log (msg : LogMsg) : IO unit :=
  fun w => (OK tt, mkWorld (w_log w ++ [msg]) (w_output w)).

Definition write_output (r : Report) : IO unit :=
  fun w => (OK tt, mkWorld (w_log w) (Some r)).

(** [try: body  except Exception as exc: log(ERROR ...); raise] *)
Definition try_log {A} (body : IO A) : IO A :=
  fun w =>
    match body w with
    | (Raise e, w') => (Raise e, mkWorld (w_log w' ++ [LogError e]) (w_output w'))
    | done => done
    end.

Declare Scope io_scope.
Delimit Scope io_scope with io.
Notation "x <- m ;; k" := (ibind m (fun x => k))
  (at level 61, m at next level, right associativity) : io_scope.
Notation "m ;;; k" := (ibind m (fun _ => k))
  (at level 61, right associativity) : io_scope.

Open Scope io_scope.

(** [results = []; for x in xs: results.append(f(x))] *)
Fixpoint io_map {A B} (f : A -> IO B) (xs : list A) : IO (list B) :=
  match xs with
  | [] => iret []
  | x :: rest => y <- f x ;; ys <- io_map f rest ;; iret (y :: ys)
  end.

(** [path.stat()] *)
Definition stat_file (fs : FS) (name : string) : Exc File :=
  match fs name with
  | Some file => OK file
  | None => Raise (FileNotFoundError name)
  end.

(** [pd.read_csv(path, ...)]: raises when the file cannot be opened or its
    header cannot be read. *)
Definition read_csv (name : string) (file : File) : Exc Dataset :=
  match f_content file with
  | Some ds => OK ds
  | None => Raise (ReadError name)
  end.

(** [for index, chunk in enumerate(pd.read_csv(path, chunksize=...))] *)
Fixpoint chunk_loop (name : string) (columns : list string)
    (standard_cols : StandardColumns) (vibration_range : option (Q * Q))
    (index : Z) (chunks : list Chunk) (st : LoopState) : IO LoopState :=
  match chunks with
  | [] => iret st
  | chunk :: rest =>
      st' <- lift (process_chunk columns standard_cols vibration_range st chunk) ;;
      (if (index + 1) mod 10 =? 0
       then log (LogProcessed (row_count st') name) else iret tt) ;;;
      chunk_loop name columns standard_cols vibration_range (index + 1) rest st'
  end.

Definition analyze_dataset (fs : FS) (name : string) : IO HealthRecord :=
  file <- lift (stat_file fs name) ;;
  let file_size := f_size file in
  (if LARGE_FILE_BYTES <? file_size
   then log (LogLargeFile file_size) else iret tt) ;;;
  header_only <- lift (read_csv name file) ;;
  let columns := ds_header header_only in
  let standard_cols := detect_standard_columns columns in
  let vibration_range := expect_vibration_range (sc_vibration standard_cols) in
  reader <- lift (read_csv name file) ;;
  st <- chunk_loop name columns standard_cols vibration_range 0
          (ds_chunks reader) (init_state DUPLICATE_SAMPLE_ROWS columns) ;;
  lift (finalize name file_size columns standard_cols vibration_range st).

Definition dataset_candidates : list string :=
  [PRIMARY_DATASET_NAME; "volve_drilling_best.csv"; "volve_drilling_best_wide.csv"].

(** [path.exists()] *)
Definition file_exists (fs : FS) (name : string) : bool :=
  match fs name with Some _ => true | None => false end.

Fixpoint discover_from (fs : FS) (names : list string) (paths : list string)
  : IO (list string) :=
  match names with
  | [] => iret paths
  | name :: rest =>
      if file_exists fs name then discover_from fs rest (paths ++ [name])
      else log (LogNotFound name) ;;; discover_from fs rest paths
  end.

Definition discover_datasets (fs : FS) : IO (list string) :=
  discover_from fs dataset_candidates [].

Definition analyze_one (fs : FS) (name : string) : IO HealthRecord :=
  let role := if String.eqb name PRIMARY_DATASET_NAME then "primary" else "upstream" in
  log (LogAnalyzing name role) ;;;
  analyze_dataset fs name.

Definition main (fs : FS) : IO unit :=
  try_log
    (log LogStarting ;;;
     log (LogConfig CHUNK_SIZE DUPLICATE_SAMPLE_ROWS LARGE_FILE_BYTES) ;;;
     datasets <- discover_datasets fs ;;
     (if file_exists fs PRIMARY_DATASET_NAME then iret tt
      else log LogPrimaryMissing) ;;;
     match datasets with
     | [] => log LogNoDatasets
     | _ =>
         results <- io_map (analyze_one fs) datasets ;;
         write_output (mkReport results) ;;;
         log LogWrote
     end).

Definition empty_world : World := mkWorld [] None.

Close Scope io_scope.

(* ================================================================== *)
(** * Reference readings used to state the properties                   *)
(* ================================================================== *)

(** The range rule as the specification words it: a range exactly when
    the normalized name contains "vibration" and not "raw". *)
Definition expect_vibration_range_as_specified (column_name : option string)
  : option (Q * Q) :=
  match column_name with
  | None => None
  | Some name =>
      let normalized := normalize_name name in
      if str_in "vibration" normalized && negb (str_in "raw" normalized)
      then Some (0%Q, 5%Q) else None
  end.

(** Column resolution as the specification words it: per candidate, the
    first header with an equal normalized form; failing that, per
    candidate, the first header whose normalized form contains it. *)
Fixpoint first_match (test : string -> string -> bool) (columns candidates : list string)
  : option string :=
  match candidates with
  | [] => None
  | candidate :: rest =>
      match find (fun h => test (normalize_name candidate) (normalize_name h)) columns with
      | Some h => Some h
      | None => first_match test columns rest
      end
  end.

Definition find_column_as_specified (columns candidates : list string)
  : option string :=
  match first_match String.eqb columns candidates with
  | Some h => Some h
  | None => first_match str_in columns candidates
  end.

(** Column resolution described on lists, without the dictionary: the
    header returned for a normalized form is the last one that has it,
    and the substring pass ignores candidates that normalize to the
    empty string. *)
Definition last_with_norm (columns : list string) (norm : string) : option string :=
  find (fun h => String.eqb (normalize_name h) norm) (rev columns).

Fixpoint exact_pass (columns candidates : list string) : option string :=
  match candidates with
  | [] => None
  | candidate :: rest =>
      match last_with_norm columns (normalize_name candidate) with
      | Some h => Some h
      | None => exact_pass columns rest
      end
  end.

Definition substring_hit (columns : list string) (key : string) : option string :=
  if truthy key then
    match find (fun h => str_in key (normalize_name h)) columns with
    | Some h => last_with_norm columns (normalize_name h)
    | None => None
    end
  else None.

Fixpoint substring_pass (columns candidates : list string) : option string :=
  match candidates with
  | [] => None
  | candidate :: rest =>
      match substring_hit columns (normalize_name candidate) with
      | Some h => Some h
      | None => substring_pass columns rest
      end
  end.

Definition find_column_on_lists (columns candidates : list string) : option string :=
  match exact_pass columns candidates with
  | Some h => Some h
  | None => substring_pass columns candidates
  end.

(** Sum of squares, and sum of squared deviations from a centre. *)
Definition sumsq (l : list Q) : Q := sumQ (map (fun x => x * x)%Q l).

Definition dev2 (m : Q) (l : list Q) : Q :=
  sumQ (map (fun x => (x - m) * (x - m))%Q l).

(** An accumulator [s] summarises the numeric observations [l]: it is
    the fresh accumulator when there are none, and otherwise holds their
    number, their mean and their sum of squared deviations. *)
Definition tracks (s : RunningStat) (l : list Q) : Prop :=
  match l with
  | [] => s = fresh_stat
  | _ => count s = len l /\
         (mean s == series_mean l)%Q /\
         (m2 s == series_var0 l * inject_Z (len l))%Q
  end.

(** The missingness entry of a column with [m] missing cells among
    [total] rows. *)
Definition missing_entry (total m : Z) : Missingness :=
  mkMissingness m
    (if total =? 0 then 0 else inject_Z m / inject_Z total)%Q
    (total - m)
    (if total =? 0 then 0 else inject_Z (total - m) / inject_Z total)%Q.

(** Whether row [i] of a frame repeats an earlier row of it, and the
    number of such rows. *)
Definition repeats_earlier (ncols : nat) (rows : list Row) (i : nat) : bool :=
  match nth_error rows i with
  | Some r => existsb (row_eqb ncols r) (firstn i rows)
  | None => false
  end.

Definition count_repeats (ncols : nat) (rows : list Row) : Z :=
  count_where (repeats_earlier ncols rows) (seq 0 (List.length rows)).

(** A small data set in two chunks, and directories around it. *)
Definition demo_dataset : Dataset :=
  mkDataset ["DEPTH"; "ROP"; "VIBRATION_0_5"; "TIME"; "note"]
    [[ [CNum 100; CNum 3; CNum 1; CText "t0"; CNull];
       [CNum 150; CNum 4; CNum (72 # 10); CText "t1"; CText "x"] ];
     [ [CNum 200; CNum 5; CNum 2; CText "t2"; CNull];
       [CNum 100; CNum 3; CNum 1; CText "t0"; CNull] ]].

Definition header_only_dataset : Dataset :=
  mkDataset ["DEPTH"; "ROP"; "VIBRATION_0_5"; "TIME"] [[]].

(** Only [volve_drilling_best.csv] exists, and it is readable. *)
Definition demo_fs : FS :=
  fun name =>
    if String.eqb name "volve_drilling_best.csv"
    then Some (mkFile 1024 (Some demo_dataset)) else None.

Definition header_only_fs : FS :=
  fun name =>
    if String.eqb name "volve_drilling_best.csv"
    then Some (mkFile 32 (Some header_only_dataset)) else None.

(** The primary file exists but cannot be read; [volve_drilling_best.csv]
    is readable. *)
Definition broken_primary_fs : FS :=
  fun name =>
    if String.eqb name PRIMARY_DATASET_NAME then Some (mkFile 0 None)
    else demo_fs name.

(** ** Invariants of the chunk loop *)

(** Every column of the header is a key of the dictionary. *)
Definition keys_cover {V} (columns : list string) (d : dict V) : Prop :=
  forall c, In c columns -> dict_get c d <> None.

(** An accumulator summarises some observations, none if no row has been
    seen. *)
Definition good_stat (seen : list Row) (s : RunningStat) : Prop :=
  exists l, tracks s l /\ (seen = [] -> l = []).

Definition good_stats (seen : list Row) (d : dict RunningStat) : Prop :=
  Forall (fun kv => good_stat seen (snd kv)) d.

(** What holds of the loop variables after the rows [seen] have been
    processed, with a duplicate sample capped at [cap]. *)
Record loop_inv (cap : Z) (columns : list string) (seen : list Row)
    (st : LoopState) : Prop := mkLoopInv {
  inv_missing_keys : keys_cover columns (missing_counts st);
  inv_stats_keys : keys_cover columns (stats st);
  inv_stats : good_stats seen (stats st);
  inv_rows : row_count st = len seen;
  inv_empty : 0 <= fully_empty st <= len seen;
  inv_depth : 0 <= depth_negative st <= len seen;
  inv_vibration : 0 <= vibration_out_of_range st <= len seen;
  inv_sample : List.concat (sample_frames st) = firstn (Z.to_nat cap) seen;
  inv_remaining :
    sample_remaining st = cap - len (List.concat (sample_frames st))
}.

(** A step that only prints: the report is untouched and the log grows
    at its end. *)
Definition only_logs (w w' : World) : Prop :=
  w_output w' = w_output w /\ exists extra, w_log w' = w_log w ++ extra.

(** What the tables computed after the loop are, given the loop's final
    state [st] over the rows [seen]. *)
Record tables_ok (columns : list string) (seen : list Row) (st : LoopState)
    (mness : dict Missingness) (nsum : dict Summary) (dup : DuplicateSample)
    (pct : Q) : Prop := mkTablesOk {
  tbl_missing_keys : keys_cover columns mness;
  tbl_missing_entries :
    forall c e, dict_get c mness = Some e ->
      exists m, e = missing_entry (row_count st) m;
  tbl_summary : seen = [] -> nsum = [];
  tbl_sample_rows : sample_rows dup = len (List.concat (sample_frames st));
  tbl_duplicate_rows :
    duplicate_rows dup
    = count_repeats (List.length columns) (List.concat (sample_frames st));
  tbl_duplicate_rate :
    duplicate_rate dup =
      (if len (List.concat (sample_frames st)) =? 0 then 0
       else inject_Z (count_repeats (List.length columns)
                        (List.concat (sample_frames st)))
            / inject_Z (len (List.concat (sample_frames st))))%Q;
  tbl_pct :
    pct = (if row_count st =? 0 then 0
           else inject_Z (fully_empty st) / inject_Z (row_count st))%Q
}.

(** Depth readings 100, -5, 200, 150, 300, 50 in chunks of 2, 3 and 1
    rows. *)
Definition depth_scenario : Dataset :=
  mkDataset ["BIT_DEPTH"]
    [ [[CNum 100]; [CNum (-5)]];
      [[CNum 200]; [CNum 150]; [CNum 300]];
      [[CNum 50]] ].

(** Ten vibration readings, one of them 7.2. *)
Definition vibration_scenario : Dataset :=
  mkDataset ["VIBRATION_0_5"]
    [ [[CNum 1]; [CNum 2]; [CNum 3]; [CNum (72 # 10)]; [CNum 4];
       [CNum 5]; [CNum 0]; [CNum 1]; [CNum 2]; [CNum 3]] ].

Definition one_file (ds : Dataset) : FS :=
  fun _ => Some (mkFile 64 (Some ds)).

(** The record of a run, if it returned one. *)
Definition returned {A} (run : Exc A * World) : option A :=
  match fst run with OK a => Some a | Raise _ => None end.

(** A file that exists and that pandas can open and parse. *)
Definition readable (fs : FS) (name : string) : Prop :=
  exists file ds, fs name = Some file /\ f_content file = Some ds.

(** The files of the candidate list that exist, in candidate order. *)
Definition existing_datasets (fs : FS) : list string :=
  filter (file_exists fs) dataset_candidates.

(** [r] is the health record of the data set called [name]. *)
Definition record_of (fs : FS) (name : string) (r : HealthRecord) : Prop :=
  path r = ("data/volve_logs/" ++ name)%string /\
  exists w0 w1, analyze_dataset fs name w0 = (OK r, w1).

(** ** Shape of a normalized name *)

(** [spaced after_space t]: every character of [t] is of the class
    [[a-z0-9]] or a space, no two spaces are adjacent, and [t] does not
    start with a space when [after_space] holds. *)
Fixpoint spaced (after_space : bool) (t : string) : bool :=
  match t with
  | EmptyString => true
  | String c r =>
      if is_word c then spaced false r
      else Ascii.eqb c " " && negb after_space && spaced true r
  end.

Fixpoint last_is_space (t : string) : bool :=
  match t with
  | EmptyString => false
  | String c EmptyString => Ascii.eqb c " "
  | String _ r => last_is_space r
  end.

(** Words of [[a-z0-9]] separated by single spaces, with no space at
    either end. *)
Definition is_normal (t : string) : bool :=
  spaced true t && negb (last_is_space t).

(** [f] applied to every character of a string. *)
Fixpoint smap (f : ascii -> ascii) (s : string) : string :=
  match s with
  | EmptyString => EmptyString
  | String c r => String (f c) (smap f r)
  end.

(** Writing a hyphen for every underscore. *)
Definition hyphenate (c : ascii) : ascii :=
  if Ascii.eqb c "_" then "-"%char else c.

(** The characters of ASCII, on which [str.lower] is [lower_char], and
    the names written with them only. *)
Definition is_ascii_char (c : ascii) : bool := (code c <? 128)%N.

Fixpoint is_ascii (s : string) : bool :=
  match s with
  | EmptyString => true
  | String c r => is_ascii_char c && is_ascii r
  end.

(** Swapping the case of the ASCII letters. *)
Definition swapcase_char (c : ascii) : ascii :=
  if is_upper c then ascii_of_N (code c + 32)
  else if is_lower c then ascii_of_N (code c - 32)
  else c.

(** ** Least and greatest observation *)

(** [lo] is the least of the values [l], up to equality of rationals. *)
Definition is_least (lo : Q) (l : list Q) : Prop :=
  (forall q, In q l -> (lo <= q)%Q) /\ exists q, In q l /\ (q == lo)%Q.

Definition is_greatest (hi : Q) (l : list Q) : Prop :=
  (forall q, In q l -> (q <= hi)%Q) /\ exists q, In q l /\ (q == hi)%Q.

(** The [min_value] and [max_value] of an accumulator are those of the
    observations [l], and undefined when there are none. *)
Definition extremes (s : RunningStat) (l : list Q) : Prop :=
  match l with
  | [] => min_value s = None /\ max_value s = None
  | _ => exists lo hi,
           min_value s = Some lo /\ max_value s = Some hi /\
           is_least lo l /\ is_greatest hi l
  end.

(** ** Exact contents of the loop variables *)

Definition keys {V} (d : dict V) : list string := map fst d.

(** The cells of column [col] in the rows [rows], by header position. *)
Definition column_cells (columns : list string) (col : string) (rows : list Row)
  : Series :=
  match index_of col columns with
  | Some i => map (cell_at i) rows
  | None => []
  end.

(** The negative numeric cells of the depth column, if it resolved. *)
Definition negative_depths (columns : list string) (sc : StandardColumns)
    (rows : list Row) : Z :=
  match sc_depth sc with
  | Some d =>
      if truthy d && in_frame columns d
      then count_where (fun q => Qltb q 0) (numeric_values (column_cells columns d rows))
      else 0
  | None => 0
  end.

(** The numeric cells of the vibration column outside the expected
    range, if the column resolved and a range is expected. *)
Definition vibration_outliers (columns : list string) (sc : StandardColumns)
    (vr : option (Q * Q)) (rows : list Row) : Z :=
  match sc_vibration sc, vr with
  | Some v, Some (lower, upper) =>
      if truthy v && in_frame columns v
      then count_where (fun q => Qltb q lower || Qltb upper q)
             (numeric_values (column_cells columns v rows))
      else 0
  | _, _ => 0
  end.

(** The counters of the loop hold exact counts over the rows seen. *)
Record loop_counts (columns : list string) (sc : StandardColumns)
    (vr : option (Q * Q)) (seen : list Row) (st : LoopState) : Prop := mkLoopCounts {
  cnt_empty : fully_empty st = count_where (row_all_na (List.length columns)) seen;
  cnt_depth : depth_negative st = negative_depths columns sc seen;
  cnt_vibration : vibration_out_of_range st = vibration_outliers columns sc vr seen
}.

(** The per-column dictionaries hold, for every column of a header
    without repeated names, the number of missing cells and the
    statistics of the numeric cells of that column. *)
Record loop_columns (columns : list string) (seen : list Row) (st : LoopState)
  : Prop := mkLoopColumns {
  col_missing :
    forall col, In col columns ->
      dict_get col (missing_counts st)
      = Some (count_where isna (column_cells columns col seen));
  col_stats :
    forall col, In col columns ->
      exists s, dict_get col (stats st) = Some s /\
                tracks s (numeric_values (column_cells columns col seen)) /\
                extremes s (numeric_values (column_cells columns col seen));
  col_keys : NoDup (keys (stats st));
  col_keys_header : forall k, In k (keys (stats st)) -> In k columns
}.

(** The summary entry of an accumulator whose [std] is [sd]. *)
Definition summary_of (s : RunningStat) (sd : R) : Summary :=
  mkSummary (count s) (min_value s) (max_value s) (mean s) sd.

(** Number of heartbeat lines printed while chunks number [index] to
    [index + n - 1] are processed. *)
Definition heartbeats (index n : Z) : Z := (index + n) / 10 - index / 10.

Definition is_heartbeat (name : string) (msg : LogMsg) : Prop :=
  exists rows, msg = LogProcessed rows name.

(** Depth readings with one negative value, as the only file of a
    directory. *)
Definition depth_fs : FS :=
  fun name =>
    if String.eqb name "volve_drilling_best.csv"
    then Some (mkFile 64 (Some depth_scenario)) else None.

(** ** The scoring rules, group by group *)

(** Points of a two-tier coverage rule. *)
Definition tier (resolved : bool) (rate upper lower : Q) (full half : Z) : Z :=
  if resolved && Qltb upper rate then full
  else if resolved && Qltb lower rate then half
  else 0.

(** The rows of [demo_dataset] in chunks of 1 and 3 rows. *)
Definition demo_rechunked : Dataset :=
  mkDataset ["DEPTH"; "ROP"; "VIBRATION_0_5"; "TIME"; "note"]
    [[ [CNum 100; CNum 3; CNum 1; CText "t0"; CNull] ];
     [ [CNum 150; CNum 4; CNum (72 # 10); CText "t1"; CText "x"];
       [CNum 200; CNum 5; CNum 2; CText "t2"; CNull];
       [CNum 100; CNum 3; CNum 1; CText "t0"; CNull] ]].

(** A data set without any column the analyzer recognises. *)
Definition unnamed_dataset : Dataset :=
  mkDataset ["a"; "b"] [[ [CNum 1; CNum 2]; [CNum 3; CNull] ]].

(** ** What a double-precision accumulator knows *)

(** [seen] are the non-NaN cells fed so far, in order: the accumulator
    holds their number, is still the fresh one when there are none, and
    its extremes are cells of [seen] that no cell is below or above. *)
Record tracks64 (s : Float64.RunningStat) (seen : list Float64.float) : Prop :=
  mkTracks64 {
  t64_cells : Forall (fun c => Float64.isnan c = false) seen;
  t64_count : Float64.count s = len seen;
  t64_fresh : seen = [] -> s = Float64.fresh_stat;
  t64_min :
    match Float64.min_value s with
    | None => seen = []
    | Some m => In m seen /\ forall c, In c seen -> Float64.flt c m = false
    end;
  t64_max :
    match Float64.max_value s with
    | None => seen = []
    | Some m => In m seen /\ forall c, In c seen -> Float64.flt m c = false
    end
}.

(* ================================================================== *)
(** * Properties of the name matcher                                    *)
(* ================================================================== *)

Section DictFacts.
Context {V : Type}.
Implicit Types (d : dict V) (k : string) (v : V).

Lemma dict_get_set k k' v d :
  dict_get k (dict_set k' v d) = if String.eqb k k' then Some v else dict_get k d.
Proof.
  induction d as [|[k0 v0] d IH]; simpl.
  - reflexivity.
  - destruct (String.eqb k' k0) eqn:E'; simpl.
    + apply String.eqb_eq in E'; subst k0.
      destruct (String.eqb k k'); reflexivity.
    + destruct (String.eqb k k0) eqn:E0.
      * apply String.eqb_eq in E0; subst k0.
        rewrite String.eqb_sym, E'. reflexivity.
      * exact IH.
Qed.

Lemma dict_get_set_same k v d : dict_get k (dict_set k v d) = Some v.
Proof. rewrite dict_get_set, String.eqb_refl. reflexivity. Qed.

(** The first entry whose key passes a test, after an assignment. *)
Lemma find_key_set (test : string -> bool) k v d :
  find (fun kv => test (fst kv)) (dict_set k v d) =
  match find (fun kv => test (fst kv)) d with
  | Some (k0, v0) => Some (k0, if String.eqb k k0 then v else v0)
  | None => if test k then Some (k, v) else None
  end.
Proof.
  induction d as [|[k0 v0] d IH]; simpl.
  - destruct (test k); reflexivity.
  - destruct (String.eqb k k0) eqn:E; simpl.
    + destruct (test k0) eqn:T.
      * rewrite E. reflexivity.
      * apply String.eqb_eq in E; subst k0.
        destruct (find (fun kv => test (fst kv)) d) as [[k1 v1]|] eqn:F.
        -- destruct (String.eqb k k1) eqn:E1; [|reflexivity].
           apply String.eqb_eq in E1; subst k1.
           apply find_some in F. simpl in F. destruct F as [_ F]. congruence.
        -- rewrite T. reflexivity.
    + destruct (test k0) eqn:T.
      * rewrite E. reflexivity.
      * exact IH.
Qed.

(** The first entry found by a test on keys is what a lookup of its key
    returns. *)
Lemma find_key_get (test : string -> bool) d k v :
  find (fun kv => test (fst kv)) d = Some (k, v) -> dict_get k d = Some v.
Proof.
  induction d as [|[k0 v0] d IH]; simpl; [discriminate|].
  destruct (test k0) eqn:T.
  - intros [= -> ->]. rewrite String.eqb_refl. reflexivity.
  - intros F. destruct (String.eqb k k0) eqn:E.
    + apply String.eqb_eq in E; subst k0.
      apply find_some in F. simpl in F. destruct F as [_ F]. congruence.
    + auto.
Qed.
End DictFacts.

Lemma find_app_first {A} (f : A -> bool) (l l' : list A) :
  find f (l ++ l') = match find f l with Some a => Some a | None => find f l' end.
Proof.
  induction l as [|a l IH]; simpl; [reflexivity|].
  destruct (f a); [reflexivity | exact IH].
Qed.

Section Comprehension.
Context {A V : Type} (key : A -> string) (val : A -> V).

(** Looking a key up in a comprehension: the last element with that key
    wins. *)
Lemma fold_set_get (xs : list A) (d : dict V) (k : string) :
  dict_get k (fold_left (set_step key val) xs d) =
  match find (fun x => String.eqb (key x) k) (rev xs) with
  | Some x => Some (val x)
  | None => dict_get k d
  end.
Proof.
  revert d; induction xs as [|x xs IH]; intros d; simpl; [reflexivity|].
  rewrite IH, find_app_first.
  destruct (find (fun x0 => String.eqb (key x0) k) (rev xs)); [reflexivity|].
  unfold set_step; simpl. rewrite dict_get_set, String.eqb_sym.
  destruct (String.eqb (key x) k); reflexivity.
Qed.

(** Iterating a comprehension: keys come in order of first occurrence. *)
Lemma fold_set_find (test : string -> bool) (xs : list A) (d : dict V) :
  option_map fst (find (fun kv => test (fst kv)) (fold_left (set_step key val) xs d)) =
  match find (fun kv => test (fst kv)) d with
  | Some kv => Some (fst kv)
  | None => option_map key (find (fun x => test (key x)) xs)
  end.
Proof.
  revert d; induction xs as [|x xs IH]; intros d; simpl.
  - destruct (find _ d); reflexivity.
  - rewrite IH. unfold set_step at 1. rewrite find_key_set.
    destruct (find (fun kv => test (fst kv)) d) as [[k0 v0]|]; [reflexivity|].
    destruct (test (key x)); reflexivity.
Qed.

Lemma comprehension_get (xs : list A) (k : string) :
  dict_get k (dict_comprehension key val xs) =
  option_map val (find (fun x => String.eqb (key x) k) (rev xs)).
Proof.
  unfold dict_comprehension. rewrite (fold_set_get xs [] k).
  destruct (find _ (rev xs)); reflexivity.
Qed.

Lemma comprehension_find (test : string -> bool) (xs : list A) :
  option_map fst (find (fun kv => test (fst kv)) (dict_comprehension key val xs)) =
  option_map key (find (fun x => test (key x)) xs).
Proof.
  unfold dict_comprehension.
  rewrite (fold_set_find test xs []). reflexivity.
Qed.
End Comprehension.

Lemma scan_items_find (key : string) (items : dict string) :
  scan_items key items =
  if truthy key
  then option_map snd (find (fun kv => str_in key (fst kv)) items)
  else None.
Proof.
  induction items as [|[norm original] items IH]; simpl.
  - destruct (truthy key); reflexivity.
  - rewrite IH. destruct (truthy key); simpl; [|reflexivity].
    destruct (str_in key norm); reflexivity.
Qed.

Lemma scan_items_hit (columns : list string) (key : string) :
  scan_items key (dict_comprehension normalize_name (fun col => col) columns) =
  substring_hit columns key.
Proof.
  rewrite scan_items_find. unfold substring_hit.
  destruct (truthy key); [|reflexivity].
  pose proof (comprehension_find normalize_name (fun col : string => col)
                (str_in key) columns) as HF.
  destruct (find (fun kv => str_in key (fst kv)) (dict_comprehension _ _ columns))
    as [[k0 v0]|] eqn:F; simpl in HF.
  - apply find_key_get in F. rewrite comprehension_get in F.
    destruct (find (fun x => str_in key (normalize_name x)) columns) as [h|];
      simpl in HF; [|discriminate].
    injection HF as ->. unfold last_with_norm. simpl.
    destruct (find _ (rev columns)); simpl in F; [|discriminate].
    injection F as ->. reflexivity.
  - destruct (find (fun x => str_in key (normalize_name x)) columns);
      simpl in HF; [discriminate | reflexivity].
Qed.

Lemma find_exact_pass (columns candidates : list string) :
  find_exact (dict_comprehension normalize_name (fun col => col) columns) candidates =
  exact_pass columns candidates.
Proof.
  induction candidates as [|c rest IH]; simpl; [reflexivity|].
  rewrite comprehension_get, IH. unfold last_with_norm.
  destruct (find _ (rev columns)); reflexivity.
Qed.

Lemma find_substring_pass (columns candidates : list string) :
  find_substring (dict_comprehension normalize_name (fun col => col) columns) candidates =
  substring_pass columns candidates.
Proof.
  induction candidates as [|c rest IH]; simpl; [reflexivity|].
  rewrite scan_items_hit, IH. reflexivity.
Qed.

Lemma find_column_lists (columns candidates : list string) :
  find_column columns candidates = find_column_on_lists columns candidates.
Proof.
  unfold find_column, find_column_on_lists.
  rewrite find_exact_pass, find_substring_pass. reflexivity.
Qed.

Lemma find_same_test {A} (f g : A -> bool) (l : list A) :
  (forall a, f a = g a) -> find f l = find g l.
Proof.
  intros H. induction l as [|a l IH]; simpl; [reflexivity|].
  rewrite H, IH. reflexivity.
Qed.

Lemma find_rev_unique {A} (f : A -> string) (k : string) (xs : list A) :
  NoDup (map f xs) ->
  find (fun x => String.eqb (f x) k) (rev xs) = find (fun x => String.eqb (f x) k) xs.
Proof.
  induction xs as [|x xs IH]; intros ND; simpl; [reflexivity|].
  inversion ND as [|? ? Hnotin ND']; subst.
  rewrite find_app_first, (IH ND'). simpl.
  destruct (String.eqb (f x) k) eqn:E.
  - apply String.eqb_eq in E; subst k.
    destruct (find (fun x0 => String.eqb (f x0) (f x)) xs) as [y|] eqn:F; [|reflexivity].
    apply find_some in F. destruct F as [Hin Heq].
    apply String.eqb_eq in Heq. exfalso. apply Hnotin.
    rewrite <- Heq. apply in_map. exact Hin.
  - destruct (find _ xs); reflexivity.
Qed.

Lemma find_own_key {A} (f : A -> string) (xs : list A) (h : A) :
  NoDup (map f xs) -> In h xs ->
  find (fun x => String.eqb (f x) (f h)) xs = Some h.
Proof.
  induction xs as [|x xs IH]; intros ND Hin; simpl; [contradiction|].
  inversion ND as [|? ? Hnotin ND']; subst.
  destruct Hin as [->|Hin].
  - rewrite String.eqb_refl. reflexivity.
  - destruct (String.eqb (f x) (f h)) eqn:E.
    + apply String.eqb_eq in E. exfalso. apply Hnotin.
      rewrite E. apply in_map. exact Hin.
    + auto.
Qed.

(** Without colliding headers and without candidates that normalize to
    the empty string, the resolution is the one the specification words. *)
Lemma find_column_meets_wording (columns candidates : list string) :
  NoDup (map normalize_name columns) ->
  Forall (fun c => truthy (normalize_name c) = true) candidates ->
  find_column columns candidates = find_column_as_specified columns candidates.
Proof.
  intros ND HF. rewrite find_column_lists.
  unfold find_column_on_lists, find_column_as_specified.
  assert (E1 : exact_pass columns candidates = first_match String.eqb columns candidates).
  { clear HF. induction candidates as [|c rest IH]; simpl; [reflexivity|].
    unfold last_with_norm. rewrite (find_rev_unique normalize_name _ _ ND), IH.
    rewrite (find_same_test _ (fun h => String.eqb (normalize_name c) (normalize_name h)));
      [reflexivity|].
    intros h. apply String.eqb_sym. }
  assert (E2 : substring_pass columns candidates = first_match str_in columns candidates).
  { clear E1. induction HF as [|c rest Hc HF IH]; simpl; [reflexivity|].
    unfold substring_hit. rewrite Hc, IH.
    destruct (find (fun h => str_in (normalize_name c) (normalize_name h)) columns)
      as [h|] eqn:F; [|reflexivity].
    unfold last_with_norm. rewrite (find_rev_unique normalize_name _ _ ND).
    apply find_some in F. destruct F as [Hin _].
    rewrite (find_own_key normalize_name columns h ND Hin). reflexivity. }
  rewrite E1, E2. reflexivity.
Qed.

(** C5 (as worded, refuted): of two headers with the same normalized
    form the later one is returned, not the first, also through the depth
    candidates of [detect_standard_columns]; and a candidate that
    normalizes to the empty string is a substring of every header, yet
    [find_column] leaves the field unresolved. *)
Lemma find_column_wording_fails :
  (find_column ["Depth"; "DEPTH"] depth_candidates = Some "DEPTH" /\
   find_column_as_specified ["Depth"; "DEPTH"] depth_candidates = Some "Depth" /\
   sc_depth (detect_standard_columns ["Depth"; "DEPTH"]) = Some "DEPTH") /\
  (find_column ["A"] ["_"] = None /\
   find_column_as_specified ["A"] ["_"] = Some "A").
Proof. repeat split; reflexivity. Qed.

(** C5 (amended): [find_column] walks the candidates in the given order
    and returns the header recorded for the first candidate whose
    normalized form equals a normalized header (the last header with
    that form); only when no candidate matches exactly does it walk the
    candidates again, skipping those that normalize to the empty string,
    and return the header recorded for the first normalized header form
    that contains the candidate; with no match it returns [None].  For
    header BIT_DEPTH, DEPTH_ROP and candidates BIT_DEPTH, DEPTH the
    result is BIT_DEPTH. *)
Theorem find_column_resolution :
  (forall columns candidates,
      find_column columns candidates = find_column_on_lists columns candidates) /\
  find_column ["BIT_DEPTH"; "DEPTH_ROP"] ["BIT_DEPTH"; "DEPTH"] = Some "BIT_DEPTH".
Proof.
  split; [exact find_column_lists | reflexivity].
Qed.

Lemma prefix_trans (a b s : string) :
  String.prefix a b = true -> String.prefix b s = true -> String.prefix a s = true.
Proof.
  revert a b; induction s as [|c s IH]; intros a b Hab Hbs.
  - destruct b; [|discriminate]. destruct a; [reflexivity | discriminate].
  - destruct a as [|x a]; [reflexivity|].
    destruct b as [|y b]; [discriminate|].
    simpl in *.
    destruct (ascii_dec x y) as [Exy|]; [subst y|discriminate].
    destruct (ascii_dec x c); [|discriminate].
    eapply IH; eassumption.
Qed.

(** A needle that occurs brings every prefix of itself along. *)
Lemma str_in_prefix (a b hay : string) :
  String.prefix a b = true -> str_in b hay = true -> str_in a hay = true.
Proof.
  intros Hab. induction hay as [|c hay IH].
  - destruct b; [|discriminate]. destruct a; [reflexivity | discriminate].
  - change (str_in b (String c hay))
      with (if String.prefix b (String c hay) then true else str_in b hay).
    change (str_in a (String c hay))
      with (if String.prefix a (String c hay) then true else str_in a hay).
    destruct (String.prefix b (String c hay)) eqn:P.
    + intros _. rewrite (prefix_trans a b _ Hab P). reflexivity.
    + intros H. rewrite (IH H). destruct (String.prefix a (String c hay)); reflexivity.
Qed.

Lemma str_in_empty_hay (k : string) : str_in k "" = true -> k = "".
Proof. destruct k; simpl; [reflexivity | discriminate]. Qed.

(** C4 (as worded, refuted): the resolved column VIBRATION_0_5_RAW
    contains "raw" in its normalized name and still gets the range. *)
Lemma expect_vibration_range_wording_fails :
  sc_vibration (detect_standard_columns ["VIBRATION_0_5_RAW"]) = Some "VIBRATION_0_5_RAW" /\
  str_in "raw" (normalize_name "VIBRATION_0_5_RAW") = true /\
  expect_vibration_range (Some "VIBRATION_0_5_RAW") = Some (0%Q, 5%Q) /\
  expect_vibration_range_as_specified (Some "VIBRATION_0_5_RAW") = None.
Proof. repeat split; reflexivity. Qed.

(** C4 (amended): [expect_vibration_range] returns (0, 5) exactly when
    the normalized name of the resolved column contains "vibration" and
    either does not contain "raw" or contains the canonical
    "vibration 0 5"; for every other name, and when no column resolved,
    it returns no range. *)
Theorem expect_vibration_range_rule (column_name : option string) :
  expect_vibration_range column_name =
  match column_name with
  | None => None
  | Some name =>
      let normalized := normalize_name name in
      if str_in "vibration" normalized
         && (negb (str_in "raw" normalized) || str_in "vibration 0 5" normalized)
      then Some (0%Q, 5%Q) else None
  end.
Proof.
  destruct column_name as [name|]; [|reflexivity].
  unfold expect_vibration_range.
  destruct name as [|c name]; [reflexivity|].
  cbv zeta. change (negb (truthy (String c name))) with false. cbv iota.
  set (n := normalize_name (String c name)).
  destruct (str_in "vibration 0 5" n) eqn:E5.
  - rewrite (str_in_prefix "vibration" "vibration 0 5" n eq_refl E5).
    rewrite orb_true_r. reflexivity.
  - rewrite orb_false_r. reflexivity.
Qed.

(* ================================================================== *)
(** * Properties of the running statistics                              *)
(* ================================================================== *)

Section Sums.
Local Open Scope Q_scope.

Lemma len_nil {A} : len (@nil A) = 0%Z.
Proof. reflexivity. Qed.

Lemma len_cons {A} (x : A) (l : list A) : len (x :: l) = (len l + 1)%Z.
Proof. unfold len. simpl List.length. lia. Qed.

Lemma len_app {A} (l l' : list A) : len (l ++ l') = (len l + len l')%Z.
Proof. unfold len. rewrite length_app. lia. Qed.

Lemma len_nonneg {A} (l : list A) : (0 <= len l)%Z.
Proof. unfold len. lia. Qed.

Lemma len_pos {A} (l : list A) : l <> [] -> (0 < len l)%Z.
Proof. destruct l; [congruence|]. intros _. rewrite len_cons. pose proof (len_nonneg l). lia. Qed.

Lemma sumQ_app (l l' : list Q) : sumQ (l ++ l') == sumQ l + sumQ l'.
Proof.
  induction l as [|x l IH]; simpl.
  - ring.
  - rewrite IH. ring.
Qed.

Lemma sumsq_app (l l' : list Q) : sumsq (l ++ l') == sumsq l + sumsq l'.
Proof. unfold sumsq. rewrite map_app. apply sumQ_app. Qed.

Lemma dev2_expand (m : Q) (l : list Q) :
  dev2 m l == sumsq l - (2 # 1) * m * sumQ l + inject_Z (len l) * m * m.
Proof.
  unfold dev2, sumsq. induction l as [|x l IH].
  - simpl. unfold len. simpl. ring.
  - rewrite len_cons, inject_Z_plus. simpl. rewrite IH. ring.
Qed.

Lemma square_nonneg (a : Q) : 0 <= a * a.
Proof. destruct a as [n d]. unfold Qle, Qmult; simpl. nia. Qed.

Lemma dev2_nonneg (m : Q) (l : list Q) : 0 <= dev2 m l.
Proof.
  unfold dev2. induction l as [|x l IH]; simpl.
  - apply Qle_refl.
  - pose proof (square_nonneg (x - m)). lra.
Qed.

Lemma inject_len_pos {A} (l : list A) : l <> [] -> 0 < inject_Z (len l).
Proof.
  intros H. apply len_pos in H.
  change 0 with (inject_Z 0). rewrite <- Zlt_Qlt. exact H.
Qed.

(** [var(ddof=0) * n] is the sum of squared deviations from the mean. *)
Lemma var0_times_count (l : list Q) :
  l <> [] -> series_var0 l * inject_Z (len l) == dev2 (series_mean l) l.
Proof.
  intros H. apply inject_len_pos in H. unfold series_var0. fold (dev2 (series_mean l) l).
  field. lra.
Qed.

Lemma chunk_m2_sums (l : list Q) :
  l <> [] ->
  series_var0 l * inject_Z (len l) ==
  sumsq l - sumQ l * sumQ l / inject_Z (len l).
Proof.
  intros H. rewrite (var0_times_count l H), dev2_expand.
  apply inject_len_pos in H. unfold series_mean. field. lra.
Qed.
End Sums.

Lemma numeric_values_app (s s' : Series) :
  numeric_values (s ++ s') = numeric_values s ++ numeric_values s'.
Proof.
  induction s as [|c s IH]; simpl; [reflexivity|].
  destruct (to_numeric c); simpl; rewrite IH; reflexivity.
Qed.

Lemma numeric_values_concat (batches : list Series) :
  numeric_values (List.concat batches) = List.concat (map numeric_values batches).
Proof.
  induction batches as [|b bs IH]; simpl; [reflexivity|].
  rewrite numeric_values_app, IH. reflexivity.
Qed.

Lemma fdiv_ok (a b : Q) : ~ (b == 0)%Q -> fdiv a b = OK (a / b)%Q.
Proof.
  intros H. unfold fdiv. destruct (Qeq_bool b 0) eqn:E; [|reflexivity].
  apply Qeq_bool_iff in E. contradiction.
Qed.

Lemma tracks_nonempty (s : RunningStat) (l : list Q) :
  l <> [] ->
  tracks s l <->
  count s = len l /\ (mean s == series_mean l)%Q /\
  (m2 s == series_var0 l * inject_Z (len l))%Q.
Proof. destruct l; [congruence|]. intros _. reflexivity. Qed.

(** Chan's combination: merging the statistics of [l] with those of a
    batch [v] gives the statistics of [l ++ v]. *)
Lemma chan_mean (l v : list Q) :
  l <> [] -> v <> [] ->
  (series_mean l
   + (series_mean v - series_mean l) * inject_Z (len v) / inject_Z (len l + len v)
   == series_mean (l ++ v))%Q.
Proof.
  intros Hl Hv. apply inject_len_pos in Hl, Hv.
  unfold series_mean. rewrite sumQ_app, len_app, inject_Z_plus.
  field. repeat split; lra.
Qed.

Lemma chan_m2 (l v : list Q) :
  l <> [] -> v <> [] ->
  (series_var0 l * inject_Z (len l) + series_var0 v * inject_Z (len v)
   + (series_mean v - series_mean l) * (series_mean v - series_mean l)
     * inject_Z (len l) * inject_Z (len v) / inject_Z (len l + len v)
   == series_var0 (l ++ v) * inject_Z (len (l ++ v)))%Q.
Proof.
  intros Hl Hv.
  assert (Hlv : l ++ v <> []) by (destruct l; [congruence | discriminate]).
  rewrite (chunk_m2_sums l Hl), (chunk_m2_sums v Hv), (chunk_m2_sums _ Hlv).
  apply inject_len_pos in Hl, Hv.
  unfold series_mean. rewrite sumQ_app, sumsq_app, len_app, inject_Z_plus.
  field. repeat split; lra.
Qed.

(** One [update] keeps the accumulator in step with the observations. *)
Lemma update_tracks (s : RunningStat) (l : list Q) (series : Series) :
  tracks s l ->
  exists s', update s series = OK s' /\ tracks s' (l ++ numeric_values series).
Proof.
  intros T. unfold update.
  destruct (numeric_values series) as [|x v] eqn:EV.
  - exists s. rewrite app_nil_r. auto.
  - set (vals := x :: v) in *.
    assert (Hv : vals <> []) by discriminate.
    destruct l as [|y l].
    + simpl in T. subst s. simpl.
      eexists; split; [reflexivity|].
      apply tracks_nonempty; [exact Hv|]. simpl. repeat split; reflexivity.
    + set (obs := y :: l) in *.
      assert (Hl : obs <> []) by discriminate.
      apply (tracks_nonempty s obs Hl) in T. destruct T as (Hc & Hm & Hm2).
      pose proof (len_pos obs Hl) as Pl. pose proof (len_pos vals Hv) as Pv.
      assert (Hz : (count s =? 0) = false) by (apply Z.eqb_neq; lia).
      rewrite Hz.
      assert (Ht : ~ (inject_Z (count s + len vals) == 0)%Q).
      { change 0%Q with (inject_Z 0). rewrite inject_Z_injective. lia. }
      rewrite !(fdiv_ok _ _ Ht). simpl ebind.
      eexists; split; [reflexivity|].
      assert (Hlv : obs ++ vals <> []) by discriminate.
      apply (tracks_nonempty _ _ Hlv). simpl count; simpl mean; simpl m2.
      split; [rewrite len_app; lia|]. rewrite Hc. split.
      * rewrite Hm. apply chan_mean; assumption.
      * rewrite Hm2, Hm. rewrite <- chan_m2 by assumption. reflexivity.
Qed.

Lemma update_all_tracks (batches : list Series) (s : RunningStat) (l : list Q) :
  tracks s l ->
  exists s', update_all s batches = OK s' /\
             tracks s' (l ++ List.concat (map numeric_values batches)).
Proof.
  revert s l; induction batches as [|b bs IH]; intros s l T; simpl.
  - exists s. rewrite app_nil_r. auto.
  - destruct (update_tracks s l b T) as (s1 & E1 & T1).
    destruct (IH s1 _ T1) as (s2 & E2 & T2).
    exists s2. unfold update_all in *. simpl. rewrite E1. simpl.
    rewrite app_assoc. auto.
Qed.

Lemma tracks_fresh : tracks fresh_stat [].
Proof. reflexivity. Qed.

Lemma tracks_agree (s1 s2 : RunningStat) (l : list Q) :
  tracks s1 l -> tracks s2 l ->
  count s1 = count s2 /\ (mean s1 == mean s2)%Q /\ (m2 s1 == m2 s2)%Q.
Proof.
  destruct l as [|x l]; simpl.
  - intros -> ->. repeat split; reflexivity.
  - intros (C1 & M1 & V1) (C2 & M2 & V2).
    rewrite C1, C2, M1, M2, V1, V2. repeat split; reflexivity.
Qed.

Lemma tracks_bounds (s : RunningStat) (l : list Q) :
  tracks s l -> 0 <= count s /\ (0 <= m2 s)%Q.
Proof.
  destruct l as [|x l].
  - simpl. intros ->. simpl. split; [lia | apply Qle_refl].
  - intros T. apply tracks_nonempty in T; [|discriminate].
    destruct T as (C & _ & V). split.
    + rewrite C. apply len_nonneg.
    + rewrite V, var0_times_count by discriminate. apply dev2_nonneg.
Qed.

Lemma Qltb_false (a b : Q) : (b <= a)%Q -> Qltb a b = false.
Proof.
  intros H. unfold Qltb. apply negb_false_iff. apply Qle_bool_iff. exact H.
Qed.

Lemma Qltb_true (a b : Q) : (a < b)%Q -> Qltb a b = true.
Proof.
  intros H. unfold Qltb. apply negb_true_iff.
  destruct (Qle_bool b a) eqn:E; [|reflexivity].
  apply Qle_bool_iff in E. lra.
Qed.

(** [std] never raises on an accumulator with a non-negative count and
    a non-negative sum of squared deviations. *)
Lemma std_value (s : RunningStat) :
  0 <= count s -> (0 <= m2 s)%Q ->
  std s = OK (if count s <=? 1 then 0%R
              else sqrt (Q2R (m2 s / inject_Z (count s)))).
Proof.
  intros Hc Hm. unfold std.
  destruct (count s <=? 1) eqn:E; [reflexivity|].
  apply Z.leb_gt in E.
  assert (Hp : (0 < inject_Z (count s))%Q).
  { change 0%Q with (inject_Z 0). rewrite <- Zlt_Qlt. lia. }
  rewrite fdiv_ok by lra. simpl. unfold math_sqrt.
  rewrite Qltb_false; [reflexivity|].
  apply Qle_shift_div_l; [exact Hp | lra].
Qed.

(** Under exact arithmetic, feeding the batches one [update] at a time
    to a fresh accumulator succeeds and gives the same count, the same
    mean, the same sum of squared deviations and the same standard
    deviation as one [update] on the concatenated sequence. *)
Lemma update_chunking_exact (batches : list Series) :
  exists (s1 s2 : RunningStat) (sd : R),
    update_all fresh_stat batches = OK s1 /\
    update fresh_stat (List.concat batches) = OK s2 /\
    count s1 = count s2 /\
    (mean s1 == mean s2)%Q /\
    (m2 s1 == m2 s2)%Q /\
    std s1 = OK sd /\ std s2 = OK sd.
Proof.
  destruct (update_all_tracks batches fresh_stat [] tracks_fresh) as (s1 & E1 & T1).
  destruct (update_tracks fresh_stat [] (List.concat batches) tracks_fresh)
    as (s2 & E2 & T2).
  rewrite numeric_values_concat in T2.
  destruct (tracks_agree _ _ _ T1 T2) as (C & M & V).
  destruct (tracks_bounds _ _ T1) as (B1 & N1).
  destruct (tracks_bounds _ _ T2) as (B2 & N2).
  exists s1, s2. eexists. repeat split; try eassumption.
  - apply std_value; assumption.
  - rewrite (std_value s2 B2 N2), <- C.
    destruct (count s1 <=? 1); [reflexivity|].
    f_equal. f_equal. apply Qeq_eqR. rewrite V. reflexivity.
Qed.

(* ================================================================== *)
(** * The chunk loop                                                    *)
(* ================================================================== *)

Lemma count_where_bounds {A} (p : A -> bool) (l : list A) :
  0 <= count_where p l <= len l.
Proof.
  unfold count_where, len. pose proof (filter_length_le p l). lia.
Qed.

Lemma len_map {A B} (f : A -> B) (l : list A) : len (map f l) = len l.
Proof. unfold len. rewrite length_map. reflexivity. Qed.

Lemma len_numeric_values (s : Series) : len (numeric_values s) <= len s.
Proof.
  induction s as [|c s IH]; simpl; [reflexivity|].
  destruct (to_numeric c); rewrite !len_cons; lia.
Qed.

Lemma index_of_in (col : string) (columns : list string) :
  In col columns -> exists i, index_of col columns = Some i.
Proof.
  induction columns as [|c rest IH]; simpl; [contradiction|].
  intros [->|Hin].
  - rewrite String.eqb_refl. eauto.
  - destruct (String.eqb col c); [eauto|].
    destruct (IH Hin) as [i ->]. eauto.
Qed.

Lemma in_frame_in (columns : list string) (col : string) :
  in_frame columns col = true -> In col columns.
Proof.
  unfold in_frame. rewrite existsb_exists. intros (c & Hin & E).
  apply String.eqb_eq in E. subst c. exact Hin.
Qed.

Lemma frame_col_ok (columns : list string) (chunk : Chunk) (col : string) :
  In col columns ->
  exists i, frame_col columns chunk col = OK (map (cell_at i) chunk).
Proof.
  intros Hin. unfold frame_col.
  destruct (index_of_in col columns Hin) as [i ->]. eauto.
Qed.

Lemma dict_item_ok {V} (columns : list string) (d : dict V) (col : string) :
  keys_cover columns d -> In col columns ->
  exists v, dict_get col d = Some v /\ dict_item col d = OK v.
Proof.
  intros K Hin. unfold dict_item. specialize (K col Hin).
  destruct (dict_get col d) as [v|]; [eauto | congruence].
Qed.

Lemma keys_cover_set {V} (columns : list string) (d : dict V) (k : string) (v : V) :
  keys_cover columns d -> keys_cover columns (dict_set k v d).
Proof.
  intros K c Hin. rewrite dict_get_set.
  destruct (String.eqb c k); [discriminate | auto].
Qed.

Lemma dict_get_in {V} (d : dict V) (k : string) (v : V) :
  dict_get k d = Some v -> exists k', In (k', v) d.
Proof.
  induction d as [|[k0 v0] d IH]; simpl; [discriminate|].
  destruct (String.eqb k k0).
  - intros [= ->]. eauto.
  - intros H. destruct (IH H) as [k' Hin]. eauto.
Qed.

Lemma Forall_dict_get {V} (P : V -> Prop) (d : dict V) (k : string) (v : V) :
  Forall (fun kv => P (snd kv)) d -> dict_get k d = Some v -> P v.
Proof.
  intros F G. destruct (dict_get_in d k v G) as [k' Hin].
  rewrite Forall_forall in F. exact (F _ Hin).
Qed.

Lemma Forall_dict_set {V} (P : V -> Prop) (d : dict V) (k : string) (v : V) :
  Forall (fun kv => P (snd kv)) d -> P v ->
  Forall (fun kv => P (snd kv)) (dict_set k v d).
Proof.
  intros F Pv. induction d as [|[k0 v0] d IH]; simpl.
  - constructor; [exact Pv | constructor].
  - inversion F as [|? ? P0 F']; subst.
    destruct (String.eqb k k0); constructor; auto.
Qed.

Lemma good_stat_grow (seen chunk : list Row) (s : RunningStat) :
  good_stat seen s -> good_stat (seen ++ chunk) s.
Proof.
  intros (l & T & E). exists l. split; [exact T|].
  intros H. apply app_eq_nil in H. tauto.
Qed.

(** The inner loop over the columns of one chunk. *)
Lemma column_loop_ok (columns : list string) (chunk : Chunk) (total : list Row)
    (cols : list string) (mc : dict Z) (ns : dict RunningStat) :
  (forall c, In c cols -> In c columns) ->
  (total = [] -> chunk = []) ->
  keys_cover columns mc -> keys_cover columns ns -> good_stats total ns ->
  exists mc' ns',
    efold (column_step columns chunk) cols (mc, ns) = OK (mc', ns') /\
    keys_cover columns mc' /\ keys_cover columns ns' /\ good_stats total ns'.
Proof.
  intros Hsub Hempty. revert mc ns.
  induction cols as [|col cols IH]; intros mc ns Kmc Kns G; simpl.
  - exists mc, ns. auto.
  - assert (Hin : In col columns) by (apply Hsub; left; reflexivity).
    destruct (frame_col_ok columns chunk col Hin) as [i Ecol].
    destruct (dict_item_ok columns mc col Kmc Hin) as (old & _ & Eold).
    destruct (dict_item_ok columns ns col Kns Hin) as (stat & Gstat & Estat).
    destruct (Forall_dict_get _ _ _ _ G Gstat) as (l & T & El).
    destruct (update_tracks stat l (map (cell_at i) chunk) T) as (stat' & Eup & T').
    unfold column_step at 1. rewrite Eold. simpl ebind. rewrite Ecol. simpl ebind.
    rewrite Estat. simpl ebind. rewrite Eup. simpl ebind.
    apply IH.
    + intros c Hc. apply Hsub. right. exact Hc.
    + apply keys_cover_set. exact Kmc.
    + apply keys_cover_set. exact Kns.
    + apply Forall_dict_set; [exact G|].
      eexists. split; [exact T'|].
      intros Ht. rewrite (El Ht), (Hempty Ht). reflexivity.
Qed.

Lemma concat_snoc {A} (frames : list (list A)) (frame : list A) :
  List.concat (frames ++ [frame]) = List.concat frames ++ frame.
Proof. rewrite concat_app. simpl. rewrite app_nil_r. reflexivity. Qed.

Lemma len_firstn {A} (n : nat) (l : list A) :
  len (firstn n l) = Z.min (Z.of_nat n) (len l).
Proof. unfold len. rewrite length_firstn. lia. Qed.

(** The duplicate sampler keeps exactly the first [cap] rows seen. *)
Lemma sample_step_inv (cap : Z) (seen : list Row) (chunk : Chunk)
    (frames : list (list Row)) (remaining : Z) :
  List.concat frames = firstn (Z.to_nat cap) seen ->
  remaining = cap - len (List.concat frames) ->
  List.concat (fst (sample_step chunk frames remaining))
    = firstn (Z.to_nat cap) (seen ++ chunk) /\
  snd (sample_step chunk frames remaining)
    = cap - len (List.concat (fst (sample_step chunk frames remaining))).
Proof.
  intros Hs Hr. unfold sample_step.
  pose proof (len_firstn (Z.to_nat cap) seen) as Lf. rewrite <- Hs in Lf.
  rewrite firstn_app.
  destruct (0 <? remaining) eqn:E.
  - apply Z.ltb_lt in E. cbn [fst snd].
    assert (Hlt : (List.length seen < Z.to_nat cap)%nat) by (unfold len in *; lia).
    assert (Hall : firstn (Z.to_nat cap) seen = seen) by (apply firstn_all2; lia).
    rewrite Hall in *. rewrite concat_snoc, Hs.
    assert (Hsame : firstn (Z.to_nat (Z.min remaining (len chunk))) chunk
                    = firstn (Z.to_nat cap - List.length seen) chunk).
    { destruct (Z.le_ge_cases remaining (len chunk)) as [Hle|Hge].
      - rewrite Z.min_l by exact Hle. f_equal. unfold len in *. lia.
      - rewrite Z.min_r by exact Hge.
        rewrite !firstn_all2; [reflexivity | unfold len in *; lia | unfold len in *; lia]. }
    split.
    + rewrite Hsame. reflexivity.
    + rewrite len_app, len_firstn. unfold len in *. lia.
  - apply Z.ltb_ge in E. cbn [fst snd]. split; [|exact Hr].
    rewrite Hs.
    assert (Hz : (Z.to_nat cap - List.length seen = 0)%nat) by (unfold len in *; lia).
    rewrite Hz. simpl. rewrite app_nil_r. reflexivity.
Qed.

Lemma loop_inv_init (cap : Z) (columns : list string) :
  loop_inv cap columns [] (init_state cap columns).
Proof.
  constructor; simpl; try (unfold len; simpl; lia).
  - intros c Hin. rewrite comprehension_get.
    destruct (find (fun x => String.eqb x c) (rev columns)) eqn:F; [discriminate|].
    rewrite in_rev in Hin. apply (find_none _ _ F c) in Hin.
    rewrite String.eqb_refl in Hin. discriminate.
  - intros c Hin. rewrite comprehension_get.
    destruct (find (fun x => String.eqb x c) (rev columns)) eqn:F; [discriminate|].
    rewrite in_rev in Hin. apply (find_none _ _ F c) in Hin.
    rewrite String.eqb_refl in Hin. discriminate.
  - unfold good_stats. apply Forall_forall. intros [k s] Hin. simpl.
    exists []. split; [|reflexivity].
    assert (Hs : s = fresh_stat); [|subst s; reflexivity].
    revert Hin. unfold dict_comprehension.
    assert (Hgen : forall xs d,
               Forall (fun kv : string * RunningStat => snd kv = fresh_stat) d ->
               Forall (fun kv : string * RunningStat => snd kv = fresh_stat)
                 (fold_left (fun d x => dict_set x fresh_stat d) xs d)).
    { induction xs as [|x xs IH]; intros d Fd; simpl; [exact Fd|].
      apply IH. apply (Forall_dict_set (fun v => v = fresh_stat)); auto. }
    intros Hin. specialize (Hgen columns [] (Forall_nil _)).
    rewrite Forall_forall in Hgen. exact (Hgen _ Hin).
  - destruct (Z.to_nat cap); reflexivity.
Qed.

Lemma count_numeric_bounds (p : Q -> bool) (i : nat) (chunk : Chunk) :
  0 <= count_where p (numeric_values (map (cell_at i) chunk)) <= len chunk.
Proof.
  pose proof (count_where_bounds p (numeric_values (map (cell_at i) chunk))).
  pose proof (len_numeric_values (map (cell_at i) chunk)).
  rewrite len_map in *. lia.
Qed.

(** One iteration of the chunk loop never raises and re-establishes the
    invariant for the rows seen so far. *)
Lemma process_chunk_ok (cap : Z) (columns : list string)
    (standard_cols : StandardColumns) (vibration_range : option (Q * Q))
    (seen : list Row) (st : LoopState) (chunk : Chunk) :
  loop_inv cap columns seen st ->
  exists st',
    process_chunk columns standard_cols vibration_range st chunk = OK st' /\
    loop_inv cap columns (seen ++ chunk) st'.
Proof.
  intros [Kmc Kns G Hrows Hempty Hdepth Hvib Hsample Hrem].
  unfold process_chunk.
  assert (G' : good_stats (seen ++ chunk) (stats st)).
  { unfold good_stats in *. rewrite Forall_forall in *.
    intros kv Hin. apply good_stat_grow. auto. }
  destruct (column_loop_ok columns chunk (seen ++ chunk) columns
              (missing_counts st) (stats st)) as (mc' & ns' & Eloop & Kmc' & Kns' & Gns');
    auto.
  { intros H. apply app_eq_nil in H. tauto. }
  rewrite Eloop. simpl ebind.
  (* negative depths *)
  assert (Edepth : exists dn,
    match sc_depth standard_cols with
    | Some depth_col =>
        if truthy depth_col && in_frame columns depth_col then
          ebind (frame_col columns chunk depth_col) (fun series =>
            OK (depth_negative st
                + count_where (fun q => Qltb q 0) (numeric_values series)))
        else OK (depth_negative st)
    | None => OK (depth_negative st)
    end = OK dn /\ 0 <= dn <= len (seen ++ chunk)).
  { rewrite len_app. pose proof (len_nonneg chunk).
    destruct (sc_depth standard_cols) as [d|]; [|eexists; split; [reflexivity | lia]].
    destruct (truthy d && in_frame columns d) eqn:E;
      [|eexists; split; [reflexivity | lia]].
    apply andb_true_iff in E. destruct E as [_ E]. apply in_frame_in in E.
    destruct (frame_col_ok columns chunk d E) as [i ->]. simpl ebind.
    eexists; split; [reflexivity|].
    pose proof (count_numeric_bounds (fun q => Qltb q 0) i chunk). lia. }
  destruct Edepth as (dn & -> & Hdn). simpl ebind.
  (* vibration readings out of range *)
  assert (Evib : exists vo,
    match sc_vibration standard_cols, vibration_range with
    | Some vibration_col, Some (lower, upper) =>
        if truthy vibration_col && in_frame columns vibration_col then
          ebind (frame_col columns chunk vibration_col) (fun series =>
            OK (vibration_out_of_range st
                + count_where (fun q => Qltb q lower || Qltb upper q)
                    (numeric_values series)))
        else OK (vibration_out_of_range st)
    | _, _ => OK (vibration_out_of_range st)
    end = OK vo /\ 0 <= vo <= len (seen ++ chunk)).
  { rewrite len_app. pose proof (len_nonneg chunk).
    destruct (sc_vibration standard_cols) as [v|]; [|eexists; split; [reflexivity | lia]].
    destruct vibration_range as [[lower upper]|]; [|eexists; split; [reflexivity | lia]].
    destruct (truthy v && in_frame columns v) eqn:E;
      [|eexists; split; [reflexivity | lia]].
    apply andb_true_iff in E. destruct E as [_ E]. apply in_frame_in in E.
    destruct (frame_col_ok columns chunk v E) as [i ->]. simpl ebind.
    eexists; split; [reflexivity|].
    pose proof (count_numeric_bounds (fun q => Qltb q lower || Qltb upper q) i chunk).
    lia. }
  destruct Evib as (vo & -> & Hvo). simpl ebind.
  destruct (sample_step_inv cap seen chunk (sample_frames st) (sample_remaining st)
              Hsample Hrem) as (Hs' & Hr').
  destruct (sample_step chunk (sample_frames st) (sample_remaining st))
    as [frames remaining]. simpl in Hs', Hr'.
  eexists. split; [reflexivity|].
  constructor; simpl; auto.
  - rewrite len_app. lia.
  - rewrite len_app.
    pose proof (count_where_bounds (row_all_na (List.length columns)) chunk). lia.
Qed.

Lemma only_logs_refl (w : World) : only_logs w w.
Proof. split; [reflexivity|]. exists []. rewrite app_nil_r. reflexivity. Qed.

Lemma only_logs_trans (w1 w2 w3 : World) :
  only_logs w1 w2 -> only_logs w2 w3 -> only_logs w1 w3.
Proof.
  intros (O1 & e1 & L1) (O2 & e2 & L2). split; [congruence|].
  exists (e1 ++ e2). rewrite L2, L1, app_assoc. reflexivity.
Qed.

Lemma only_logs_log (msg : LogMsg) (w : World) : only_logs w (snd (log msg w)).
Proof. split; [reflexivity|]. exists [msg]. reflexivity. Qed.

Lemma only_logs_in (w w' : World) (msg : LogMsg) :
  only_logs w w' -> In msg (w_log w) -> In msg (w_log w').
Proof. intros (_ & e & L) Hin. rewrite L. apply in_or_app. left. exact Hin. Qed.

(** The whole chunk loop: it never raises, and it ends in a state that
    satisfies the invariant for all the rows of the data set. *)
Lemma chunk_loop_ok (name : string) (cap : Z) (columns : list string)
    (standard_cols : StandardColumns) (vibration_range : option (Q * Q))
    (chunks : list Chunk) :
  forall (index : Z) (seen : list Row) (st : LoopState) (w : World),
    loop_inv cap columns seen st ->
    exists st' w',
      chunk_loop name columns standard_cols vibration_range index chunks st w
        = (OK st', w') /\
      loop_inv cap columns (seen ++ List.concat chunks) st' /\
      only_logs w w'.
Proof.
  induction chunks as [|chunk rest IH]; intros index seen st w Inv; simpl.
  - exists st, w. rewrite app_nil_r. split; [reflexivity|].
    split; [exact Inv | apply only_logs_refl].
  - destruct (process_chunk_ok cap columns standard_cols vibration_range
                seen st chunk Inv) as (st1 & E1 & Inv1).
    unfold ibind at 1. unfold lift. rewrite E1.
    unfold ibind at 1.
    destruct ((index + 1) mod 10 =? 0).
    + simpl.
      destruct (IH (index + 1) _ st1
                  (mkWorld (w_log w ++ [LogProcessed (row_count st1) name]) (w_output w))
                  Inv1) as (st2 & w2 & E2 & Inv2 & L2).
      exists st2, w2. rewrite E2, app_assoc. split; [reflexivity|].
      split; [exact Inv2|].
      eapply only_logs_trans; [|exact L2].
      apply (only_logs_log (LogProcessed (row_count st1) name) w).
    + simpl.
      destruct (IH (index + 1) _ st1 w Inv1) as (st2 & w2 & E2 & Inv2 & L2).
      exists st2, w2. rewrite E2, app_assoc. auto.
Qed.

(* ================================================================== *)
(** * After the loop: the tables of the record                          *)
(* ================================================================== *)

Lemma truediv_ok (a b : Z) : b <> 0 -> truediv a b = OK (inject_Z a / inject_Z b)%Q.
Proof.
  intros H. unfold truediv. apply fdiv_ok.
  change 0%Q with (inject_Z 0). rewrite inject_Z_injective. exact H.
Qed.

(** A guarded rate [a / total if total else 0.0] never raises. *)
Lemma guarded_rate (a total : Z) :
  (if total =? 0 then OK 0%Q else truediv a total) =
  OK (if total =? 0 then 0 else inject_Z a / inject_Z total)%Q.
Proof.
  destruct (total =? 0) eqn:E; [reflexivity|].
  apply Z.eqb_neq in E. apply truediv_ok. exact E.
Qed.

Lemma missingness_step_ok (total : Z) (mc : dict Z) (acc : dict Missingness)
    (col : string) (m : Z) :
  dict_get col mc = Some m ->
  missingness_step total mc acc col = OK (dict_set col (missing_entry total m) acc).
Proof.
  intros G. unfold missingness_step, dict_item. rewrite G. simpl ebind.
  rewrite !guarded_rate. reflexivity.
Qed.

Lemma missingness_table (total : Z) (mc : dict Z) (columns : list string) :
  keys_cover columns mc ->
  forall (cols : list string) (acc : dict Missingness),
    (forall c, In c cols -> In c columns) ->
    exists tbl,
      efold (missingness_step total mc) cols acc = OK tbl /\
      (forall c, In c cols ->
         exists m, dict_get c mc = Some m /\
                   dict_get c tbl = Some (missing_entry total m)) /\
      (forall c, ~ In c cols -> dict_get c tbl = dict_get c acc).
Proof.
  intros K todo. induction todo as [|col todo IH]; intros acc Hsub; simpl.
  - exists acc. split; [reflexivity|]. split; [contradiction | reflexivity].
  - destruct (dict_item_ok columns mc col K (Hsub col (or_introl eq_refl)))
      as (m & Gm & _).
    rewrite (missingness_step_ok total mc acc col m Gm). simpl ebind.
    destruct (IH (dict_set col (missing_entry total m) acc)) as (tbl & E & Hin & Hout).
    { intros c Hc. apply Hsub. right. exact Hc. }
    exists tbl. split; [exact E|]. split.
    + intros c [<-|Hc]; [|auto].
      destruct (in_dec string_dec col todo) as [Hc|Hc]; [auto|].
      exists m. split; [exact Gm|].
      rewrite (Hout col Hc). apply dict_get_set_same.
    + intros c Hc. rewrite Hout by tauto.
      rewrite dict_get_set.
      destruct (String.eqb c col) eqn:E'; [|reflexivity].
      apply String.eqb_eq in E'. subst c. exfalso. apply Hc. left. reflexivity.
Qed.

Lemma summary_table (seen : list Row) (items : dict RunningStat) :
  good_stats seen items ->
  forall acc : dict Summary,
    exists tbl, efold summary_step items acc = OK tbl /\ (seen = [] -> tbl = acc).
Proof.
  unfold good_stats. intros F.
  induction F as [|kv items Hkv HF IH]; intros acc; simpl.
  - exists acc. auto.
  - destruct kv as [col s]. destruct Hkv as (l & T & El). simpl in T.
    unfold summary_step at 1.
    destruct (count s =? 0) eqn:E.
    + simpl ebind. apply IH.
    + destruct (tracks_bounds s l T) as (Bc & Bm).
      rewrite (std_value s Bc Bm). simpl ebind.
      destruct (IH (dict_set col
                      (mkSummary (count s) (min_value s) (max_value s) (mean s)
                         (if count s <=? 1 then 0%R
                          else sqrt (Q2R (m2 s / inject_Z (count s))))) acc))
        as (tbl & Et & Hempty).
      exists tbl. split; [exact Et|].
      intros Hs. simpl in T. rewrite (El Hs) in T. simpl in T. subst s.
      discriminate.
Qed.

Lemma count_where_map {A B} (f : A -> B) (p : B -> bool) (l : list A) :
  count_where p (map f l) = count_where (fun a => p (f a)) l.
Proof.
  unfold count_where, len. f_equal.
  induction l as [|a l IH]; simpl; [reflexivity|].
  destruct (p (f a)); simpl; rewrite IH; reflexivity.
Qed.

Lemma duplicated_from_spec (ncols : nat) (rows seen : list Row) :
  duplicated_from ncols seen rows =
  map (fun i => repeats_earlier ncols (seen ++ rows) (List.length seen + i))
      (seq 0 (List.length rows)).
Proof.
  revert seen; induction rows as [|r rest IH]; intros seen; [reflexivity|].
  cbn [duplicated_from List.length seq map]. f_equal.
  - unfold repeats_earlier. rewrite Nat.add_0_r.
    rewrite nth_error_app2 by lia. rewrite Nat.sub_diag. cbn [nth_error].
    rewrite firstn_app, Nat.sub_diag, firstn_all. cbn [firstn].
    rewrite app_nil_r. reflexivity.
  - rewrite IH, <- seq_shift, map_map. apply map_ext. intros i.
    rewrite <- app_assoc. cbn [app]. rewrite length_app. cbn [List.length].
    f_equal. lia.
Qed.

(** [int(sample_df.duplicated().sum())] counts the rows that repeat an
    earlier row of the sample. *)
Lemma duplicated_count (ncols : nat) (rows : list Row) :
  count_where (fun b : bool => b) (duplicated ncols rows) = count_repeats ncols rows.
Proof.
  unfold duplicated, count_repeats. rewrite duplicated_from_spec, count_where_map.
  reflexivity.
Qed.

Lemma count_repeats_nil (ncols : nat) : count_repeats ncols [] = 0.
Proof. reflexivity. Qed.

Lemma finish_sample_ok (ncols : nat) (frames : list (list Row)) :
  exists d,
    finish_sample ncols frames = OK d /\
    sample_rows d = len (List.concat frames) /\
    duplicate_rows d = count_repeats ncols (List.concat frames) /\
    duplicate_rate d =
      (if len (List.concat frames) =? 0 then 0
       else inject_Z (count_repeats ncols (List.concat frames))
            / inject_Z (len (List.concat frames)))%Q.
Proof.
  unfold finish_sample. destruct frames as [|f frames].
  - eexists. split; [reflexivity|]. simpl. auto.
  - set (sample := List.concat (f :: frames)).
    rewrite guarded_rate. simpl ebind. rewrite duplicated_count.
    eexists. split; [reflexivity|]. simpl. auto.
Qed.

(** The code after the loop never raises. *)
Lemma finalize_ok (name : string) (file_size cap : Z) (columns : list string)
    (standard_cols : StandardColumns) (vibration_range : option (Q * Q))
    (seen : list Row) (st : LoopState) :
  loop_inv cap columns seen st ->
  exists mness nsum dup pct,
    finalize name file_size columns standard_cols vibration_range st
      = OK (assemble name file_size columns standard_cols vibration_range st
              mness nsum dup pct) /\
    tables_ok columns seen st mness nsum dup pct.
Proof.
  intros Inv. unfold finalize.
  destruct (missingness_table (row_count st) (missing_counts st) columns
              (inv_missing_keys _ _ _ _ Inv) columns [])
    as (mness & Em & Hm & Hout); [auto|].
  destruct (summary_table seen (stats st) (inv_stats _ _ _ _ Inv) [])
    as (nsum & En & Hn).
  destruct (finish_sample_ok (List.length columns) (sample_frames st))
    as (dup & Ed & D1 & D2 & D3).
  rewrite Em. simpl ebind. rewrite En. simpl ebind. rewrite Ed. simpl ebind.
  rewrite guarded_rate. simpl ebind.
  exists mness, nsum, dup. eexists. split; [reflexivity|].
  constructor; auto.
  - intros c Hc. destruct (Hm c Hc) as (m & _ & G). congruence.
  - intros c e G. destruct (in_dec string_dec c columns) as [Hc|Hc].
    + destruct (Hm c Hc) as (m & _ & G'). exists m. congruence.
    + rewrite (Hout c Hc) in G. discriminate.
Qed.

(** A readable data set is always analysed to a record: neither the
    loop nor the code after it raises. *)
Lemma analyze_dataset_runs (fs : FS) (name : string) (file : File) (ds : Dataset)
    (w : World) :
  fs name = Some file -> f_content file = Some ds ->
  let columns := ds_header ds in
  let sc := detect_standard_columns columns in
  let vr := expect_vibration_range (sc_vibration sc) in
  let seen := List.concat (ds_chunks ds) in
  exists st mness nsum dup pct w',
    analyze_dataset fs name w
      = (OK (assemble name (f_size file) columns sc vr st mness nsum dup pct), w') /\
    loop_inv DUPLICATE_SAMPLE_ROWS columns seen st /\
    tables_ok columns seen st mness nsum dup pct /\
    only_logs w w'.
Proof.
  intros Hfile Hds columns sc vr seen.
  set (w1 := if LARGE_FILE_BYTES <? f_size file
             then snd (log (LogLargeFile (f_size file)) w) else w).
  assert (L1 : only_logs w w1).
  { unfold w1. destruct (LARGE_FILE_BYTES <? f_size file);
      [apply only_logs_log | apply only_logs_refl]. }
  destruct (chunk_loop_ok name DUPLICATE_SAMPLE_ROWS columns sc vr (ds_chunks ds)
              0 [] (init_state DUPLICATE_SAMPLE_ROWS columns) w1
              (loop_inv_init _ _)) as (st & w' & Eloop & Inv & L2).
  simpl app in Inv.
  destruct (finalize_ok name (f_size file) DUPLICATE_SAMPLE_ROWS columns sc vr
              _ st Inv) as (mness & nsum & dup & pct & Efin & T).
  exists st, mness, nsum, dup, pct, w'.
  split; [|split; [exact Inv | split; [exact T | eapply only_logs_trans; eassumption]]].
  unfold analyze_dataset, ibind, lift, stat_file, read_csv.
  rewrite Hfile, Hds.
  fold columns. fold sc. fold vr.
  assert (Estep : (if LARGE_FILE_BYTES <? f_size file
                   then log (LogLargeFile (f_size file)) else iret tt) w
                  = (OK tt, w1)).
  { unfold w1. destruct (LARGE_FILE_BYTES <? f_size file); reflexivity. }
  rewrite Estep, Eloop, Efin. reflexivity.
Qed.

(* ================================================================== *)
(** * Resolved columns are usable names                                 *)
(* ================================================================== *)

Lemma last_with_norm_some (columns : list string) (norm h : string) :
  last_with_norm columns norm = Some h -> In h columns /\ normalize_name h = norm.
Proof.
  unfold last_with_norm. intros F. apply find_some in F. destruct F as [Hin E].
  apply String.eqb_eq in E. rewrite <- in_rev in Hin. auto.
Qed.

Lemma truthy_of_normalized (h : string) :
  truthy (normalize_name h) = true -> truthy h = true.
Proof. destruct h; [discriminate | reflexivity]. Qed.

(** A resolved column belongs to the header, and when every candidate
    has a non-empty normalized form the column name is non-empty. *)
Lemma find_column_some (columns candidates : list string) (h : string) :
  find_column columns candidates = Some h ->
  In h columns /\
  (Forall (fun c => truthy (normalize_name c) = true) candidates -> truthy h = true).
Proof.
  rewrite find_column_lists. unfold find_column_on_lists.
  destruct (exact_pass columns candidates) as [h'|] eqn:E.
  - intros [= ->]. induction candidates as [|c rest IH]; [discriminate|].
    simpl in E.
    destruct (last_with_norm columns (normalize_name c)) as [h1|] eqn:L.
    + injection E as ->. apply last_with_norm_some in L. destruct L as [Hin Hn].
      split; [exact Hin|]. intros F. inversion F; subst.
      apply truthy_of_normalized. rewrite Hn. assumption.
    + destruct (IH E) as [Hin Ht]. split; [exact Hin|].
      intros F. inversion F; subst. auto.
  - clear E. induction candidates as [|c rest IH]; [discriminate|].
    simpl. unfold substring_hit at 1.
    destruct (truthy (normalize_name c)) eqn:Tc.
    + destruct (find (fun h0 => str_in (normalize_name c) (normalize_name h0)) columns)
        as [h0|] eqn:F0.
      * destruct (last_with_norm columns (normalize_name h0)) as [h1|] eqn:L.
        -- intros [= ->]. apply last_with_norm_some in L. destruct L as [Hin Hn].
           split; [exact Hin|]. intros _.
           apply find_some in F0. destruct F0 as [_ S0]. rewrite <- Hn in S0.
           apply truthy_of_normalized.
           destruct (normalize_name h) eqn:Nh; [|reflexivity].
           apply str_in_empty_hay in S0. rewrite S0 in Tc. discriminate.
        -- intros H. destruct (IH H) as [Hin Ht]. split; [exact Hin|].
           intros F. inversion F; subst. auto.
      * intros H. destruct (IH H) as [Hin Ht]. split; [exact Hin|].
        intros F. inversion F; subst. auto.
    + intros H. destruct (IH H) as [Hin Ht]. split; [exact Hin|].
      intros F. inversion F; subst. auto.
Qed.

Lemma standard_columns_truthy (columns : list string) :
  let sc := detect_standard_columns columns in
  (forall d, sc_depth sc = Some d -> truthy d = true) /\
  (forall c, sc_rop sc = Some c -> truthy c = true) /\
  (forall v, sc_vibration sc = Some v -> truthy v = true) /\
  (forall t, sc_time sc = Some t -> truthy t = true).
Proof.
  simpl. repeat split; intros h H; apply find_column_some in H;
    destruct H as [_ H]; apply H; repeat constructor.
Qed.

(* ================================================================== *)
(** * The fit score                                                     *)
(* ================================================================== *)

(** The score before the clamp, computed from the fields of a record. *)
Lemma fit_score_assemble (name : string) (file_size : Z) (columns : list string)
    (sc : StandardColumns) (vr : option (Q * Q)) (st : LoopState)
    (mness : dict Missingness) (nsum : dict Summary) (dup : DuplicateSample)
    (pct : Q) :
  let r := assemble name file_size columns sc vr st mness nsum dup pct in
  fit_score r =
  clamp_score
    (fst (score_rules (standard_columns r)
            (rate_of (sc_depth (standard_columns r)) (missingness r))
            (rate_of (sc_rop (standard_columns r)) (missingness r))
            (rate_of (sc_vibration (standard_columns r)) (missingness r))
            (time_non_null_rate (time r))
            (fully_empty_row_pct r)
            (negative_count (depth r)))).
Proof.
  unfold assemble.
  destruct (score_rules sc (rate_of (sc_depth sc) mness) (rate_of (sc_rop sc) mness)
              (rate_of (sc_vibration sc) mness) (rate_of (sc_time sc) mness) pct
              (depth_negative st)) as [raw notes] eqn:E.
  simpl. rewrite E. reflexivity.
Qed.

Ltac split_ifs :=
  repeat match goal with
         | |- context [if ?b then _ else _] => destruct b
         end.

(** The rules of one field group exclude each other, so the positive
    contributions add up to at most 30 + 20 + 20 + 10. *)
Lemma score_rules_range (sc : StandardColumns)
    (depth_rate rop_rate vib_rate time_rate pct : Q) (depth_negative : Z) :
  -20 <= fst (score_rules sc depth_rate rop_rate vib_rate time_rate pct depth_negative)
      <= 80.
Proof.
  unfold score_rules. split_ifs; simpl; lia.
Qed.

Lemma clamp_score_range (raw : Z) : 0 <= clamp_score raw <= 100.
Proof. unfold clamp_score. lia. Qed.

(** C2: every readable data set is analysed to a record whose fit score
    is an integer between 0 and 100, namely the clamp of the score that
    the rules, applied in their fixed order, add up to. *)
Theorem fit_score_clamped (fs : FS) (name : string) (file : File) (ds : Dataset)
    (w : World) :
  fs name = Some file -> f_content file = Some ds ->
  exists r w',
    analyze_dataset fs name w = (OK r, w') /\
    0 <= fit_score r <= 100 /\
    fit_score r =
    Z.max 0 (Z.min 100
      (fst (score_rules (standard_columns r)
              (rate_of (sc_depth (standard_columns r)) (missingness r))
              (rate_of (sc_rop (standard_columns r)) (missingness r))
              (rate_of (sc_vibration (standard_columns r)) (missingness r))
              (time_non_null_rate (time r))
              (fully_empty_row_pct r)
              (negative_count (depth r))))).
Proof.
  intros Hfile Hds.
  destruct (analyze_dataset_runs fs name file ds w Hfile Hds)
    as (st & mness & nsum & dup & pct & w' & E & _).
  eexists; eexists. split; [exact E|].
  rewrite fit_score_assemble. split; [apply clamp_score_range | reflexivity].
Qed.

Lemma fit_score_clamped_witness :
  demo_fs "volve_drilling_best.csv" = Some (mkFile 1024 (Some demo_dataset)) /\
  f_content (mkFile 1024 (Some demo_dataset)) = Some demo_dataset /\
  exists r w',
    analyze_dataset demo_fs "volve_drilling_best.csv" empty_world = (OK r, w') /\
    0 <= fit_score r <= 100.
Proof.
  split; [reflexivity|]. split; [reflexivity|].
  destruct (fit_score_clamped demo_fs "volve_drilling_best.csv"
              (mkFile 1024 (Some demo_dataset)) demo_dataset empty_world
              eq_refl eq_refl) as (r & w' & E & B & _).
  exists r, w'. split; assumption.
Defined.

(** C10: every readable data set is analysed to a record whose fit score
    is at most 80: the rules add up to at most 80 before the clamp, so
    the upper bound 100 of the clamp never applies. *)
Theorem fit_score_at_most_80 (fs : FS) (name : string) (file : File) (ds : Dataset)
    (w : World) :
  fs name = Some file -> f_content file = Some ds ->
  exists r w' raw,
    analyze_dataset fs name w = (OK r, w') /\
    raw = fst (score_rules (standard_columns r)
                 (rate_of (sc_depth (standard_columns r)) (missingness r))
                 (rate_of (sc_rop (standard_columns r)) (missingness r))
                 (rate_of (sc_vibration (standard_columns r)) (missingness r))
                 (time_non_null_rate (time r))
                 (fully_empty_row_pct r)
                 (negative_count (depth r))) /\
    raw <= 80 /\
    Z.min 100 raw = raw /\
    fit_score r = Z.max 0 raw /\
    fit_score r <= 80.
Proof.
  intros Hfile Hds.
  destruct (analyze_dataset_runs fs name file ds w Hfile Hds)
    as (st & mness & nsum & dup & pct & w' & E & _).
  eexists; eexists; eexists. split; [exact E|]. split; [reflexivity|].
  rewrite fit_score_assemble. unfold clamp_score.
  match goal with |- ?x <= 80 /\ _ => set (raw := x) end.
  assert (R : -20 <= raw <= 80) by apply score_rules_range.
  repeat split; lia.
Qed.

Lemma fit_score_at_most_80_witness :
  demo_fs "volve_drilling_best.csv" = Some (mkFile 1024 (Some demo_dataset)) /\
  f_content (mkFile 1024 (Some demo_dataset)) = Some demo_dataset /\
  exists r w',
    analyze_dataset demo_fs "volve_drilling_best.csv" empty_world = (OK r, w') /\
    fit_score r <= 80.
Proof.
  split; [reflexivity|]. split; [reflexivity|].
  destruct (fit_score_at_most_80 demo_fs "volve_drilling_best.csv"
              (mkFile 1024 (Some demo_dataset)) demo_dataset empty_world
              eq_refl eq_refl) as (r & w' & raw & E & _ & _ & _ & _ & B).
  exists r, w'. split; assumption.
Defined.

(* ================================================================== *)
(** * Missingness, the empty data set and the full data set             *)
(* ================================================================== *)

Lemma assemble_fields (name : string) (file_size : Z) (header : list string)
    (sc : StandardColumns) (vr : option (Q * Q)) (st : LoopState)
    (mness : dict Missingness) (nsum : dict Summary) (dup : DuplicateSample)
    (pct : Q) :
  let r := assemble name file_size header sc vr st mness nsum dup pct in
  rows r = row_count st /\
  columns r = header /\
  missingness r = mness /\
  numeric_stats r = nsum /\
  fully_empty_rows r = fully_empty st /\
  fully_empty_row_pct r = pct /\
  duplicate_sample r = dup /\
  standard_columns r = sc /\
  depth_column (depth r) = sc_depth sc /\
  negative_count (depth r) = depth_negative st /\
  time_non_null_rate (time r) = rate_of (sc_time sc) mness.
Proof.
  unfold assemble.
  destruct (score_rules sc (rate_of (sc_depth sc) mness) (rate_of (sc_rop sc) mness)
              (rate_of (sc_vibration sc) mness) (rate_of (sc_time sc) mness) pct
              (depth_negative st)) as [raw notes].
  simpl. repeat split; reflexivity.
Qed.

Lemma missing_entry_rates (total m : Z) :
  let e := missing_entry total m in
  (0 < total -> (missing_rate e + non_null_rate e == 1)%Q) /\
  (total = 0 -> missing_rate e = 0%Q /\ non_null_rate e = 0%Q).
Proof.
  simpl. split.
  - intros Hpos. destruct (total =? 0) eqn:E; [apply Z.eqb_eq in E; lia|].
    unfold Zminus. rewrite inject_Z_plus, inject_Z_opp.
    assert (0 < inject_Z total)%Q.
    { change 0%Q with (inject_Z 0). rewrite <- Zlt_Qlt. exact Hpos. }
    field. lra.
  - intros ->. simpl. split; reflexivity.
Qed.

(** C7: every readable data set is analysed to a record in which each
    column of the header has a missingness entry whose two rates add up
    to 1 when the data set has rows, and are both 0.0 when it has none. *)
Theorem missingness_rates_identity (fs : FS) (name : string) (file : File)
    (ds : Dataset) (w : World) :
  fs name = Some file -> f_content file = Some ds ->
  exists r w',
    analyze_dataset fs name w = (OK r, w') /\
    columns r = ds_header ds /\
    rows r = len (List.concat (ds_chunks ds)) /\
    forall col, In col (columns r) ->
      exists e,
        dict_get col (missingness r) = Some e /\
        (0 < rows r -> (missing_rate e + non_null_rate e == 1)%Q) /\
        (rows r = 0 -> missing_rate e = 0%Q /\ non_null_rate e = 0%Q).
Proof.
  intros Hfile Hds.
  destruct (analyze_dataset_runs fs name file ds w Hfile Hds)
    as (st & mness & nsum & dup & pct & w' & E & Inv & T & _).
  eexists; eexists. split; [exact E|].
  destruct (assemble_fields name (f_size file) (ds_header ds)
              (detect_standard_columns (ds_header ds))
              (expect_vibration_range
                 (sc_vibration (detect_standard_columns (ds_header ds))))
              st mness nsum dup pct) as (Hrows & Hcols & Hm & _).
  rewrite Hrows, Hcols, Hm.
  split; [reflexivity|]. split; [apply (inv_rows _ _ _ _ Inv)|].
  intros col Hin.
  pose proof (tbl_missing_keys _ _ _ _ _ _ _ T col Hin) as K.
  destruct (dict_get col mness) as [e|] eqn:G; [|congruence].
  destruct (tbl_missing_entries _ _ _ _ _ _ _ T col e G) as (m & ->).
  exists (missing_entry (row_count st) m). split; [reflexivity|].
  apply missing_entry_rates.
Qed.

Lemma missingness_rates_identity_witness :
  demo_fs "volve_drilling_best.csv" = Some (mkFile 1024 (Some demo_dataset)) /\
  f_content (mkFile 1024 (Some demo_dataset)) = Some demo_dataset /\
  exists r w',
    analyze_dataset demo_fs "volve_drilling_best.csv" empty_world = (OK r, w') /\
    rows r = 4 /\
    exists e, dict_get "note" (missingness r) = Some e /\
              (missing_rate e + non_null_rate e == 1)%Q.
Proof.
  split; [reflexivity|]. split; [reflexivity|].
  destruct (missingness_rates_identity demo_fs "volve_drilling_best.csv"
              (mkFile 1024 (Some demo_dataset)) demo_dataset empty_world
              eq_refl eq_refl) as (r & w' & E & Hc & Hr & H).
  exists r, w'. split; [exact E|]. split; [exact Hr|].
  destruct (H "note") as (e & G & Hsum & _).
  - rewrite Hc. simpl. tauto.
  - exists e. split; [exact G|]. apply Hsum. rewrite Hr. reflexivity.
Defined.

Lemma rate_of_zero (col : option string) (mness : dict Missingness) :
  (forall c e, dict_get c mness = Some e -> non_null_rate e = 0%Q) ->
  rate_of col mness = 0%Q.
Proof.
  intros H. unfold rate_of, get_if.
  destruct col as [c|]; [|reflexivity].
  destruct (truthy c); [|reflexivity].
  destruct (dict_get c mness) as [e|] eqn:G; [|reflexivity].
  exact (H c e G).
Qed.

Lemma score_rules_no_rows (sc : StandardColumns) :
  fst (score_rules sc 0 0 0 0 0 0) = 0.
Proof.
  unfold score_rules.
  change (Qltb (9 # 10) 0) with false. change (Qltb (7 # 10) 0) with false.
  change (Qltb (4 # 10) 0) with false. change (Qltb (5 # 10) 0) with false.
  rewrite !andb_false_r. reflexivity.
Qed.

(** C9: a readable data set with a header and no data row is analysed,
    without any exception (so without a division by zero), to a record
    with zero rows, both rates 0.0 for every column, an empty numeric
    summary, fully-empty-row rate 0.0, duplicate rate 0.0 and fit
    score 0. *)
Theorem header_only_record (fs : FS) (name : string) (file : File)
    (ds : Dataset) (w : World) :
  fs name = Some file -> f_content file = Some ds ->
  List.concat (ds_chunks ds) = [] ->
  exists r w',
    analyze_dataset fs name w = (OK r, w') /\
    rows r = 0 /\
    (forall col, In col (ds_header ds) ->
       exists e, dict_get col (missingness r) = Some e /\
                 missing_rate e = 0%Q /\ non_null_rate e = 0%Q) /\
    numeric_stats r = [] /\
    fully_empty_row_pct r = 0%Q /\
    duplicate_rate (duplicate_sample r) = 0%Q /\
    fit_score r = 0.
Proof.
  intros Hfile Hds Hempty.
  destruct (analyze_dataset_runs fs name file ds w Hfile Hds)
    as (st & mness & nsum & dup & pct & w' & E & Inv & T & _).
  rewrite Hempty in Inv, T.
  eexists; eexists. split; [exact E|].
  rewrite fit_score_assemble.
  destruct (assemble_fields name (f_size file) (ds_header ds)
              (detect_standard_columns (ds_header ds))
              (expect_vibration_range
                 (sc_vibration (detect_standard_columns (ds_header ds))))
              st mness nsum dup pct)
    as (Hrows & _ & Hm & Hn & _ & Hp & Hd & Hsc & _ & Hneg & Htime).
  rewrite Hrows, Hm, Hn, Hp, Hd, Hsc, Hneg, Htime.
  assert (R0 : row_count st = 0) by (rewrite (inv_rows _ _ _ _ Inv); reflexivity).
  assert (Hpct : pct = 0%Q).
  { rewrite (tbl_pct _ _ _ _ _ _ _ T), R0. reflexivity. }
  assert (Hentries : forall c e, dict_get c mness = Some e ->
                                 missing_rate e = 0%Q /\ non_null_rate e = 0%Q).
  { intros c e G.
    destruct (tbl_missing_entries _ _ _ _ _ _ _ T c e G) as (m & ->).
    rewrite R0. split; reflexivity. }
  assert (Hneg0 : depth_negative st = 0).
  { pose proof (inv_depth _ _ _ _ Inv) as B. unfold len in B. simpl in B. lia. }
  split; [exact R0|]. split; [|split; [|split; [|split]]].
  - intros col Hin.
    pose proof (tbl_missing_keys _ _ _ _ _ _ _ T col Hin) as K.
    destruct (dict_get col mness) as [e|] eqn:G; [|congruence].
    exists e. split; [reflexivity|]. exact (Hentries col e G).
  - apply (tbl_summary _ _ _ _ _ _ _ T). reflexivity.
  - exact Hpct.
  - rewrite (tbl_duplicate_rate _ _ _ _ _ _ _ T).
    rewrite (inv_sample _ _ _ _ Inv), firstn_nil. reflexivity.
  - rewrite !rate_of_zero by (intros c e G; apply (Hentries c e G)).
    rewrite Hpct, Hneg0, score_rules_no_rows. reflexivity.
Qed.

Lemma header_only_record_witness :
  header_only_fs "volve_drilling_best.csv"
    = Some (mkFile 32 (Some header_only_dataset)) /\
  f_content (mkFile 32 (Some header_only_dataset)) = Some header_only_dataset /\
  List.concat (ds_chunks header_only_dataset) = [] /\
  exists r w',
    analyze_dataset header_only_fs "volve_drilling_best.csv" empty_world = (OK r, w') /\
    rows r = 0 /\ numeric_stats r = [] /\ fit_score r = 0.
Proof.
  split; [reflexivity|]. split; [reflexivity|]. split; [reflexivity|].
  destruct (header_only_record header_only_fs "volve_drilling_best.csv"
              (mkFile 32 (Some header_only_dataset)) header_only_dataset empty_world
              eq_refl eq_refl eq_refl) as (r & w' & E & R0 & _ & N & _ & _ & F).
  exists r, w'. repeat split; assumption.
Defined.

Lemma rate_of_resolved (c : string) (mness : dict Missingness) (e : Missingness) :
  truthy c = true -> dict_get c mness = Some e ->
  rate_of (Some c) mness = non_null_rate e.
Proof. intros Tc G. unfold rate_of, get_if. rewrite Tc, G. reflexivity. Qed.

Lemma score_rules_full (sc : StandardColumns)
    (depth_rate rop_rate vib_rate time_rate pct : Q) :
  otruthy (sc_depth sc) = true -> otruthy (sc_rop sc) = true ->
  otruthy (sc_vibration sc) = true -> otruthy (sc_time sc) = true ->
  Qltb (9 # 10) depth_rate = true -> Qltb (7 # 10) rop_rate = true ->
  Qltb (7 # 10) vib_rate = true -> Qltb (5 # 10) time_rate = true ->
  Qltb (1 # 10) pct = false ->
  fst (score_rules sc depth_rate rop_rate vib_rate time_rate pct 0) = 30 + 20 + 20 + 10.
Proof.
  intros Td Tr Tv Tt Hd Hr Hv Ht Hp. unfold score_rules.
  rewrite Td, Tr, Tv, Tt, Hd, Hr, Hv, Ht, Hp. reflexivity.
Qed.

(** C8: a readable data set is analysed to a record such that, when the
    depth, rate-of-penetration, vibration and time columns all resolve
    and each has non-null rate 1.0, no row is fully empty and no depth
    is negative, the fit score is exactly 80 = 30 + 20 + 20 + 10. *)
Theorem full_coverage_scores_80 (fs : FS) (name : string) (file : File)
    (ds : Dataset) (w : World) :
  fs name = Some file -> f_content file = Some ds ->
  exists r w',
    analyze_dataset fs name w = (OK r, w') /\
    forall (d c v t : string) (ed ec ev et : Missingness),
      sc_depth (standard_columns r) = Some d ->
      sc_rop (standard_columns r) = Some c ->
      sc_vibration (standard_columns r) = Some v ->
      sc_time (standard_columns r) = Some t ->
      dict_get d (missingness r) = Some ed -> (non_null_rate ed == 1)%Q ->
      dict_get c (missingness r) = Some ec -> (non_null_rate ec == 1)%Q ->
      dict_get v (missingness r) = Some ev -> (non_null_rate ev == 1)%Q ->
      dict_get t (missingness r) = Some et -> (non_null_rate et == 1)%Q ->
      fully_empty_rows r = 0 ->
      negative_count (depth r) = 0 ->
      fit_score r = 80.
Proof.
  intros Hfile Hds.
  destruct (analyze_dataset_runs fs name file ds w Hfile Hds)
    as (st & mness & nsum & dup & pct & w' & E & Inv & T & _).
  eexists; eexists. split; [exact E|].
  rewrite fit_score_assemble.
  destruct (assemble_fields name (f_size file) (ds_header ds)
              (detect_standard_columns (ds_header ds))
              (expect_vibration_range
                 (sc_vibration (detect_standard_columns (ds_header ds))))
              st mness nsum dup pct)
    as (_ & _ & Hm & _ & Hfe & Hp & _ & Hsc & _ & Hneg & Htime).
  rewrite Hm, Hfe, Hp, Hsc, Hneg, Htime.
  intros d c v t ed ec ev et Sd Sc Sv St Gd Rd Gc Rc Gv Rv Gt Rt Hempty Hdepth.
  destruct (standard_columns_truthy (ds_header ds)) as (Td & Tc & Tv & Tt).
  specialize (Td d Sd). specialize (Tc c Sc).
  specialize (Tv v Sv). specialize (Tt t St).
  rewrite Hdepth.
  assert (Hpct : (pct == 0)%Q).
  { rewrite (tbl_pct _ _ _ _ _ _ _ T), Hempty.
    destruct (row_count st =? 0); [reflexivity|].
    unfold Qdiv. change (inject_Z 0) with 0%Q. ring. }
  rewrite score_rules_full; try reflexivity.
  - rewrite Sd. exact Td.
  - rewrite Sc. exact Tc.
  - rewrite Sv. exact Tv.
  - rewrite St. exact Tt.
  - rewrite Sd, (rate_of_resolved d mness ed Td Gd). apply Qltb_true. lra.
  - rewrite Sc, (rate_of_resolved c mness ec Tc Gc). apply Qltb_true. lra.
  - rewrite Sv, (rate_of_resolved v mness ev Tv Gv). apply Qltb_true. lra.
  - rewrite St, (rate_of_resolved t mness et Tt Gt). apply Qltb_true. lra.
  - apply Qltb_false. lra.
Qed.

Lemma full_coverage_scores_80_witness :
  demo_fs "volve_drilling_best.csv" = Some (mkFile 1024 (Some demo_dataset)) /\
  f_content (mkFile 1024 (Some demo_dataset)) = Some demo_dataset /\
  exists r w',
    analyze_dataset demo_fs "volve_drilling_best.csv" empty_world = (OK r, w') /\
    sc_depth (standard_columns r) = Some "DEPTH" /\
    sc_rop (standard_columns r) = Some "ROP" /\
    sc_vibration (standard_columns r) = Some "VIBRATION_0_5" /\
    sc_time (standard_columns r) = Some "TIME" /\
    rate_of (Some "DEPTH") (missingness r) = (4 # 4)%Q /\
    rate_of (Some "ROP") (missingness r) = (4 # 4)%Q /\
    rate_of (Some "VIBRATION_0_5") (missingness r) = (4 # 4)%Q /\
    rate_of (Some "TIME") (missingness r) = (4 # 4)%Q /\
    fully_empty_rows r = 0 /\
    negative_count (depth r) = 0 /\
    fit_score r = 80.
Proof.
  split; [reflexivity|]. split; [reflexivity|].
  destruct (full_coverage_scores_80 demo_fs "volve_drilling_best.csv"
              (mkFile 1024 (Some demo_dataset)) demo_dataset empty_world
              eq_refl eq_refl) as (r & w' & E & H).
  exists r, w'. split; [exact E|].
  vm_compute in E. injection E as <- _.
  repeat (split; [reflexivity|]).
  eapply (H "DEPTH" "ROP" "VIBRATION_0_5" "TIME");
    first [reflexivity | vm_compute; reflexivity].
Defined.

(* ================================================================== *)
(** * The duplicate sample                                              *)
(* ================================================================== *)

Lemma firstn_min_len {A} (cap : Z) (l : list A) :
  firstn (Z.to_nat cap) l = firstn (Z.to_nat (Z.min cap (len l))) l.
Proof.
  destruct (Z.le_ge_cases cap (len l)) as [H|H].
  - rewrite Z.min_l by exact H. reflexivity.
  - rewrite Z.min_r by exact H.
    rewrite !firstn_all2; [reflexivity | unfold len in *; lia | unfold len in *; lia].
Qed.

(** C6: for every cap and every sequence of chunks, the loop reaches a
    state whose retained sample is exactly the first min(cap, rows seen)
    rows in arrival order and is never longer than the cap; and for a
    readable data set the record's duplicate sample (cap 200,000) has
    [sample_rows] equal to the sample size, [duplicate_rows] equal to the
    number of sample rows that repeat an earlier sample row, and
    [duplicate_rate] equal to their quotient, 0.0 for an empty sample. *)
Theorem duplicate_sample_prefix :
  (forall (name : string) (cap : Z) (columns : list string) (sc : StandardColumns)
          (vr : option (Q * Q)) (chunks : list Chunk) (index : Z) (w : World),
      exists st w',
        chunk_loop name columns sc vr index chunks (init_state cap columns) w
          = (OK st, w') /\
        List.concat (sample_frames st)
          = firstn (Z.to_nat (Z.min cap (len (List.concat chunks))))
                   (List.concat chunks) /\
        (0 <= cap -> len (List.concat (sample_frames st)) <= cap)) /\
  DUPLICATE_SAMPLE_ROWS = 200000 /\
  (forall (fs : FS) (name : string) (file : File) (ds : Dataset) (w : World),
      fs name = Some file -> f_content file = Some ds ->
      exists r w',
        analyze_dataset fs name w = (OK r, w') /\
        let all_rows := List.concat (ds_chunks ds) in
        let sample :=
          firstn (Z.to_nat (Z.min DUPLICATE_SAMPLE_ROWS (len all_rows))) all_rows in
        let result := duplicate_sample r in
        sample_rows result = len sample /\
        duplicate_rows result = count_repeats (List.length (ds_header ds)) sample /\
        (sample = [] -> duplicate_rate result = 0%Q) /\
        (sample <> [] ->
         (duplicate_rate result
          == inject_Z (duplicate_rows result) / inject_Z (sample_rows result))%Q)).
Proof.
  split; [|split; [reflexivity|]].
  - intros name cap columns sc vr chunks index w.
    destruct (chunk_loop_ok name cap columns sc vr chunks index []
                (init_state cap columns) w (loop_inv_init cap columns))
      as (st & w' & E & Inv & _).
    simpl app in Inv. exists st, w'. split; [exact E|].
    rewrite (inv_sample _ _ _ _ Inv). split; [apply firstn_min_len|].
    intros Hcap. rewrite len_firstn. lia.
  - intros fs name file ds w Hfile Hds.
    destruct (analyze_dataset_runs fs name file ds w Hfile Hds)
      as (st & mness & nsum & dup & pct & w' & E & Inv & T & _).
    eexists; eexists. split; [exact E|].
    destruct (assemble_fields name (f_size file) (ds_header ds)
                (detect_standard_columns (ds_header ds))
                (expect_vibration_range
                   (sc_vibration (detect_standard_columns (ds_header ds))))
                st mness nsum dup pct)
      as (_ & _ & _ & _ & _ & _ & Hd & _).
    cbv zeta. rewrite Hd.
    rewrite (tbl_sample_rows _ _ _ _ _ _ _ T), (tbl_duplicate_rows _ _ _ _ _ _ _ T),
      (tbl_duplicate_rate _ _ _ _ _ _ _ T).
    rewrite (inv_sample _ _ _ _ Inv), <- firstn_min_len.
    set (sample := firstn (Z.to_nat DUPLICATE_SAMPLE_ROWS) (List.concat (ds_chunks ds))).
    split; [reflexivity|]. split; [reflexivity|]. split.
    + intros ->. reflexivity.
    + intros Hne. apply len_pos in Hne.
      destruct (len sample =? 0) eqn:Z0; [apply Z.eqb_eq in Z0; lia | reflexivity].
Qed.

Lemma duplicate_sample_prefix_witness :
  demo_fs "volve_drilling_best.csv" = Some (mkFile 1024 (Some demo_dataset)) /\
  f_content (mkFile 1024 (Some demo_dataset)) = Some demo_dataset /\
  exists r w',
    analyze_dataset demo_fs "volve_drilling_best.csv" empty_world = (OK r, w') /\
    sample_rows (duplicate_sample r) = 4 /\
    duplicate_rows (duplicate_sample r) = 1 /\
    (duplicate_rate (duplicate_sample r) == 1 # 4)%Q.
Proof.
  split; [reflexivity|]. split; [reflexivity|].
  destruct duplicate_sample_prefix as (_ & _ & H).
  destruct (H demo_fs "volve_drilling_best.csv"
              (mkFile 1024 (Some demo_dataset)) demo_dataset empty_world
              eq_refl eq_refl) as (r & w' & E & Hrows & Hdups & _ & Hrate).
  exists r, w'. split; [exact E|].
  assert (Hs : firstn (Z.to_nat (Z.min DUPLICATE_SAMPLE_ROWS
                                   (len (List.concat (ds_chunks demo_dataset)))))
                 (List.concat (ds_chunks demo_dataset))
               = List.concat (ds_chunks demo_dataset)) by reflexivity.
  rewrite Hs in Hrows, Hdups, Hrate.
  split; [exact Hrows|]. split; [exact Hdups|].
  rewrite Hrate by discriminate. rewrite Hrows, Hdups. reflexivity.
Defined.

(* ================================================================== *)
(** * The batch driver                                                  *)
(* ================================================================== *)

Lemma ibind_ok {A B} (m : IO A) (k : A -> IO B) (w w1 : World) (a : A) :
  m w = (OK a, w1) -> ibind m k w = k a w1.
Proof. intros E. unfold ibind. rewrite E. reflexivity. Qed.

Lemma ibind_raise {A B} (m : IO A) (k : A -> IO B) (w w1 : World) (e : PyExc) :
  m w = (Raise e, w1) -> ibind m k w = (Raise e, w1).
Proof. intros E. unfold ibind. rewrite E. reflexivity. Qed.

Lemma file_exists_false (fs : FS) (name : string) :
  file_exists fs name = false <-> fs name = None.
Proof.
  unfold file_exists. destruct (fs name); split; intros H; congruence.
Qed.

(** [discover_datasets] keeps the existing files in order and prints one
    line for every missing one. *)
Lemma discover_from_ok (fs : FS) (names : list string) :
  forall (paths : list string) (w : World),
  exists w',
    discover_from fs names paths w = (OK (paths ++ filter (file_exists fs) names), w') /\
    only_logs w w' /\
    (forall name, In name names -> fs name = None -> In (LogNotFound name) (w_log w')).
Proof.
  induction names as [|name rest IH]; intros paths w; simpl.
  - exists w. rewrite app_nil_r. split; [reflexivity|].
    split; [apply only_logs_refl | contradiction].
  - destruct (file_exists fs name) eqn:Ex.
    + destruct (IH (paths ++ [name]) w) as (w' & E & L & Hlog).
      exists w'. rewrite E, <- app_assoc. split; [reflexivity|].
      split; [exact L|].
      intros n [<-|Hin] Hn; [|auto].
      apply file_exists_false in Hn. congruence.
    + rewrite (ibind_ok _ _ w (snd (log (LogNotFound name) w)) tt eq_refl).
      destruct (IH paths (snd (log (LogNotFound name) w))) as (w' & E & L & Hlog).
      exists w'. split; [exact E|].
      split; [eapply only_logs_trans; [apply only_logs_log | exact L]|].
      intros n [<-|Hin] Hn; [|auto].
      apply (only_logs_in _ _ _ L). simpl. apply in_or_app. right. left. reflexivity.
Qed.

Lemma path_assemble (name : string) (file_size : Z) (header : list string)
    (sc : StandardColumns) (vr : option (Q * Q)) (st : LoopState)
    (mness : dict Missingness) (nsum : dict Summary) (dup : DuplicateSample)
    (pct : Q) :
  path (assemble name file_size header sc vr st mness nsum dup pct)
  = ("data/volve_logs/" ++ name)%string.
Proof.
  unfold assemble.
  destruct (score_rules sc (rate_of (sc_depth sc) mness) (rate_of (sc_rop sc) mness)
              (rate_of (sc_vibration sc) mness) (rate_of (sc_time sc) mness) pct
              (depth_negative st)).
  reflexivity.
Qed.

Lemma analyze_one_ok (fs : FS) (name : string) (w : World) :
  readable fs name ->
  exists r w', analyze_one fs name w = (OK r, w') /\ only_logs w w' /\ record_of fs name r.
Proof.
  intros (file & ds & Hfile & Hds). unfold analyze_one.
  set (role := if String.eqb name PRIMARY_DATASET_NAME then "primary" else "upstream").
  rewrite (ibind_ok _ _ w (snd (log (LogAnalyzing name role) w)) tt eq_refl).
  destruct (analyze_dataset_runs fs name file ds
              (snd (log (LogAnalyzing name role) w)) Hfile Hds)
    as (st & mness & nsum & dup & pct & w' & E & _ & _ & L).
  eexists; exists w'. split; [exact E|]. split.
  - eapply only_logs_trans; [apply only_logs_log | exact L].
  - split; [apply path_assemble | eauto].
Qed.

(** An existing file that cannot be read makes [analyze_dataset] raise. *)
Lemma analyze_one_unreadable (fs : FS) (name : string) (file : File) (w : World) :
  fs name = Some file -> f_content file = None ->
  exists w', analyze_one fs name w = (Raise (ReadError name), w') /\ only_logs w w'.
Proof.
  intros Hfile Hnone. unfold analyze_one.
  set (role := if String.eqb name PRIMARY_DATASET_NAME then "primary" else "upstream").
  rewrite (ibind_ok _ _ w (snd (log (LogAnalyzing name role) w)) tt eq_refl).
  set (w1 := snd (log (LogAnalyzing name role) w)).
  assert (L1 : only_logs w w1) by apply only_logs_log.
  unfold analyze_dataset, ibind at 1, lift, stat_file. rewrite Hfile.
  unfold ibind at 1.
  destruct (LARGE_FILE_BYTES <? f_size file).
  - simpl. unfold ibind, read_csv. rewrite Hnone. eexists. split; [reflexivity|].
    eapply only_logs_trans; [exact L1|].
    apply (only_logs_log (LogLargeFile (f_size file)) w1).
  - simpl. unfold ibind, read_csv. rewrite Hnone. eexists. split; [reflexivity|].
    exact L1.
Qed.

Lemma analyze_all_ok (fs : FS) (names : list string) :
  Forall (readable fs) names ->
  forall w : World,
  exists recs w',
    io_map (analyze_one fs) names w = (OK recs, w') /\
    only_logs w w' /\
    Forall2 (record_of fs) names recs.
Proof.
  induction 1 as [|name rest Hname Hrest IH]; intros w; simpl.
  - exists [], w. split; [reflexivity|]. split; [apply only_logs_refl | constructor].
  - destruct (analyze_one_ok fs name w Hname) as (r & w1 & E1 & L1 & R1).
    rewrite (ibind_ok _ _ _ _ _ E1).
    destruct (IH w1) as (recs & w2 & E2 & L2 & R2).
    rewrite (ibind_ok _ _ _ _ _ E2).
    exists (r :: recs), w2. split; [reflexivity|].
    split; [eapply only_logs_trans; eassumption | constructor; assumption].
Qed.

(** The first unreadable file stops the loop over the data sets. *)
Lemma analyze_all_aborts (fs : FS) (pre : list string) (name : string)
    (post : list string) (file : File) :
  Forall (readable fs) pre ->
  fs name = Some file -> f_content file = None ->
  forall w : World,
  exists w',
    io_map (analyze_one fs) (pre ++ name :: post) w = (Raise (ReadError name), w') /\
    only_logs w w'.
Proof.
  intros Hpre Hfile Hnone.
  induction Hpre as [|p pre Hp Hpre IH]; intros w; simpl.
  - destruct (analyze_one_unreadable fs name file w Hfile Hnone) as (w' & E & L).
    rewrite (ibind_raise _ _ _ _ _ E). eauto.
  - destruct (analyze_one_ok fs p w Hp) as (r & w1 & E1 & L1 & _).
    rewrite (ibind_ok _ _ _ _ _ E1).
    destruct (IH w1) as (w2 & E2 & L2).
    rewrite (ibind_raise _ _ _ _ _ E2).
    exists w2. split; [reflexivity | eapply only_logs_trans; eassumption].
Qed.

(** [main] up to the loop over the discovered data sets. *)
Lemma main_reaches_loop (fs : FS) (w : World) :
  exists w3,
    only_logs w w3 /\
    (forall name, In name dataset_candidates -> fs name = None ->
                  In (LogNotFound name) (w_log w3)) /\
    main fs w =
    try_log
      (match existing_datasets fs with
       | [] => log LogNoDatasets
       | _ =>
           ibind (io_map (analyze_one fs) (existing_datasets fs)) (fun results =>
           ibind (write_output (mkReport results)) (fun _ => log LogWrote))
       end) w3.
Proof.
  set (w1 := snd (log LogStarting w)).
  set (w2 := snd (log (LogConfig CHUNK_SIZE DUPLICATE_SAMPLE_ROWS LARGE_FILE_BYTES) w1)).
  destruct (discover_from_ok fs dataset_candidates [] w2) as (wd & Ed & Ld & Hlog).
  rewrite app_nil_l in Ed. fold (existing_datasets fs) in Ed.
  set (w3 := if file_exists fs PRIMARY_DATASET_NAME then wd
             else snd (log LogPrimaryMissing wd)).
  assert (L3 : only_logs wd w3).
  { unfold w3. destruct (file_exists fs PRIMARY_DATASET_NAME);
      [apply only_logs_refl | apply only_logs_log]. }
  exists w3. split; [|split].
  - eapply only_logs_trans; [apply (only_logs_log LogStarting w)|].
    eapply only_logs_trans;
      [apply (only_logs_log
                (LogConfig CHUNK_SIZE DUPLICATE_SAMPLE_ROWS LARGE_FILE_BYTES) w1)|].
    eapply only_logs_trans; eassumption.
  - intros name Hin Hn. apply (only_logs_in _ _ _ L3). auto.
  - unfold main, try_log.
    rewrite (ibind_ok (log LogStarting) _ w w1 tt eq_refl).
    rewrite (ibind_ok
               (log (LogConfig CHUNK_SIZE DUPLICATE_SAMPLE_ROWS LARGE_FILE_BYTES))
               _ w1 w2 tt eq_refl).
    unfold discover_datasets. rewrite (ibind_ok _ _ _ _ _ Ed).
    assert (Estep : (if file_exists fs PRIMARY_DATASET_NAME then iret tt
                     else log LogPrimaryMissing) wd = (OK tt, w3)).
    { unfold w3. destruct (file_exists fs PRIMARY_DATASET_NAME); reflexivity. }
    rewrite (ibind_ok _ _ _ _ _ Estep). reflexivity.
Qed.

(** C3 (as worded, refuted): the primary file exists but cannot be read,
    [volve_drilling_best.csv] is readable, and [main] raises without
    writing any record. *)
Lemma main_aborts_on_unreadable_dataset :
  file_exists broken_primary_fs PRIMARY_DATASET_NAME = true /\
  fst (analyze_dataset broken_primary_fs PRIMARY_DATASET_NAME empty_world)
    = Raise (ReadError PRIMARY_DATASET_NAME) /\
  readable broken_primary_fs "volve_drilling_best.csv" /\
  fst (main broken_primary_fs empty_world) = Raise (ReadError PRIMARY_DATASET_NAME) /\
  w_output (snd (main broken_primary_fs empty_world)) = None.
Proof.
  split; [reflexivity|]. split; [reflexivity|]. split.
  - exists (mkFile 1024 (Some demo_dataset)), demo_dataset. split; reflexivity.
  - split; reflexivity.
Qed.

(** C3 (amended): a data set whose file does not exist is skipped with a
    diagnostic line and never aborts the batch: when every existing data
    set can be read, [main] returns normally, has printed a line for
    every missing file, and has written a report with one record per
    existing data set, in order (no report when none exists).  A data
    set that exists but cannot be opened or whose header cannot be read
    is not skipped: [main] prints the error and re-raises it, and no
    report is written. *)
Theorem main_skips_missing_datasets :
  (forall (fs : FS) (w : World),
      Forall (readable fs) (existing_datasets fs) ->
      exists w',
        main fs w = (OK tt, w') /\
        (forall name, In name dataset_candidates -> fs name = None ->
                      In (LogNotFound name) (w_log w')) /\
        match existing_datasets fs with
        | [] => w_output w' = w_output w
        | _ => exists recs,
                 w_output w' = Some (mkReport recs) /\
                 Forall2 (record_of fs) (existing_datasets fs) recs
        end) /\
  (forall (fs : FS) (w : World) (pre : list string) (name : string)
          (post : list string) (file : File),
      existing_datasets fs = pre ++ name :: post ->
      Forall (readable fs) pre ->
      fs name = Some file -> f_content file = None ->
      exists w',
        main fs w = (Raise (ReadError name), w') /\
        w_output w' = w_output w /\
        In (LogError (ReadError name)) (w_log w')).
Proof.
  split.
  - intros fs w Hall.
    destruct (main_reaches_loop fs w) as (w3 & (O3 & L3) & Hlog & ->).
    unfold try_log.
    destruct (existing_datasets fs) as [|n rest] eqn:Ex.
    + eexists. split; [reflexivity|]. simpl. split; [|exact O3].
      intros name Hin Hn. apply in_or_app. left. auto.
    + destruct (analyze_all_ok fs (n :: rest) Hall w3) as (recs & w4 & E4 & L4 & R4).
      rewrite (ibind_ok _ _ _ _ _ E4).
      rewrite (ibind_ok _ _ w4 (snd (write_output (mkReport recs) w4)) tt eq_refl).
      eexists. split; [reflexivity|]. simpl. split; [|eauto].
      intros name Hin Hn. apply in_or_app. left.
      apply (only_logs_in _ _ _ L4). auto.
  - intros fs w pre name post file Ex Hpre Hfile Hnone.
    destruct (main_reaches_loop fs w) as (w3 & L3 & _ & ->).
    unfold try_log. rewrite Ex.
    destruct (analyze_all_aborts fs pre name post file Hpre Hfile Hnone w3)
      as (w4 & E4 & L4).
    assert (Etail : match pre ++ name :: post with
                    | [] => log LogNoDatasets
                    | _ :: _ =>
                        ibind (io_map (analyze_one fs) (pre ++ name :: post))
                          (fun results =>
                             ibind (write_output (mkReport results))
                               (fun _ => log LogWrote))
                    end w3 = (Raise (ReadError name), w4)).
    { destruct (pre ++ name :: post) eqn:El.
      - destruct pre; discriminate.
      - apply ibind_raise. exact E4. }
    rewrite Etail. eexists. split; [reflexivity|]. simpl. split.
    + destruct L3 as (O3 & _). destruct L4 as (O4 & _). congruence.
    + apply in_or_app. right. left. reflexivity.
Qed.

Lemma main_skips_missing_datasets_witness :
  (Forall (readable demo_fs) (existing_datasets demo_fs) /\
   exists w',
     main demo_fs empty_world = (OK tt, w') /\
     In (LogNotFound PRIMARY_DATASET_NAME) (w_log w') /\
     exists recs,
       w_output w' = Some (mkReport recs) /\
       Forall2 (record_of demo_fs) ["volve_drilling_best.csv"] recs) /\
  (existing_datasets broken_primary_fs
     = [] ++ PRIMARY_DATASET_NAME :: ["volve_drilling_best.csv"] /\
   Forall (readable broken_primary_fs) [] /\
   broken_primary_fs PRIMARY_DATASET_NAME = Some (mkFile 0 None) /\
   f_content (mkFile 0 None) = None /\
   exists w',
     main broken_primary_fs empty_world
       = (Raise (ReadError PRIMARY_DATASET_NAME), w') /\
     w_output w' = None).
Proof.
  assert (Hdemo : Forall (readable demo_fs) (existing_datasets demo_fs)).
  { repeat constructor.
    exists (mkFile 1024 (Some demo_dataset)), demo_dataset. split; reflexivity. }
  destruct main_skips_missing_datasets as (Hskip & Habort).
  split.
  - split; [exact Hdemo|].
    destruct (Hskip demo_fs empty_world Hdemo) as (w' & E & Hlog & recs & O & R).
    exists w'. split; [exact E|]. split.
    + apply Hlog; [left; reflexivity | reflexivity].
    + exists recs. split; [exact O | exact R].
  - split; [reflexivity|]. split; [constructor|]. split; [reflexivity|].
    split; [reflexivity|].
    destruct (Habort broken_primary_fs empty_world [] PRIMARY_DATASET_NAME
                ["volve_drilling_best.csv"] (mkFile 0 None)
                eq_refl (Forall_nil _) eq_refl eq_refl) as (w' & E & O & _).
    exists w'. split; [exact E | exact O].
Defined.

(* ================================================================== *)
(** * Scenarios                                                         *)
(* ================================================================== *)

Example normalize_name_docstring :
  normalize_name "Bit Measured Depth m" = "bit measured depth m" /\
  normalize_name "Bit Measured Depth (m)" = "bit measured depth m".
Proof. split; reflexivity. Qed.

Example detect_standard_columns_docstring :
  detect_standard_columns ["BIT_DEPTH"; "ROP"; "VIBRATION_0_5"]
  = mkStandardColumns (Some "BIT_DEPTH") (Some "ROP") (Some "VIBRATION_0_5") None.
Proof. reflexivity. Qed.

(** One negative depth among six readings in three chunks: it is counted
    and flagged, and the merged minimum and maximum are -5 and 300. *)
Example depth_scenario_record :
  option_map (fun r => (rows r, depth r, unit_flags r, fit_score r))
    (returned (analyze_dataset (one_file depth_scenario) "depth.csv" empty_world))
  = Some (6, mkDepthInfo (Some "BIT_DEPTH") (Some (-5 # 1)%Q) (Some (300 # 1)%Q) 1,
          ["Negative depth values detected"], 20).
Proof. vm_compute. reflexivity. Qed.

(** One reading of 7.2 in a column named VIBRATION_0_5: the range (0, 5)
    applies and one value is out of range. *)
Example vibration_scenario_record :
  option_map (fun r => (rows r, expected_range (vibration r),
                        out_of_range_count (vibration r)))
    (returned (analyze_dataset (one_file vibration_scenario) "vib.csv" empty_world))
  = Some (10, Some (0%Q, 5%Q), 1).
Proof. vm_compute. reflexivity. Qed.

(* ================================================================== *)
(** * More on [normalize_name]                                          *)
(* ================================================================== *)

Ltac each_ascii c :=
  destruct c as [[] [] [] [] [] [] [] []].

Lemma is_word_not_space (c : ascii) : is_word c = true -> is_space c = false.
Proof. each_ascii c; intros H; first [reflexivity | discriminate H]. Qed.

Lemma is_word_not_upper (c : ascii) : is_word c = true -> is_upper c = false.
Proof. each_ascii c; intros H; first [reflexivity | discriminate H]. Qed.

Lemma spaced_sub_runs (b : bool) (s : string) : spaced b (sub_runs b s) = true.
Proof.
  revert b; induction s as [|c s IH]; intros b; simpl; [reflexivity|].
  destruct (is_word c) eqn:W.
  - simpl. rewrite W. apply IH.
  - destruct b.
    + apply IH.
    + simpl. apply IH.
Qed.

Lemma lstrip_spaced (t : string) :
  spaced false t = true -> spaced true (lstrip t) = true.
Proof.
  destruct t as [|c r]; simpl; [reflexivity|].
  destruct (is_word c) eqn:W.
  - intros S. rewrite (is_word_not_space c W). simpl. rewrite W. exact S.
  - rewrite !andb_true_iff. intros [[E _] S].
    apply Ascii.eqb_eq in E. subst c. simpl.
    destruct r as [|d r']; simpl in *; [reflexivity|].
    destruct (is_word d) eqn:Wd.
    + rewrite (is_word_not_space d Wd). simpl. rewrite Wd. exact S.
    + rewrite !andb_true_iff in S. destruct S as [[_ F] _]. discriminate.
Qed.

Lemma rstrip_spaced (t : string) (b : bool) :
  spaced b t = true ->
  spaced b (rstrip t) = true /\ last_is_space (rstrip t) = false.
Proof.
  revert b; induction t as [|c r IH]; intros b; simpl; [auto|].
  destruct (is_word c) eqn:W.
  - intros S. destruct (IH false S) as [S' L'].
    destruct (rstrip r) as [|d r'] eqn:R.
    + rewrite (is_word_not_space c W). simpl. rewrite W. split; [reflexivity|].
      destruct (Ascii.eqb c " ") eqn:E; [|reflexivity].
      apply Ascii.eqb_eq in E. subst c. discriminate.
    + simpl. rewrite W. split; [exact S' | exact L'].
  - rewrite !andb_true_iff. intros [[E Hb] S].
    apply Ascii.eqb_eq in E. subst c.
    destruct (IH true S) as [S' L'].
    destruct (rstrip r) as [|d r'] eqn:R.
    + simpl. auto.
    + split; [|exact L'].
      change (spaced b (String " " (String d r')) = true).
      simpl spaced at 1. simpl in S'. rewrite Hb. exact S'.
Qed.

(** The result of [normalize_name] is made of words of [[a-z0-9]]
    separated by single spaces. *)
Lemma normalize_name_shape (s : string) : is_normal (normalize_name s) = true.
Proof.
  unfold is_normal, normalize_name, strip.
  pose proof (spaced_sub_runs false (lower s)) as S0.
  apply lstrip_spaced in S0. apply rstrip_spaced in S0.
  destruct S0 as [S L]. rewrite S, L. reflexivity.
Qed.

Lemma lower_spaced (b : bool) (t : string) : spaced b t = true -> lower t = t.
Proof.
  revert b; induction t as [|c r IH]; intros b; simpl; [reflexivity|].
  destruct (is_word c) eqn:W.
  - intros S. unfold lower_char. rewrite (is_word_not_upper c W), (IH false S).
    reflexivity.
  - rewrite !andb_true_iff. intros [[E _] S].
    apply Ascii.eqb_eq in E. subst c. rewrite (IH true S). reflexivity.
Qed.

Lemma sub_runs_spaced (t : string) :
  forall b b' : bool,
    spaced b t = true -> (b' = true -> b = true) -> sub_runs b' t = t.
Proof.
  induction t as [|c r IH]; intros b b'; simpl; [reflexivity|].
  destruct (is_word c) eqn:W.
  - intros S _. rewrite (IH false false S); [reflexivity | discriminate].
  - rewrite !andb_true_iff. intros [[E Hb] S] Himp.
    apply Ascii.eqb_eq in E. subst c.
    destruct b; [discriminate|].
    destruct b'; [specialize (Himp eq_refl); discriminate|].
    rewrite (IH true true S); auto.
Qed.

Lemma lstrip_no_leading (t : string) : spaced true t = true -> lstrip t = t.
Proof.
  destruct t as [|c r]; simpl; [reflexivity|].
  destruct (is_word c) eqn:W.
  - intros _. rewrite (is_word_not_space c W). reflexivity.
  - rewrite !andb_true_iff. intros [[_ F] _]. discriminate.
Qed.

Lemma rstrip_no_trailing (t : string) (b : bool) :
  spaced b t = true -> last_is_space t = false -> rstrip t = t.
Proof.
  revert b; induction t as [|c r IH]; intros b; [reflexivity|].
  intros S L. cbn [rstrip].
  destruct r as [|d r'].
  - simpl. simpl in S, L.
    destruct (is_word c) eqn:W.
    + rewrite (is_word_not_space c W). reflexivity.
    + rewrite L in S. discriminate.
  - assert (Sr : exists b0, spaced b0 (String d r') = true).
    { simpl in S. destruct (is_word c).
      - exists false. exact S.
      - rewrite !andb_true_iff in S. exists true. tauto. }
    destruct Sr as [b0 Sr].
    rewrite (IH b0 Sr L). reflexivity.
Qed.

(** A string of that shape is left unchanged. *)
Lemma normalize_name_fixed (t : string) :
  is_normal t = true -> normalize_name t = t.
Proof.
  unfold is_normal. rewrite andb_true_iff, negb_true_iff. intros [S L].
  unfold normalize_name, strip.
  rewrite (lower_spaced true t S).
  rewrite (sub_runs_spaced t true false S) by discriminate.
  rewrite (lstrip_no_leading t S).
  apply (rstrip_no_trailing t true S L).
Qed.

(** X1: [normalize_name] produces words of [[a-z0-9]] separated by single
    spaces, with no space at either end, and is idempotent. *)
Theorem normalize_name_idempotent (s : string) :
  is_normal (normalize_name s) = true /\
  normalize_name (normalize_name s) = normalize_name s.
Proof.
  split; [apply normalize_name_shape|].
  apply normalize_name_fixed, normalize_name_shape.
Qed.

Lemma sub_runs_smap (f : ascii -> ascii) :
  (forall c, is_word (lower_char (f c)) = is_word (lower_char c)) ->
  (forall c, is_word (lower_char c) = true -> lower_char (f c) = lower_char c) ->
  forall (s : string) (b : bool),
    sub_runs b (lower (smap f s)) = sub_runs b (lower s).
Proof.
  intros Hclass Hsame. induction s as [|c s IH]; intros b; simpl; [reflexivity|].
  rewrite Hclass. destruct (is_word (lower_char c)) eqn:W.
  - rewrite (Hsame c W), IH. reflexivity.
  - destruct b; rewrite IH; reflexivity.
Qed.

Lemma smap_on_ascii (f g : ascii -> ascii) (s : string) :
  is_ascii s = true ->
  (forall c, is_ascii_char c = true -> f c = g c) ->
  smap f s = smap g s.
Proof.
  intros Hs Hfg. induction s as [|c s IH]; simpl; [reflexivity|].
  simpl in Hs. apply andb_true_iff in Hs. destruct Hs as [Hc Hs].
  rewrite (Hfg c Hc), (IH Hs). reflexivity.
Qed.

(** X2: on a name written in ASCII, [normalize_name] sees only the
    lower-cased characters of [[a-z0-9]] and where the other characters
    are: replacing characters by ASCII characters, one for one, in a way
    that only changes the case of letters or puts one character outside
    [[A-Za-z0-9]] for another, does not change the result. *)
Theorem normalize_name_insensitive (f : ascii -> ascii) (s : string) :
  is_ascii s = true ->
  (forall c, is_ascii_char c = true ->
             is_ascii_char (f c) = true /\
             is_word (lower_char (f c)) = is_word (lower_char c)) ->
  (forall c, is_ascii_char c = true -> is_word (lower_char c) = true ->
             lower_char (f c) = lower_char c) ->
  is_ascii (smap f s) = true /\
  normalize_name (smap f s) = normalize_name s.
Proof.
  intros Hs Hclass Hsame. split.
  - induction s as [|c s IH]; simpl; [reflexivity|].
    simpl in Hs. apply andb_true_iff in Hs. destruct Hs as [Hc Hs].
    rewrite (proj1 (Hclass c Hc)), (IH Hs). reflexivity.
  - set (g := fun c => if is_ascii_char c then f c else c).
    rewrite (smap_on_ascii f g s Hs).
    + unfold normalize_name. rewrite (sub_runs_smap g); [reflexivity | |].
      * intros c. unfold g. destruct (is_ascii_char c) eqn:A; [|reflexivity].
        exact (proj2 (Hclass c A)).
      * intros c W. unfold g. destruct (is_ascii_char c) eqn:A; [|reflexivity].
        exact (Hsame c A W).
    + intros c A. unfold g. rewrite A. reflexivity.
Qed.

Lemma normalize_name_insensitive_witness :
  is_ascii "Bit_Depth (M)" = true /\
  (forall c, is_ascii_char c = true ->
             is_ascii_char (swapcase_char c) = true /\
             is_word (lower_char (swapcase_char c)) = is_word (lower_char c)) /\
  (forall c, is_ascii_char c = true -> is_word (lower_char c) = true ->
             lower_char (swapcase_char c) = lower_char c) /\
  (forall c, is_ascii_char c = true ->
             is_ascii_char (hyphenate c) = true /\
             is_word (lower_char (hyphenate c)) = is_word (lower_char c)) /\
  (forall c, is_ascii_char c = true -> is_word (lower_char c) = true ->
             lower_char (hyphenate c) = lower_char c) /\
  smap swapcase_char "Bit_Depth (M)" = "bIT_dEPTH (m)" /\
  normalize_name "bIT_dEPTH (m)" = normalize_name "Bit_Depth (M)" /\
  smap hyphenate "Bit_Depth (M)" = "Bit-Depth (M)" /\
  normalize_name "Bit-Depth (M)" = normalize_name "Bit_Depth (M)".
Proof.
  assert (H0 : is_ascii "Bit_Depth (M)" = true) by reflexivity.
  assert (H1 : forall c, is_ascii_char c = true ->
                 is_ascii_char (swapcase_char c) = true /\
                 is_word (lower_char (swapcase_char c)) = is_word (lower_char c))
    by (intros c; each_ascii c; intros H;
        first [split; reflexivity | discriminate H]).
  assert (H2 : forall c, is_ascii_char c = true -> is_word (lower_char c) = true ->
                 lower_char (swapcase_char c) = lower_char c)
    by (intros c; each_ascii c; intros A H;
        first [reflexivity | discriminate H | discriminate A]).
  assert (H3 : forall c, is_ascii_char c = true ->
                 is_ascii_char (hyphenate c) = true /\
                 is_word (lower_char (hyphenate c)) = is_word (lower_char c))
    by (intros c; each_ascii c; intros H;
        first [split; reflexivity | discriminate H]).
  assert (H4 : forall c, is_ascii_char c = true -> is_word (lower_char c) = true ->
                 lower_char (hyphenate c) = lower_char c)
    by (intros c; each_ascii c; intros A H;
        first [reflexivity | discriminate H | discriminate A]).
  split; [exact H0|]. split; [exact H1|]. split; [exact H2|].
  split; [exact H3|]. split; [exact H4|].
  split; [reflexivity|].
  split; [exact (proj2 (normalize_name_insensitive swapcase_char "Bit_Depth (M)"
                          H0 H1 H2))|].
  split; [reflexivity|].
  exact (proj2 (normalize_name_insensitive hyphenate "Bit_Depth (M)" H0 H3 H4)).
Defined.

(* ================================================================== *)
(** * More on [find_column]                                             *)
(* ================================================================== *)

Lemma last_with_norm_none (columns : list string) (norm : string) :
  last_with_norm columns norm = None <->
  forall h, In h columns -> normalize_name h <> norm.
Proof.
  unfold last_with_norm. split.
  - intros F h Hin E. rewrite in_rev in Hin.
    apply (find_none _ _ F) in Hin. rewrite E, String.eqb_refl in Hin. discriminate.
  - intros H. destruct (find _ (rev columns)) as [h|] eqn:F; [|reflexivity].
    apply find_some in F. destruct F as [Hin E]. rewrite <- in_rev in Hin.
    apply String.eqb_eq in E. exfalso. exact (H h Hin E).
Qed.

Lemma exact_pass_none (columns candidates : list string) :
  exact_pass columns candidates = None <->
  forall c h, In c candidates -> In h columns -> normalize_name h <> normalize_name c.
Proof.
  induction candidates as [|c rest IH]; simpl.
  - split; [intros _ c h [] | reflexivity].
  - destruct (last_with_norm columns (normalize_name c)) as [h0|] eqn:L.
    + split; [discriminate|]. intros H. exfalso.
      apply last_with_norm_some in L. destruct L as [Hin E].
      exact (H c h0 (or_introl eq_refl) Hin E).
    + rewrite IH. rewrite last_with_norm_none in L. split.
      * intros H c' h [<-|Hc] Hh; [apply L | apply H]; assumption.
      * intros H c' h Hc Hh. apply H; [right|]; assumption.
Qed.

Lemma substring_hit_none (columns : list string) (key : string) :
  substring_hit columns key = None <->
  (truthy key = true ->
   forall h, In h columns -> str_in key (normalize_name h) = false).
Proof.
  unfold substring_hit. destruct (truthy key).
  - destruct (find (fun h => str_in key (normalize_name h)) columns) as [h0|] eqn:F.
    + apply find_some in F. destruct F as [Hin S]. split.
      * intros L. rewrite last_with_norm_none in L. exfalso.
        exact (L h0 Hin eq_refl).
      * intros H. rewrite (H eq_refl h0 Hin) in S. discriminate.
    + split; [|reflexivity]. intros _ _ h Hin. exact (find_none _ _ F h Hin).
  - split; [intros _ H; discriminate | reflexivity].
Qed.

Lemma substring_pass_none (columns candidates : list string) :
  substring_pass columns candidates = None <->
  forall c h, In c candidates -> In h columns ->
    truthy (normalize_name c) = true ->
    str_in (normalize_name c) (normalize_name h) = false.
Proof.
  induction candidates as [|c rest IH]; simpl.
  - split; [intros _ c h [] | reflexivity].
  - destruct (substring_hit columns (normalize_name c)) as [h0|] eqn:S.
    + split; [discriminate|]. intros H. exfalso.
      assert (N : substring_hit columns (normalize_name c) = None).
      { apply substring_hit_none. intros T h Hin.
        exact (H c h (or_introl eq_refl) Hin T). }
      congruence.
    + rewrite IH. rewrite substring_hit_none in S. split.
      * intros H c' h [<-|Hc] Hh T; [apply S | apply H]; assumption.
      * intros H c' h Hc Hh T. apply H; [right| |]; assumption.
Qed.

(** X3: [find_column] returns [None] exactly when no header equals a
    candidate after normalization and no header contains a candidate
    whose normalized form is not empty. *)
Theorem find_column_none_iff (columns candidates : list string) :
  find_column columns candidates = None <->
  forall c h, In c candidates -> In h columns ->
    normalize_name h <> normalize_name c /\
    (truthy (normalize_name c) = true ->
     str_in (normalize_name c) (normalize_name h) = false).
Proof.
  rewrite find_column_lists. unfold find_column_on_lists. split.
  - destruct (exact_pass columns candidates) eqn:E; [discriminate|].
    intros S c h Hc Hh. split.
    + exact (proj1 (exact_pass_none _ _) E c h Hc Hh).
    + exact (proj1 (substring_pass_none _ _) S c h Hc Hh).
  - intros H.
    assert (E : exact_pass columns candidates = None).
    { apply exact_pass_none. intros c h Hc Hh. exact (proj1 (H c h Hc Hh)). }
    rewrite E. apply substring_pass_none.
    intros c h Hc Hh. exact (proj2 (H c h Hc Hh)).
Qed.

(** X4: every column [detect_standard_columns] resolves is a column of
    the header, and never the empty name. *)
Theorem standard_columns_in_header (columns : list string) (h : string) :
  let sc := detect_standard_columns columns in
  sc_depth sc = Some h \/ sc_rop sc = Some h \/
  sc_vibration sc = Some h \/ sc_time sc = Some h ->
  In h columns /\ h <> "".
Proof.
  simpl. intros H.
  assert (G : In h columns /\ truthy h = true).
  { destruct H as [H|[H|[H|H]]]; apply find_column_some in H;
      destruct H as [Hin Ht]; (split; [exact Hin|]); apply Ht; repeat constructor. }
  destruct G as [Hin Ht]. split; [exact Hin|].
  intros ->. discriminate.
Qed.

Lemma standard_columns_in_header_witness :
  (sc_depth (detect_standard_columns ["Hole Depth (m)"; "rop avg"]) = Some "Hole Depth (m)" \/
   sc_rop (detect_standard_columns ["Hole Depth (m)"; "rop avg"]) = Some "Hole Depth (m)" \/
   sc_vibration (detect_standard_columns ["Hole Depth (m)"; "rop avg"]) = Some "Hole Depth (m)" \/
   sc_time (detect_standard_columns ["Hole Depth (m)"; "rop avg"]) = Some "Hole Depth (m)") /\
  In "Hole Depth (m)" ["Hole Depth (m)"; "rop avg"] /\ "Hole Depth (m)" <> "".
Proof.
  assert (H : sc_depth (detect_standard_columns ["Hole Depth (m)"; "rop avg"])
              = Some "Hole Depth (m)") by reflexivity.
  split; [left; exact H|].
  exact (standard_columns_in_header ["Hole Depth (m)"; "rop avg"] "Hole Depth (m)"
           (or_introl H)).
Defined.

Lemma find_split {A} (p : A -> bool) (l : list A) (x : A) :
  find p l = Some x ->
  exists l1 l2, l = l1 ++ x :: l2 /\ p x = true /\
                forall y, In y l1 -> p y = false.
Proof.
  induction l as [|a l IH]; simpl; [discriminate|].
  destruct (p a) eqn:Pa.
  - intros [= <-]. exists [], l. split; [reflexivity|]. split; [exact Pa|].
    intros y [].
  - intros F. destruct (IH F) as (l1 & l2 & -> & Px & Hl1).
    exists (a :: l1), l2. split; [reflexivity|]. split; [exact Px|].
    intros y [<-|Hy]; [exact Pa | exact (Hl1 y Hy)].
Qed.

(** The header recorded for a normalized form is the last header of
    the list that has it. *)
Lemma last_with_norm_last (columns : list string) (norm h : string) :
  last_with_norm columns norm = Some h ->
  normalize_name h = norm /\
  exists before after,
    columns = before ++ h :: after /\
    forall h', In h' after -> normalize_name h' <> norm.
Proof.
  unfold last_with_norm. intros F.
  destruct (find_split _ _ _ F) as (l1 & l2 & E & Ph & Hl1).
  apply String.eqb_eq in Ph. split; [exact Ph|].
  exists (rev l2), (rev l1). split.
  - rewrite <- (rev_involutive columns), E, rev_app_distr. simpl.
    rewrite <- app_assoc. reflexivity.
  - intros h' Hin. apply in_rev in Hin. apply Hl1 in Hin.
    apply String.eqb_neq in Hin. exact Hin.
Qed.

(** X5: the first candidate, in priority order, that equals some header
    after normalization decides the result, whatever earlier candidates
    are contained in: the result is the last header of the list whose
    normalized name equals that candidate's. *)
Theorem find_column_exact_priority (columns candidates : list string) (c : string) :
  find (fun c => existsb (fun h => String.eqb (normalize_name h) (normalize_name c))
                   columns) candidates = Some c ->
  exists h before after,
    find_column columns candidates = Some h /\
    normalize_name h = normalize_name c /\
    columns = before ++ h :: after /\
    forall h', In h' after -> normalize_name h' <> normalize_name c.
Proof.
  rewrite find_column_lists. unfold find_column_on_lists.
  induction candidates as [|c0 rest IH]; simpl; [discriminate|].
  destruct (existsb (fun h => String.eqb (normalize_name h) (normalize_name c0)) columns)
    eqn:Ex.
  - intros [= <-].
    destruct (last_with_norm columns (normalize_name c0)) as [h|] eqn:L.
    + apply last_with_norm_last in L.
      destruct L as (Hn & before & after & Hc & Hafter).
      exists h, before, after. auto.
    + exfalso. rewrite last_with_norm_none in L.
      apply existsb_exists in Ex. destruct Ex as (h & Hin & E).
      apply String.eqb_eq in E. exact (L h Hin E).
  - intros F.
    assert (L : last_with_norm columns (normalize_name c0) = None).
    { apply last_with_norm_none. intros h Hin E.
      assert (Ex' : existsb (fun h => String.eqb (normalize_name h) (normalize_name c0))
                      columns = true).
      { apply existsb_exists. exists h. rewrite E, String.eqb_refl. auto. }
      congruence. }
    rewrite L. destruct (IH F) as (h & before & after & E & Hn & Hc & Hafter).
    destruct (exact_pass columns rest) as [h'|] eqn:P.
    + exists h', before, after. injection E as ->. auto.
    + exfalso. rewrite exact_pass_none in P.
      apply find_some in F. destruct F as [Hcand Ex2].
      apply existsb_exists in Ex2. destruct Ex2 as (h2 & Hin2 & E2).
      apply String.eqb_eq in E2. exact (P c h2 Hcand Hin2 E2).
Qed.

Lemma find_column_exact_priority_witness :
  find (fun c => existsb (fun h => String.eqb (normalize_name h) (normalize_name c))
                   ["Hole Depth"; "DEPTH_ROP"; "hole-depth"; "MD 2"])
       depth_candidates = Some "HOLE DEPTH" /\
  find_column ["Hole Depth"; "DEPTH_ROP"; "hole-depth"; "MD 2"] depth_candidates
  = Some "hole-depth".
Proof.
  split; [reflexivity|].
  destruct (find_column_exact_priority
              ["Hole Depth"; "DEPTH_ROP"; "hole-depth"; "MD 2"] depth_candidates
              "HOLE DEPTH" eq_refl)
    as (h & before & after & E & _).
  rewrite E. vm_compute in E. symmetry. exact E.
Defined.

(** X6: when no candidate equals a header after normalization, the first
    candidate, in priority order, with a non-empty normalized form that
    some header contains decides the result. *)
Theorem find_column_substring_priority (columns candidates : list string)
    (c : string) :
  (forall c h, In c candidates -> In h columns ->
               normalize_name h <> normalize_name c) ->
  find (fun c => truthy (normalize_name c)
                 && existsb (fun h => str_in (normalize_name c) (normalize_name h))
                      columns) candidates = Some c ->
  exists h, find_column columns candidates = Some h /\
            In h columns /\
            str_in (normalize_name c) (normalize_name h) = true.
Proof.
  intros Hex. rewrite find_column_lists. unfold find_column_on_lists.
  rewrite (proj2 (exact_pass_none columns candidates) Hex). clear Hex.
  induction candidates as [|c0 rest IH]; simpl; [discriminate|].
  destruct (truthy (normalize_name c0)
            && existsb (fun h => str_in (normalize_name c0) (normalize_name h)) columns)
    eqn:T.
  - intros [= <-]. apply andb_true_iff in T. destruct T as [T Ex].
    apply existsb_exists in Ex. destruct Ex as (h1 & Hin1 & S1).
    unfold substring_hit. rewrite T.
    destruct (find (fun h => str_in (normalize_name c0) (normalize_name h)) columns)
      as [h0|] eqn:F.
    + apply find_some in F. destruct F as [Hin0 S0].
      destruct (last_with_norm columns (normalize_name h0)) as [h|] eqn:L.
      * apply last_with_norm_some in L. destruct L as [Hin E].
        exists h. rewrite E. auto.
      * exfalso. rewrite last_with_norm_none in L. exact (L h0 Hin0 eq_refl).
    + rewrite (find_none _ _ F h1 Hin1) in S1. discriminate.
  - intros F.
    assert (N : substring_hit columns (normalize_name c0) = None).
    { apply substring_hit_none. intros Tc h Hin.
      rewrite Tc in T. simpl in T.
      destruct (str_in (normalize_name c0) (normalize_name h)) eqn:S; [|reflexivity].
      exfalso. assert (existsb (fun h => str_in (normalize_name c0) (normalize_name h))
                         columns = true).
      { apply existsb_exists. exists h. auto. }
      congruence. }
    rewrite N. exact (IH F).
Qed.

Lemma find_column_substring_priority_witness :
  (forall c h, In c rop_candidates -> In h ["Bit Depth"; "ROP avg (m/h)"] ->
               normalize_name h <> normalize_name c) /\
  find (fun c => truthy (normalize_name c)
                 && existsb (fun h => str_in (normalize_name c) (normalize_name h))
                      ["Bit Depth"; "ROP avg (m/h)"]) rop_candidates = Some "ROP" /\
  exists h, find_column ["Bit Depth"; "ROP avg (m/h)"] rop_candidates = Some h /\
            In h ["Bit Depth"; "ROP avg (m/h)"] /\
            str_in (normalize_name "ROP") (normalize_name h) = true.
Proof.
  assert (H : forall c h, In c rop_candidates -> In h ["Bit Depth"; "ROP avg (m/h)"] ->
                          normalize_name h <> normalize_name c).
  { intros c h Hc Hh. simpl in Hc, Hh.
    repeat (destruct Hc as [<-|Hc]); try contradiction;
      repeat (destruct Hh as [<-|Hh]); try contradiction; discriminate. }
  split; [exact H|]. split; [reflexivity|].
  exact (find_column_substring_priority ["Bit Depth"; "ROP avg (m/h)"] rop_candidates
           "ROP" H eq_refl).
Defined.

(* ================================================================== *)
(** * More on the running statistics                                    *)
(* ================================================================== *)

Lemma Qltb_spec (a b : Q) :
  (Qltb a b = true /\ (a < b)%Q) \/ (Qltb a b = false /\ (b <= a)%Q).
Proof.
  destruct (Qlt_le_dec a b) as [H|H].
  - left. split; [apply Qltb_true|]; exact H.
  - right. split; [apply Qltb_false|]; exact H.
Qed.

Lemma fold_min_least (r : list Q) :
  forall x, is_least (fold_left Qmin r x) (x :: r).
Proof.
  induction r as [|y r IH]; intros x; simpl.
  - split.
    + intros q [<-|[]]. apply Qle_refl.
    + exists x. split; [left; reflexivity | reflexivity].
  - destruct (IH (Qmin x y)) as [Hle (q0 & Hin & Heq)]. split.
    + intros q [<-|[<-|Hq]].
      * eapply Qle_trans; [apply Hle; left; reflexivity | apply Q.le_min_l].
      * eapply Qle_trans; [apply Hle; left; reflexivity | apply Q.le_min_r].
      * apply Hle. right. exact Hq.
    + destruct Hin as [<-|Hin].
      * destruct (Q.min_spec x y) as [[_ E]|[_ E]].
        -- exists x. split; [left; reflexivity|]. rewrite <- Heq, E. reflexivity.
        -- exists y. split; [right; left; reflexivity|]. rewrite <- Heq, E. reflexivity.
      * exists q0. split; [right; right; exact Hin | exact Heq].
Qed.

Lemma fold_max_greatest (r : list Q) :
  forall x, is_greatest (fold_left Qmax r x) (x :: r).
Proof.
  induction r as [|y r IH]; intros x; simpl.
  - split.
    + intros q [<-|[]]. apply Qle_refl.
    + exists x. split; [left; reflexivity | reflexivity].
  - destruct (IH (Qmax x y)) as [Hle (q0 & Hin & Heq)]. split.
    + intros q [<-|[<-|Hq]].
      * eapply Qle_trans; [apply Q.le_max_l | apply Hle; left; reflexivity].
      * eapply Qle_trans; [apply Q.le_max_r | apply Hle; left; reflexivity].
      * apply Hle. right. exact Hq.
    + destruct Hin as [<-|Hin].
      * destruct (Q.max_spec x y) as [[_ E]|[_ E]].
        -- exists y. split; [right; left; reflexivity|]. rewrite <- Heq, E. reflexivity.
        -- exists x. split; [left; reflexivity|]. rewrite <- Heq, E. reflexivity.
      * exists q0. split; [right; right; exact Hin | exact Heq].
Qed.

Lemma series_min_least (l : list Q) : l <> [] -> is_least (series_min l) l.
Proof. destruct l as [|x r]; [congruence|]. intros _. apply fold_min_least. Qed.

Lemma series_max_greatest (l : list Q) : l <> [] -> is_greatest (series_max l) l.
Proof. destruct l as [|x r]; [congruence|]. intros _. apply fold_max_greatest. Qed.

(** The least of two groups of observations. *)
Lemma is_least_app (a b : Q) (l v : list Q) :
  is_least a l -> is_least b v ->
  is_least (if Qltb b a then b else a) (l ++ v).
Proof.
  intros [La (qa & Ia & Ea)] [Lb (qb & Ib & Eb)].
  destruct (Qltb_spec b a) as [[-> H]|[-> H]].
  - split.
    + intros q Hq. apply in_app_or in Hq. destruct Hq as [Hq|Hq].
      * specialize (La q Hq). lra.
      * auto.
    + exists qb. split; [apply in_or_app; right; exact Ib | exact Eb].
  - split.
    + intros q Hq. apply in_app_or in Hq. destruct Hq as [Hq|Hq].
      * auto.
      * specialize (Lb q Hq). lra.
    + exists qa. split; [apply in_or_app; left; exact Ia | exact Ea].
Qed.

Lemma is_greatest_app (a b : Q) (l v : list Q) :
  is_greatest a l -> is_greatest b v ->
  is_greatest (if Qltb a b then b else a) (l ++ v).
Proof.
  intros [La (qa & Ia & Ea)] [Lb (qb & Ib & Eb)].
  destruct (Qltb_spec a b) as [[-> H]|[-> H]].
  - split.
    + intros q Hq. apply in_app_or in Hq. destruct Hq as [Hq|Hq].
      * specialize (La q Hq). lra.
      * auto.
    + exists qb. split; [apply in_or_app; right; exact Ib | exact Eb].
  - split.
    + intros q Hq. apply in_app_or in Hq. destruct Hq as [Hq|Hq].
      * auto.
      * specialize (Lb q Hq). lra.
    + exists qa. split; [apply in_or_app; left; exact Ia | exact Ea].
Qed.

(** What [update] does to [min_value] and [max_value]. *)
Lemma update_extreme_fields (s s' : RunningStat) (series : Series) :
  update s series = OK s' ->
  match numeric_values series with
  | [] => s' = s
  | v =>
      min_value s' =
        match min_value s with
        | None => Some (series_min v)
        | Some m => if Qltb (series_min v) m then Some (series_min v) else Some m
        end /\
      max_value s' =
        match max_value s with
        | None => Some (series_max v)
        | Some m => if Qltb m (series_max v) then Some (series_max v) else Some m
        end
  end.
Proof.
  unfold update. destruct (numeric_values series) as [|x v] eqn:EV.
  - intros [= <-]. reflexivity.
  - destruct (count s =? 0).
    + simpl ebind. intros [= <-]. simpl. auto.
    + unfold fdiv. destruct (Qeq_bool (inject_Z (count s + len (x :: v))) 0).
      * simpl ebind. discriminate.
      * simpl ebind. intros [= <-]. simpl. auto.
Qed.

Lemma update_extremes (s : RunningStat) (l : list Q) (series : Series) :
  tracks s l -> extremes s l ->
  exists s', update s series = OK s' /\
             tracks s' (l ++ numeric_values series) /\
             extremes s' (l ++ numeric_values series).
Proof.
  intros T X. destruct (update_tracks s l series T) as (s' & E & T').
  exists s'. split; [exact E|]. split; [exact T'|].
  pose proof (update_extreme_fields s s' series E) as F.
  destruct (numeric_values series) as [|x v] eqn:EV.
  - subst s'. rewrite app_nil_r. exact X.
  - destruct F as [Fmin Fmax].
    pose proof (series_min_least (x :: v)) as Lmin.
    pose proof (series_max_greatest (x :: v)) as Lmax.
    specialize (Lmin ltac:(discriminate)). specialize (Lmax ltac:(discriminate)).
    destruct l as [|y l].
    + simpl in X. destruct X as [Xmin Xmax]. rewrite Xmin in Fmin. rewrite Xmax in Fmax.
      simpl app. unfold extremes.
      exists (series_min (x :: v)), (series_max (x :: v)). auto.
    + simpl in X. destruct X as (lo & hi & Xmin & Xmax & Llo & Lhi).
      rewrite Xmin in Fmin. rewrite Xmax in Fmax.
      assert (Fmin' : min_value s'
                      = Some (if Qltb (series_min (x :: v)) lo
                              then series_min (x :: v) else lo))
        by (rewrite Fmin; destruct (Qltb (series_min (x :: v)) lo); reflexivity).
      assert (Fmax' : max_value s'
                      = Some (if Qltb hi (series_max (x :: v))
                              then series_max (x :: v) else hi))
        by (rewrite Fmax; destruct (Qltb hi (series_max (x :: v))); reflexivity).
      change (extremes s' (y :: (l ++ x :: v))). simpl.
      eexists; eexists. split; [exact Fmin'|]. split; [exact Fmax'|]. split.
      * apply (is_least_app lo (series_min (x :: v)) (y :: l) (x :: v)); assumption.
      * apply (is_greatest_app hi (series_max (x :: v)) (y :: l) (x :: v)); assumption.
Qed.

Lemma update_all_summary (batches : list Series) (s : RunningStat) (l : list Q) :
  tracks s l -> extremes s l ->
  exists s', update_all s batches = OK s' /\
             tracks s' (l ++ List.concat (map numeric_values batches)) /\
             extremes s' (l ++ List.concat (map numeric_values batches)).
Proof.
  revert s l; induction batches as [|b bs IH]; intros s l T X; simpl.
  - exists s. rewrite app_nil_r. auto.
  - destruct (update_extremes s l b T X) as (s1 & E1 & T1 & X1).
    destruct (IH s1 _ T1 X1) as (s2 & E2 & T2 & X2).
    exists s2. unfold update_all in *. simpl. rewrite E1. simpl.
    rewrite app_assoc. auto.
Qed.

Lemma extremes_fresh : extremes fresh_stat [].
Proof. split; reflexivity. Qed.

Lemma var0_single_or_more (s : RunningStat) (l : list Q) :
  l <> [] -> tracks s l ->
  std s = OK (sqrt (Q2R (series_var0 l))).
Proof.
  intros Hl T. destruct (tracks_bounds s l T) as (Bc & Bm).
  rewrite (std_value s Bc Bm).
  apply (tracks_nonempty s l Hl) in T. destruct T as (C & _ & V).
  pose proof (inject_len_pos l Hl) as Hp.
  f_equal. destruct (count s <=? 1) eqn:E.
  - apply Z.leb_le in E. pose proof (len_pos l Hl) as P.
    assert (C1 : len l = 1) by lia.
    assert (Z0 : (series_var0 l == 0)%Q).
    { destruct l as [|x [|y l]]; [congruence| |].
      - unfold series_var0, series_mean. simpl. unfold len. simpl. field.
      - rewrite !len_cons in C1. pose proof (len_nonneg l). lia. }
    rewrite (Qeq_eqR _ _ Z0). change (Q2R 0) with (Q2R (0 # 1)).
    unfold Q2R. simpl. rewrite Rmult_0_l. symmetry. apply sqrt_0.
  - f_equal. apply Qeq_eqR. rewrite V, C. field. lra.
Qed.

(* ================================================================== *)
(** * Exact counts of the chunk loop                                    *)
(* ================================================================== *)

Lemma keys_get {V} (d : dict V) (k : string) :
  In k (keys d) <-> dict_get k d <> None.
Proof.
  unfold keys. induction d as [|[k0 v0] d IH]; simpl.
  - split; [contradiction | congruence].
  - destruct (String.eqb k k0) eqn:E.
    + apply String.eqb_eq in E. subst k0. split; [discriminate | auto].
    + rewrite <- IH. apply String.eqb_neq in E. split.
      * intros [H|H]; [congruence | exact H].
      * auto.
Qed.

Lemma keys_set_present {V} (d : dict V) (k : string) (v : V) :
  In k (keys d) -> keys (dict_set k v d) = keys d.
Proof.
  unfold keys. induction d as [|[k0 v0] d IH]; simpl; [contradiction|].
  destruct (String.eqb k k0) eqn:E; [reflexivity|].
  apply String.eqb_neq in E. intros [H|H]; [congruence|].
  simpl. rewrite (IH H). reflexivity.
Qed.

Lemma keys_set_absent {V} (d : dict V) (k : string) (v : V) :
  ~ In k (keys d) -> keys (dict_set k v d) = keys d ++ [k].
Proof.
  unfold keys. induction d as [|[k0 v0] d IH]; simpl; [reflexivity|].
  intros H. destruct (String.eqb k k0) eqn:E.
  - apply String.eqb_eq in E. subst k0. exfalso. apply H. left. reflexivity.
  - simpl. rewrite IH; [reflexivity|]. intros Hin. apply H. right. exact Hin.
Qed.

Lemma keys_set_nodup {V} (d : dict V) (k : string) (v : V) :
  NoDup (keys d) -> NoDup (keys (dict_set k v d)).
Proof.
  intros ND. destruct (in_dec string_dec k (keys d)) as [H|H].
  - rewrite (keys_set_present d k v H). exact ND.
  - rewrite (keys_set_absent d k v H).
    apply NoDup_app; [exact ND | repeat constructor; intros [] |].
    intros x Hx [<-|[]]. contradiction.
Qed.

Lemma keys_set_sub {V} (d : dict V) (k : string) (v : V) (x : string) :
  In x (keys (dict_set k v d)) -> x = k \/ In x (keys d).
Proof.
  destruct (in_dec string_dec k (keys d)) as [H|H].
  - rewrite (keys_set_present d k v H). auto.
  - rewrite (keys_set_absent d k v H). intros Hx. apply in_app_or in Hx.
    destruct Hx as [Hx|[<-|[]]]; auto.
Qed.

Lemma comprehension_keys {V} (val : string -> V) (columns : list string) :
  NoDup (keys (dict_comprehension (fun col => col) val columns)) /\
  forall k, In k (keys (dict_comprehension (fun col => col) val columns)) ->
            In k columns.
Proof.
  unfold dict_comprehension.
  assert (G : forall xs (d : dict V),
             NoDup (keys d) ->
             NoDup (keys (fold_left (set_step (fun col => col) val) xs d)) /\
             forall k, In k (keys (fold_left (set_step (fun col => col) val) xs d)) ->
                       In k xs \/ In k (keys d)).
  { induction xs as [|x xs IH]; intros d ND; simpl.
    - auto.
    - destruct (IH (set_step (fun col => col) val d x)) as [N S].
      + apply keys_set_nodup. exact ND.
      + split; [exact N|]. intros k Hk. destruct (S k Hk) as [H|H]; [auto|].
        apply keys_set_sub in H. destruct H as [->|H]; auto. }
  destruct (G columns [] (NoDup_nil _)) as [N S]. split; [exact N|].
  intros k Hk. destruct (S k Hk) as [H|[]]. exact H.
Qed.

Lemma count_where_app {A} (p : A -> bool) (l l' : list A) :
  count_where p (l ++ l') = count_where p l + count_where p l'.
Proof. unfold count_where. rewrite filter_app. apply len_app. Qed.

Lemma column_cells_app (columns : list string) (col : string) (l l' : list Row) :
  column_cells columns col (l ++ l')
  = column_cells columns col l ++ column_cells columns col l'.
Proof.
  unfold column_cells. destruct (index_of col columns); [apply map_app | reflexivity].
Qed.

Lemma frame_col_cells (columns : list string) (chunk : Chunk) (col : string)
    (series : Series) :
  frame_col columns chunk col = OK series -> series = column_cells columns col chunk.
Proof.
  unfold frame_col, column_cells. destruct (index_of col columns); [|discriminate].
  intros [= <-]. reflexivity.
Qed.

(** What the inner loop over the columns does to the two dictionaries,
    for columns without repeated names. *)
Lemma column_loop_exact (columns : list string) (chunk : Chunk) (todo : list string) :
  NoDup todo ->
  forall (mc mc' : dict Z) (ns ns' : dict RunningStat),
    efold (column_step columns chunk) todo (mc, ns) = OK (mc', ns') ->
    (forall col v, In col todo -> dict_get col mc = Some v ->
       dict_get col mc'
       = Some (v + count_where isna (column_cells columns col chunk))) /\
    (forall col, ~ In col todo -> dict_get col mc' = dict_get col mc) /\
    (forall col s, In col todo -> dict_get col ns = Some s ->
       exists s', update s (column_cells columns col chunk) = OK s' /\
                  dict_get col ns' = Some s') /\
    (forall col, ~ In col todo -> dict_get col ns' = dict_get col ns) /\
    (NoDup (keys ns) -> NoDup (keys ns')) /\
    (forall k, In k (keys ns') -> In k todo \/ In k (keys ns)).
Proof.
  induction 1 as [|col todo Hnotin ND IH]; intros mc mc' ns ns'; simpl.
  - intros [= <- <-]. repeat split; auto; contradiction.
  - unfold column_step at 1.
    destruct (dict_item col mc) as [old|] eqn:Eold; [|discriminate]. simpl ebind.
    destruct (frame_col columns chunk col) as [series|] eqn:Ecol; [|discriminate].
    simpl ebind.
    destruct (dict_item col ns) as [stat|] eqn:Estat; [|discriminate]. simpl ebind.
    destruct (update stat series) as [stat'|] eqn:Eup; [|discriminate]. simpl ebind.
    apply frame_col_cells in Ecol. subst series.
    unfold dict_item in Eold, Estat.
    destruct (dict_get col mc) as [old0|] eqn:Gold; [|discriminate].
    injection Eold as ->.
    destruct (dict_get col ns) as [stat0|] eqn:Gstat; [|discriminate].
    injection Estat as ->.
    intros E. destruct (IH _ _ _ _ E) as (F1 & F2 & F3 & F4 & F5 & F6).
    repeat split.
    + intros c v [<-|Hc] G.
      * rewrite (F2 col Hnotin), dict_get_set_same. congruence.
      * apply F1; [exact Hc|]. rewrite dict_get_set.
        destruct (String.eqb c col) eqn:Ec; [|exact G].
        apply String.eqb_eq in Ec. subst c. contradiction.
    + intros c Hc. rewrite F2 by tauto. rewrite dict_get_set.
      destruct (String.eqb c col) eqn:Ec; [|reflexivity].
      apply String.eqb_eq in Ec. subst c. exfalso. apply Hc. left. reflexivity.
    + intros c s [<-|Hc] G.
      * exists stat'. rewrite (F4 col Hnotin), dict_get_set_same.
        split; [congruence | reflexivity].
      * apply F3; [exact Hc|]. rewrite dict_get_set.
        destruct (String.eqb c col) eqn:Ec; [|exact G].
        apply String.eqb_eq in Ec. subst c. contradiction.
    + intros c Hc. rewrite F4 by tauto. rewrite dict_get_set.
      destruct (String.eqb c col) eqn:Ec; [|reflexivity].
      apply String.eqb_eq in Ec. subst c. exfalso. apply Hc. left. reflexivity.
    + intros N. apply F5. apply keys_set_nodup. exact N.
    + intros k Hk. destruct (F6 k Hk) as [H|H]; [left; right; exact H|].
      apply keys_set_sub in H. destruct H as [->|H]; [left; left; reflexivity | auto].
Qed.

Lemma negative_depths_app (columns : list string) (sc : StandardColumns)
    (l l' : list Row) :
  negative_depths columns sc (l ++ l')
  = negative_depths columns sc l + negative_depths columns sc l'.
Proof.
  unfold negative_depths. destruct (sc_depth sc) as [d|]; [|reflexivity].
  destruct (truthy d && in_frame columns d); [|reflexivity].
  rewrite column_cells_app, numeric_values_app, count_where_app. reflexivity.
Qed.

Lemma vibration_outliers_app (columns : list string) (sc : StandardColumns)
    (vr : option (Q * Q)) (l l' : list Row) :
  vibration_outliers columns sc vr (l ++ l')
  = vibration_outliers columns sc vr l + vibration_outliers columns sc vr l'.
Proof.
  unfold vibration_outliers. destruct (sc_vibration sc) as [v|]; [|reflexivity].
  destruct vr as [[lower upper]|]; [|reflexivity].
  destruct (truthy v && in_frame columns v); [|reflexivity].
  rewrite column_cells_app, numeric_values_app, count_where_app. reflexivity.
Qed.

Lemma depth_step_exact (columns : list string) (sc : StandardColumns)
    (st : LoopState) (chunk : Chunk) (dn : Z) :
  match sc_depth sc with
  | Some depth_col =>
      if truthy depth_col && in_frame columns depth_col then
        ebind (frame_col columns chunk depth_col) (fun series =>
          OK (depth_negative st
              + count_where (fun q => Qltb q 0) (numeric_values series)))
      else OK (depth_negative st)
  | None => OK (depth_negative st)
  end = OK dn ->
  dn = depth_negative st + negative_depths columns sc chunk.
Proof.
  unfold negative_depths. destruct (sc_depth sc) as [d|].
  - destruct (truthy d && in_frame columns d).
    + destruct (frame_col columns chunk d) as [series|] eqn:F; [|discriminate].
      apply frame_col_cells in F. subst series. simpl. intros [= <-]. reflexivity.
    + intros [= <-]. lia.
  - intros [= <-]. lia.
Qed.

Lemma vibration_step_exact (columns : list string) (sc : StandardColumns)
    (vr : option (Q * Q)) (st : LoopState) (chunk : Chunk) (vo : Z) :
  match sc_vibration sc, vr with
  | Some vibration_col, Some (lower, upper) =>
      if truthy vibration_col && in_frame columns vibration_col then
        ebind (frame_col columns chunk vibration_col) (fun series =>
          OK (vibration_out_of_range st
              + count_where (fun q => Qltb q lower || Qltb upper q)
                  (numeric_values series)))
      else OK (vibration_out_of_range st)
  | _, _ => OK (vibration_out_of_range st)
  end = OK vo ->
  vo = vibration_out_of_range st + vibration_outliers columns sc vr chunk.
Proof.
  unfold vibration_outliers. destruct (sc_vibration sc) as [v|].
  - destruct vr as [[lower upper]|].
    + destruct (truthy v && in_frame columns v).
      * destruct (frame_col columns chunk v) as [series|] eqn:F; [|discriminate].
        apply frame_col_cells in F. subst series. simpl. intros [= <-]. reflexivity.
      * intros [= <-]. lia.
    + intros [= <-]. lia.
  - intros [= <-]. lia.
Qed.

(** One iteration of the chunk loop keeps the counters and the
    per-column dictionaries exact. *)
Lemma process_chunk_exact (cap : Z) (columns : list string)
    (sc : StandardColumns) (vr : option (Q * Q))
    (seen : list Row) (st : LoopState) (chunk : Chunk) :
  loop_inv cap columns seen st ->
  exists st',
    process_chunk columns sc vr st chunk = OK st' /\
    loop_inv cap columns (seen ++ chunk) st' /\
    (loop_counts columns sc vr seen st ->
     loop_counts columns sc vr (seen ++ chunk) st') /\
    (NoDup columns -> loop_columns columns seen st ->
     loop_columns columns (seen ++ chunk) st').
Proof.
  intros Inv.
  destruct (process_chunk_ok cap columns sc vr seen st chunk Inv) as (st' & E & Inv').
  exists st'. split; [exact E|]. split; [exact Inv'|].
  unfold process_chunk in E.
  destruct (efold (column_step columns chunk) columns (missing_counts st, stats st))
    as [[mc' ns']|] eqn:Eloop; [|discriminate]. simpl ebind in E.
  match type of E with
  | ebind ?m _ = _ => destruct m as [dn|] eqn:Ed; [|discriminate]
  end. simpl ebind in E.
  match type of E with
  | ebind ?m _ = _ => destruct m as [vo|] eqn:Ev; [|discriminate]
  end. simpl ebind in E.
  apply depth_step_exact in Ed. apply vibration_step_exact in Ev.
  destruct (sample_step chunk (sample_frames st) (sample_remaining st))
    as [frames remaining].
  injection E as <-. split.
  - intros [Ce Cd Cv]. constructor; simpl.
    + rewrite count_where_app, Ce. reflexivity.
    + rewrite negative_depths_app, Ed, Cd. reflexivity.
    + rewrite vibration_outliers_app, Ev, Cv. reflexivity.
  - intros ND [Cm Cs Ck Ch].
    destruct (column_loop_exact columns chunk columns ND _ _ _ _ Eloop)
      as (F1 & _ & F3 & _ & F5 & F6).
    constructor; simpl.
    + intros col Hin. rewrite (F1 col _ Hin (Cm col Hin)).
      rewrite column_cells_app, count_where_app. reflexivity.
    + intros col Hin. destruct (Cs col Hin) as (s & G & T & X).
      destruct (F3 col s Hin G) as (s' & Eup & G').
      destruct (update_extremes s _ (column_cells columns col chunk) T X)
        as (s2 & Eup2 & T2 & X2).
      assert (s2 = s') by congruence. subst s2.
      exists s'. rewrite column_cells_app, numeric_values_app. auto.
    + apply F5. exact Ck.
    + intros k Hk. destruct (F6 k Hk) as [H|H]; auto.
Qed.

Lemma loop_counts_init (cap : Z) (columns : list string) (sc : StandardColumns)
    (vr : option (Q * Q)) :
  loop_counts columns sc vr [] (init_state cap columns).
Proof.
  constructor; simpl.
  - reflexivity.
  - unfold negative_depths. destruct (sc_depth sc) as [d|]; [|reflexivity].
    destruct (truthy d && in_frame columns d); [|reflexivity].
    unfold column_cells. destruct (index_of d columns); reflexivity.
  - unfold vibration_outliers. destruct (sc_vibration sc) as [v|]; [|reflexivity].
    destruct vr as [[lower upper]|]; [|reflexivity].
    destruct (truthy v && in_frame columns v); [|reflexivity].
    unfold column_cells. destruct (index_of v columns); reflexivity.
Qed.

Lemma column_cells_nil (columns : list string) (col : string) :
  column_cells columns col [] = [].
Proof. unfold column_cells. destruct (index_of col columns); reflexivity. Qed.

Lemma loop_columns_init (cap : Z) (columns : list string) :
  loop_columns columns [] (init_state cap columns).
Proof.
  constructor; simpl.
  - intros col Hin. rewrite comprehension_get, column_cells_nil.
    destruct (find (fun x => String.eqb x col) (rev columns)) eqn:F; [reflexivity|].
    rewrite in_rev in Hin. apply (find_none _ _ F col) in Hin.
    rewrite String.eqb_refl in Hin. discriminate.
  - intros col Hin. rewrite comprehension_get, column_cells_nil.
    destruct (find (fun x => String.eqb x col) (rev columns)) eqn:F.
    + exists fresh_stat. simpl. repeat split; reflexivity.
    + rewrite in_rev in Hin. apply (find_none _ _ F col) in Hin.
      rewrite String.eqb_refl in Hin. discriminate.
  - apply (comprehension_keys (fun _ => fresh_stat) columns).
  - apply (comprehension_keys (fun _ => fresh_stat) columns).
Qed.

Lemma heartbeats_zero (index : Z) : heartbeats index 0 = 0.
Proof. unfold heartbeats. rewrite Z.add_0_r. lia. Qed.

Lemma heartbeats_step (index n : Z) :
  heartbeats index (n + 1)
  = (if (index + 1) mod 10 =? 0 then 1 else 0) + heartbeats (index + 1) n.
Proof.
  unfold heartbeats. replace (index + (n + 1)) with (index + 1 + n) by lia.
  destruct ((index + 1) mod 10 =? 0) eqn:E.
  - apply Z.eqb_eq in E. Z.div_mod_to_equations. lia.
  - apply Z.eqb_neq in E. Z.div_mod_to_equations. lia.
Qed.

(** The whole chunk loop, with exact counters, exact per-column
    dictionaries and the heartbeat lines it prints. *)
Lemma chunk_loop_exact (name : string) (cap : Z) (columns : list string)
    (sc : StandardColumns) (vr : option (Q * Q)) (chunks : list Chunk) :
  forall (index : Z) (seen : list Row) (st : LoopState) (w : World),
    loop_inv cap columns seen st ->
    exists st' w' extra,
      chunk_loop name columns sc vr index chunks st w = (OK st', w') /\
      loop_inv cap columns (seen ++ List.concat chunks) st' /\
      (loop_counts columns sc vr seen st ->
       loop_counts columns sc vr (seen ++ List.concat chunks) st') /\
      (NoDup columns -> loop_columns columns seen st ->
       loop_columns columns (seen ++ List.concat chunks) st') /\
      w_output w' = w_output w /\
      w_log w' = w_log w ++ extra /\
      len extra = heartbeats index (len chunks) /\
      Forall (is_heartbeat name) extra.
Proof.
  induction chunks as [|chunk rest IH]; intros index seen st w Inv.
  - exists st, w, []. simpl. rewrite !app_nil_r.
    change (len (@nil Chunk)) with 0. rewrite heartbeats_zero.
    split; [reflexivity|]. split; [exact Inv|]. split; [auto|]. split; [auto|].
    split; [reflexivity|]. split; [reflexivity|]. split; [reflexivity | constructor].
  - destruct (process_chunk_exact cap columns sc vr seen st chunk Inv)
      as (st1 & E1 & Inv1 & C1 & K1).
    cbn [chunk_loop]. unfold ibind at 1. unfold lift. rewrite E1.
    unfold ibind at 1. rewrite len_cons, heartbeats_step.
    cbn [List.concat]. rewrite app_assoc.
    destruct ((index + 1) mod 10 =? 0).
    + cbn [log fst snd].
      destruct (IH (index + 1) _ st1
                  (mkWorld (w_log w ++ [LogProcessed (row_count st1) name]) (w_output w))
                  Inv1) as (st2 & w2 & extra & E2 & Inv2 & C2 & K2 & O2 & L2 & N2 & F2).
      exists st2, w2, (LogProcessed (row_count st1) name :: extra).
      split; [exact E2|]. split; [exact Inv2|].
      split; [intros H; exact (C2 (C1 H))|].
      split; [intros ND H; exact (K2 ND (K1 ND H))|].
      split; [exact O2|].
      split; [rewrite L2; simpl; rewrite <- app_assoc; reflexivity|].
      split; [rewrite len_cons; lia|].
      constructor; [exists (row_count st1); reflexivity | exact F2].
    + cbn [iret].
      destruct (IH (index + 1) _ st1 w Inv1)
        as (st2 & w2 & extra & E2 & Inv2 & C2 & K2 & O2 & L2 & N2 & F2).
      exists st2, w2, extra.
      split; [exact E2|]. split; [exact Inv2|].
      split; [intros H; exact (C2 (C1 H))|].
      split; [intros ND H; exact (K2 ND (K1 ND H))|].
      split; [exact O2|]. split; [exact L2|]. split; [lia | exact F2].
Qed.

Lemma summary_table_exact (items : dict RunningStat) :
  NoDup (keys items) ->
  forall (acc tbl : dict Summary),
    efold summary_step items acc = OK tbl ->
    (forall col s, dict_get col items = Some s ->
       if count s =? 0 then dict_get col tbl = dict_get col acc
       else exists sd, std s = OK sd /\ dict_get col tbl = Some (summary_of s sd)) /\
    (forall col, ~ In col (keys items) -> dict_get col tbl = dict_get col acc).
Proof.
  induction items as [|[k s0] rest IH]; intros ND acc tbl; simpl.
  - intros [= <-]. split; [discriminate | reflexivity].
  - unfold keys in ND. simpl in ND. inversion ND as [|? ? Hk ND']; subst.
    unfold summary_step at 1.
    destruct (count s0 =? 0) eqn:Z0.
    + simpl ebind. intros E. destruct (IH ND' _ _ E) as [I1 I2]. split.
      * intros col s. destruct (String.eqb col k) eqn:Ek.
        -- apply String.eqb_eq in Ek. subst col. intros [= <-]. rewrite Z0.
           apply I2. exact Hk.
        -- intros G. exact (I1 col s G).
      * intros col Hc. apply I2. intros Hin. apply Hc. right. exact Hin.
    + destruct (std s0) as [sd|] eqn:Esd; [|discriminate]. simpl ebind.
      intros E. destruct (IH ND' _ _ E) as [I1 I2]. split.
      * intros col s. destruct (String.eqb col k) eqn:Ek.
        -- apply String.eqb_eq in Ek. subst col. intros [= <-]. rewrite Z0.
           exists sd. split; [exact Esd|].
           rewrite (I2 k Hk). apply dict_get_set_same.
        -- intros G. specialize (I1 col s G).
           destruct (count s =? 0).
           ++ rewrite I1, dict_get_set, Ek. reflexivity.
           ++ exact I1.
      * intros col Hc. rewrite I2 by (intros Hin; apply Hc; right; exact Hin).
        rewrite dict_get_set.
        destruct (String.eqb col k) eqn:Ek; [|reflexivity].
        apply String.eqb_eq in Ek. subst col. exfalso. apply Hc. left. reflexivity.
Qed.

(** The code after the loop, with the tables it computed. *)
Lemma finalize_tables (name : string) (file_size cap : Z) (columns : list string)
    (sc : StandardColumns) (vr : option (Q * Q))
    (seen : list Row) (st : LoopState) :
  loop_inv cap columns seen st ->
  exists mness nsum dup pct,
    finalize name file_size columns sc vr st
      = OK (assemble name file_size columns sc vr st mness nsum dup pct) /\
    tables_ok columns seen st mness nsum dup pct /\
    (forall c, In c columns ->
       exists m, dict_get c (missing_counts st) = Some m /\
                 dict_get c mness = Some (missing_entry (row_count st) m)) /\
    efold summary_step (stats st) [] = OK nsum.
Proof.
  intros Inv. unfold finalize.
  destruct (missingness_table (row_count st) (missing_counts st) columns
              (inv_missing_keys _ _ _ _ Inv) columns [])
    as (mness & Em & Hm & Hout); [auto|].
  destruct (summary_table seen (stats st) (inv_stats _ _ _ _ Inv) [])
    as (nsum & En & Hn).
  destruct (finish_sample_ok (List.length columns) (sample_frames st))
    as (dup & Ed & D1 & D2 & D3).
  rewrite Em. simpl ebind. rewrite En. simpl ebind. rewrite Ed. simpl ebind.
  rewrite guarded_rate. simpl ebind.
  exists mness, nsum, dup. eexists. split; [reflexivity|].
  split; [|split; [exact Hm | reflexivity]].
  constructor; auto.
  - intros c Hc. destruct (Hm c Hc) as (m & _ & G). congruence.
  - intros c e G. destruct (in_dec string_dec c columns) as [Hc|Hc].
    + destruct (Hm c Hc) as (m & _ & G'). exists m. congruence.
    + rewrite (Hout c Hc) in G. discriminate.
Qed.

(** A readable data set is analysed to a record assembled from a final
    loop state with exact counters, together with the lines printed. *)
Lemma analyze_dataset_exact (fs : FS) (name : string) (file : File) (ds : Dataset)
    (w : World) :
  fs name = Some file -> f_content file = Some ds ->
  let columns := ds_header ds in
  let sc := detect_standard_columns columns in
  let vr := expect_vibration_range (sc_vibration sc) in
  let seen := List.concat (ds_chunks ds) in
  exists st mness nsum dup pct w' beats,
    analyze_dataset fs name w
      = (OK (assemble name (f_size file) columns sc vr st mness nsum dup pct), w') /\
    loop_inv DUPLICATE_SAMPLE_ROWS columns seen st /\
    loop_counts columns sc vr seen st /\
    (NoDup columns -> loop_columns columns seen st) /\
    tables_ok columns seen st mness nsum dup pct /\
    (forall c, In c columns ->
       exists m, dict_get c (missing_counts st) = Some m /\
                 dict_get c mness = Some (missing_entry (row_count st) m)) /\
    efold summary_step (stats st) [] = OK nsum /\
    w_output w' = w_output w /\
    w_log w' = w_log w
               ++ (if LARGE_FILE_BYTES <? f_size file
                   then [LogLargeFile (f_size file)] else [])
               ++ beats /\
    len beats = len (ds_chunks ds) / 10 /\
    Forall (is_heartbeat name) beats.
Proof.
  intros Hfile Hds columns sc vr seen.
  set (w1 := if LARGE_FILE_BYTES <? f_size file
             then snd (log (LogLargeFile (f_size file)) w) else w).
  destruct (chunk_loop_exact name DUPLICATE_SAMPLE_ROWS columns sc vr (ds_chunks ds)
              0 [] (init_state DUPLICATE_SAMPLE_ROWS columns) w1
              (loop_inv_init _ _))
    as (st & w' & beats & Eloop & Inv & C & K & O & L & N & F).
  rewrite app_nil_l in Inv, C, K.
  destruct (finalize_tables name (f_size file) DUPLICATE_SAMPLE_ROWS columns sc vr
              _ st Inv) as (mness & nsum & dup & pct & Efin & T & Hm & Hs).
  exists st, mness, nsum, dup, pct, w', beats.
  split; [|split; [exact Inv|split; [exact (C (loop_counts_init _ _ _ _))|split;
    [intros ND; exact (K ND (loop_columns_init _ _))|split; [exact T|split;
    [exact Hm|split; [exact Hs|]]]]]]].
  - unfold analyze_dataset, ibind, lift, stat_file, read_csv.
    rewrite Hfile, Hds.
    fold columns. fold sc. fold vr.
    assert (Estep : (if LARGE_FILE_BYTES <? f_size file
                     then log (LogLargeFile (f_size file)) else iret tt) w
                    = (OK tt, w1)).
    { unfold w1. destruct (LARGE_FILE_BYTES <? f_size file); reflexivity. }
    rewrite Estep, Eloop, Efin. reflexivity.
  - split; [|split; [|split]].
    + rewrite O. unfold w1. destruct (LARGE_FILE_BYTES <? f_size file); reflexivity.
    + rewrite L. unfold w1. destruct (LARGE_FILE_BYTES <? f_size file); simpl.
      * rewrite <- app_assoc. reflexivity.
      * reflexivity.
    + rewrite N. unfold heartbeats. rewrite Z.add_0_l.
      change (0 / 10) with 0. lia.
    + exact F.
Qed.

(* ================================================================== *)
(** * Exact contents of the record                                      *)
(* ================================================================== *)

Lemma assemble_more_fields (name : string) (file_size : Z) (header : list string)
    (sc : StandardColumns) (vr : option (Q * Q)) (st : LoopState)
    (mness : dict Missingness) (nsum : dict Summary) (dup : DuplicateSample)
    (pct : Q) :
  let r := assemble name file_size header sc vr st mness nsum dup pct in
  unit_flags r
    = compute_unit_flags (depth_negative st) (get_if (sc_rop sc) nsum)
        (vibration_out_of_range st) /\
  fit_score_notes r
    = snd (score_rules sc (rate_of (sc_depth sc) mness) (rate_of (sc_rop sc) mness)
             (rate_of (sc_vibration sc) mness) (rate_of (sc_time sc) mness) pct
             (depth_negative st)) /\
  vib_column (vibration r) = sc_vibration sc /\
  expected_range (vibration r) = vr /\
  out_of_range_count (vibration r) = vibration_out_of_range st /\
  rop_column (rop r) = sc_rop sc /\
  size_bytes r = file_size /\
  cols r = len header.
Proof.
  unfold assemble.
  destruct (score_rules sc (rate_of (sc_depth sc) mness) (rate_of (sc_rop sc) mness)
              (rate_of (sc_vibration sc) mness) (rate_of (sc_time sc) mness) pct
              (depth_negative st)) as [raw notes].
  simpl. repeat split; reflexivity.
Qed.

Lemma count_where_split {A} (p : A -> bool) (l : list A) :
  count_where p l + count_where (fun x => negb (p x)) l = len l.
Proof.
  induction l as [|x l IH]; [reflexivity|].
  unfold count_where in *. cbn [filter]. rewrite len_cons.
  destruct (p x); cbn [negb]; rewrite !len_cons; lia.
Qed.

Lemma len_column_cells (columns : list string) (col : string) (l : list Row) :
  In col columns -> len (column_cells columns col l) = len l.
Proof.
  intros Hin. unfold column_cells.
  destruct (index_of_in col columns Hin) as [i ->]. apply len_map.
Qed.

Lemma in_frame_true (columns : list string) (col : string) :
  In col columns -> in_frame columns col = true.
Proof.
  intros Hin. unfold in_frame. apply existsb_exists.
  exists col. split; [exact Hin | apply String.eqb_refl].
Qed.

Lemma missing_entry_bounds (total m : Z) :
  0 <= m <= total ->
  let e := missing_entry total m in
  (0 <= missing_rate e)%Q /\ (missing_rate e <= 1)%Q /\
  (0 <= non_null_rate e)%Q /\ (non_null_rate e <= 1)%Q.
Proof.
  intros B. simpl. destruct (total =? 0) eqn:E.
  - repeat split; discriminate.
  - apply Z.eqb_neq in E.
    assert (Hp : (0 < inject_Z total)%Q).
    { change 0%Q with (inject_Z 0). rewrite <- Zlt_Qlt. lia. }
    assert (Hm : (0 <= inject_Z m)%Q /\ (inject_Z m <= inject_Z total)%Q).
    { change 0%Q with (inject_Z 0). rewrite <- !Zle_Qle. lia. }
    assert (Hn : (0 <= inject_Z (total - m))%Q /\
                 (inject_Z (total - m) <= inject_Z total)%Q).
    { change 0%Q with (inject_Z 0). rewrite <- !Zle_Qle. lia. }
    repeat split.
    + apply Qle_shift_div_l; [exact Hp | lra].
    + apply Qle_shift_div_r; [exact Hp | lra].
    + apply Qle_shift_div_l; [exact Hp | lra].
    + apply Qle_shift_div_r; [exact Hp | lra].
Qed.

(** X10: for a readable data set whose header has no repeated name, the
    missingness entry of every column holds the number of null cells of
    that column over all chunks, the number of its other cells, and two
    rates between 0 and 1. *)
Theorem missingness_counts_exact (fs : FS) (name : string) (file : File)
    (ds : Dataset) (w : World) :
  fs name = Some file -> f_content file = Some ds -> NoDup (ds_header ds) ->
  exists r w',
    analyze_dataset fs name w = (OK r, w') /\
    forall col, In col (ds_header ds) ->
      exists e,
        dict_get col (missingness r) = Some e /\
        let cells := column_cells (ds_header ds) col (List.concat (ds_chunks ds)) in
        missing e = count_where isna cells /\
        non_null e = count_where (fun c => negb (isna c)) cells /\
        missing e + non_null e = rows r /\
        (0 <= missing_rate e)%Q /\ (missing_rate e <= 1)%Q /\
        (0 <= non_null_rate e)%Q /\ (non_null_rate e <= 1)%Q.
Proof.
  intros Hfile Hds ND.
  destruct (analyze_dataset_exact fs name file ds w Hfile Hds)
    as (st & mness & nsum & dup & pct & w' & beats & E & Inv & _ & K & _ & Hm & _).
  specialize (K ND).
  eexists; eexists. split; [exact E|].
  destruct (assemble_fields name (f_size file) (ds_header ds)
              (detect_standard_columns (ds_header ds))
              (expect_vibration_range
                 (sc_vibration (detect_standard_columns (ds_header ds))))
              st mness nsum dup pct) as (Hrows & _ & Hmn & _).
  rewrite Hrows, Hmn. intros col Hin.
  destruct (Hm col Hin) as (m & Gm & Ge).
  rewrite (col_missing _ _ _ K col Hin) in Gm. injection Gm as <-.
  eexists. split; [exact Ge|]. cbv zeta.
  set (cells := column_cells (ds_header ds) col (List.concat (ds_chunks ds))).
  pose proof (count_where_split isna cells) as Hsplit.
  pose proof (count_where_bounds isna cells) as Hb.
  assert (Hlen : len cells = row_count st).
  { unfold cells. rewrite (len_column_cells _ _ _ Hin).
    symmetry. apply (inv_rows _ _ _ _ Inv). }
  rewrite Hlen in Hsplit, Hb.
  split; [reflexivity|]. split; [simpl; lia|]. split; [simpl; lia|].
  apply missing_entry_bounds. exact Hb.
Qed.

Lemma demo_header_nodup : NoDup (ds_header demo_dataset).
Proof.
  simpl. repeat constructor; simpl; intuition discriminate.
Qed.

Lemma missingness_counts_exact_witness :
  demo_fs "volve_drilling_best.csv" = Some (mkFile 1024 (Some demo_dataset)) /\
  f_content (mkFile 1024 (Some demo_dataset)) = Some demo_dataset /\
  NoDup (ds_header demo_dataset) /\
  exists r w',
    analyze_dataset demo_fs "volve_drilling_best.csv" empty_world = (OK r, w') /\
    exists e, dict_get "note" (missingness r) = Some e /\
              missing e = 3 /\ non_null e = 1.
Proof.
  split; [reflexivity|]. split; [reflexivity|]. split; [exact demo_header_nodup|].
  destruct (missingness_counts_exact demo_fs "volve_drilling_best.csv"
              (mkFile 1024 (Some demo_dataset)) demo_dataset empty_world
              eq_refl eq_refl demo_header_nodup) as (r & w' & E & H).
  exists r, w'. split; [exact E|].
  destruct (H "note") as (e & G & Hm & Hn & _).
  - simpl. tauto.
  - exists e. split; [exact G|]. split; [exact Hm | exact Hn].
Defined.

(** X12: for a readable data set, [fully_empty_rows] is the number of
    rows, over all chunks, whose cells are all null; it is at most the
    number of rows, and the rate reported for it lies between 0 and 1. *)
Theorem fully_empty_rows_exact (fs : FS) (name : string) (file : File)
    (ds : Dataset) (w : World) :
  fs name = Some file -> f_content file = Some ds ->
  exists r w',
    analyze_dataset fs name w = (OK r, w') /\
    fully_empty_rows r
    = count_where (row_all_na (List.length (ds_header ds)))
        (List.concat (ds_chunks ds)) /\
    0 <= fully_empty_rows r <= rows r /\
    (0 <= fully_empty_row_pct r)%Q /\ (fully_empty_row_pct r <= 1)%Q /\
    (rows r <> 0 ->
     (fully_empty_row_pct r == inject_Z (fully_empty_rows r) / inject_Z (rows r))%Q).
Proof.
  intros Hfile Hds.
  destruct (analyze_dataset_exact fs name file ds w Hfile Hds)
    as (st & mness & nsum & dup & pct & w' & beats & E & Inv & C & _ & T & _).
  eexists; eexists. split; [exact E|].
  destruct (assemble_fields name (f_size file) (ds_header ds)
              (detect_standard_columns (ds_header ds))
              (expect_vibration_range
                 (sc_vibration (detect_standard_columns (ds_header ds))))
              st mness nsum dup pct) as (Hrows & _ & _ & _ & Hfe & Hp & _).
  rewrite Hrows, Hfe, Hp.
  pose proof (inv_empty _ _ _ _ Inv) as B.
  rewrite <- (inv_rows _ _ _ _ Inv) in B.
  split; [apply (cnt_empty _ _ _ _ _ C)|]. split; [exact B|].
  rewrite (tbl_pct _ _ _ _ _ _ _ T).
  destruct (row_count st =? 0) eqn:Z0.
  - apply Z.eqb_eq in Z0. split; [discriminate|]. split; [discriminate|]. congruence.
  - apply Z.eqb_neq in Z0.
    assert (Hp' : (0 < inject_Z (row_count st))%Q).
    { change 0%Q with (inject_Z 0). rewrite <- Zlt_Qlt. lia. }
    assert (Hf : (0 <= inject_Z (fully_empty st))%Q /\
                 (inject_Z (fully_empty st) <= inject_Z (row_count st))%Q).
    { change 0%Q with (inject_Z 0). rewrite <- !Zle_Qle. lia. }
    split; [apply Qle_shift_div_l; [exact Hp' | lra]|].
    split; [apply Qle_shift_div_r; [exact Hp' | lra]|].
    intros _. reflexivity.
Qed.

Lemma fully_empty_rows_exact_witness :
  demo_fs "volve_drilling_best.csv" = Some (mkFile 1024 (Some demo_dataset)) /\
  f_content (mkFile 1024 (Some demo_dataset)) = Some demo_dataset /\
  exists r w',
    analyze_dataset demo_fs "volve_drilling_best.csv" empty_world = (OK r, w') /\
    fully_empty_rows r = 0.
Proof.
  split; [reflexivity|]. split; [reflexivity|].
  destruct (fully_empty_rows_exact demo_fs "volve_drilling_best.csv"
              (mkFile 1024 (Some demo_dataset)) demo_dataset empty_world
              eq_refl eq_refl) as (r & w' & E & H & _).
  exists r, w'. split; [exact E | exact H].
Defined.

(* ================================================================== *)
(** * Unit-sanity flags and domain counters                             *)
(* ================================================================== *)

Lemma in_flag_step (c : bool) (l : list string) (s x : string) :
  In x (if c then l ++ [s] else l) <-> In x l \/ (c = true /\ s = x).
Proof.
  destruct c.
  - rewrite in_app_iff. simpl. tauto.
  - split; [auto | intros [H|[H _]]; [exact H | discriminate]].
Qed.

Lemma rop_max_test (mx : Q) :
  negb (Qeq_bool mx 0) && Qltb 300 mx = true <-> (300 < mx)%Q.
Proof.
  split.
  - intros H. apply andb_true_iff in H. destruct H as [_ H].
    destruct (Qltb_spec 300 mx) as [[_ L]|[F _]]; [exact L | congruence].
  - intros H. apply andb_true_iff. split.
    + apply negb_true_iff. destruct (Qeq_bool mx 0) eqn:E; [|reflexivity].
      apply Qeq_bool_iff in E. lra.
    + apply Qltb_true. exact H.
Qed.

Lemma Qltb_iff (a b : Q) : Qltb a b = true <-> (a < b)%Q.
Proof.
  split; [|apply Qltb_true].
  intros H. destruct (Qltb_spec a b) as [[_ L]|[F _]]; [exact L | congruence].
Qed.

(** Each unit-sanity flag is raised exactly under its own condition. *)
Lemma compute_unit_flags_spec (dn vo : Z) (rs : option Summary) :
  let flags := compute_unit_flags dn rs vo in
  (In "Negative depth values detected" flags <-> 0 < dn) /\
  (In "ROP max exceeds 300 m/h (unit check)" flags <->
   exists st mx, rs = Some st /\ s_max st = Some mx /\ (300 < mx)%Q) /\
  (In "ROP mean is extremely low (possible unit mismatch)" flags <->
   exists st, rs = Some st /\ (s_mean st < 1 # 100)%Q) /\
  (In "Vibration values outside expected 0-5 range" flags <-> 0 < vo).
Proof.
  unfold compute_unit_flags. cbv zeta.
  destruct rs as [st|]; [destruct (s_max st) as [mx|] eqn:Emx|];
    rewrite ?in_flag_step; cbn [In];
    rewrite <- ?Z.ltb_lt.
  - repeat split.
    + intros [[[[[]|[H _]]|[_ H]]|[_ H]]|[_ H]]; [exact H | discriminate ..].
    + intros H. tauto.
    + intros [[[[[]|[_ H]]|[H _]]|[_ H]]|[_ H]]; try discriminate.
      exists st, mx. rewrite <- rop_max_test. auto.
    + intros (st' & mx' & [= <-] & Hm & H). rewrite Emx in Hm. injection Hm as <-.
      rewrite <- rop_max_test in H. tauto.
    + intros [[[[[]|[_ H]]|[_ H]]|[H _]]|[_ H]]; try discriminate.
      exists st. rewrite <- Qltb_iff. auto.
    + intros (st' & [= <-] & H). rewrite <- Qltb_iff in H. tauto.
    + intros [[[[[]|[_ H]]|[_ H]]|[_ H]]|[H _]]; first [exact H | discriminate].
    + intros H. tauto.
  - repeat split.
    + intros [[[[]|[H _]]|[_ H]]|[_ H]]; [exact H | discriminate ..].
    + intros H. tauto.
    + intros [[[[]|[_ H]]|[_ H]]|[_ H]]; discriminate.
    + intros (st' & mx' & [= <-] & Hm & H). rewrite Emx in Hm. discriminate.
    + intros [[[[]|[_ H]]|[H _]]|[_ H]]; try discriminate.
      exists st. rewrite <- Qltb_iff. auto.
    + intros (st' & [= <-] & H). rewrite <- Qltb_iff in H. tauto.
    + intros [[[[]|[_ H]]|[_ H]]|[H _]]; first [exact H | discriminate].
    + intros H. tauto.
  - repeat split.
    + intros [[[]|[H _]]|[_ H]]; [exact H | discriminate].
    + intros H. tauto.
    + intros [[[]|[_ H]]|[_ H]]; discriminate.
    + intros (st' & mx' & H & _). discriminate.
    + intros [[[]|[_ H]]|[_ H]]; discriminate.
    + intros (st' & H & _). discriminate.
    + intros [[[]|[_ H]]|[H _]]; first [exact H | discriminate].
    + intros H. tauto.
Qed.

Lemma score_notes_negative (sc : StandardColumns)
    (depth_rate rop_rate vib_rate time_rate pct : Q) (dn : Z) :
  In "Negative depth values (-10)"
     (snd (score_rules sc depth_rate rop_rate vib_rate time_rate pct dn))
  <-> 0 < dn.
Proof.
  unfold score_rules.
  destruct (0 <? dn) eqn:E; [apply Z.ltb_lt in E | apply Z.ltb_ge in E];
    split_ifs; simpl; split; intros H; try lia; intuition discriminate.
Qed.

Lemma resolved_guard (columns : list string) (candidates : list string) (h : string) :
  find_column columns candidates = Some h ->
  Forall (fun c => truthy (normalize_name c) = true) candidates ->
  truthy h && in_frame columns h = true.
Proof.
  intros F Hc. apply find_column_some in F. destruct F as [Hin Ht].
  rewrite (Ht Hc), (in_frame_true columns h Hin). reflexivity.
Qed.

(** X13: for a readable data set, the negative-depth counter is the
    number of negative numeric cells of the resolved depth column over
    all chunks (0 when no depth column resolved); the flag "Negative
    depth values detected" and the score note "Negative depth values
    (-10)" are present exactly when that counter is positive. *)
Theorem negative_depth_exact (fs : FS) (name : string) (file : File)
    (ds : Dataset) (w : World) :
  fs name = Some file -> f_content file = Some ds ->
  exists r w',
    analyze_dataset fs name w = (OK r, w') /\
    negative_count (depth r)
    = match depth_column (depth r) with
      | Some d =>
          count_where (fun q => Qltb q 0)
            (numeric_values
               (column_cells (ds_header ds) d (List.concat (ds_chunks ds))))
      | None => 0
      end /\
    (In "Negative depth values detected" (unit_flags r)
     <-> 0 < negative_count (depth r)) /\
    (In "Negative depth values (-10)" (fit_score_notes r)
     <-> 0 < negative_count (depth r)).
Proof.
  intros Hfile Hds.
  destruct (analyze_dataset_exact fs name file ds w Hfile Hds)
    as (st & mness & nsum & dup & pct & w' & beats & E & Inv & C & _).
  eexists; eexists. split; [exact E|].
  set (sc := detect_standard_columns (ds_header ds)) in *.
  set (vr := expect_vibration_range (sc_vibration sc)) in *.
  destruct (assemble_fields name (f_size file) (ds_header ds) sc vr
              st mness nsum dup pct)
    as (_ & _ & _ & _ & _ & _ & _ & _ & Hd & Hneg & _).
  destruct (assemble_more_fields name (f_size file) (ds_header ds) sc vr
              st mness nsum dup pct) as (Hflags & Hnotes & _).
  rewrite Hd, Hneg, Hflags, Hnotes.
  split; [|split].
  - rewrite (cnt_depth _ _ _ _ _ C). unfold negative_depths.
    destruct (sc_depth sc) as [d|] eqn:Sd; [|reflexivity].
    rewrite (resolved_guard (ds_header ds) depth_candidates d Sd); [reflexivity|].
    repeat constructor.
  - apply (compute_unit_flags_spec (depth_negative st) (vibration_out_of_range st)).
  - apply score_notes_negative.
Qed.

Lemma negative_depth_exact_witness :
  depth_fs "volve_drilling_best.csv" = Some (mkFile 64 (Some depth_scenario)) /\
  f_content (mkFile 64 (Some depth_scenario)) = Some depth_scenario /\
  exists r w',
    analyze_dataset depth_fs "volve_drilling_best.csv" empty_world = (OK r, w') /\
    negative_count (depth r) = 1 /\
    In "Negative depth values detected" (unit_flags r).
Proof.
  split; [reflexivity|]. split; [reflexivity|].
  destruct (negative_depth_exact depth_fs "volve_drilling_best.csv"
              (mkFile 64 (Some depth_scenario)) depth_scenario empty_world
              eq_refl eq_refl) as (r & w' & E & Hc & Hf & _).
  exists r, w'. split; [exact E|].
  assert (Hd : depth_column (depth r) = Some "BIT_DEPTH").
  { pose proof E as E'. vm_compute in E'. injection E' as <- _. reflexivity. }
  rewrite Hd in Hc.
  assert (H1 : negative_count (depth r) = 1) by (rewrite Hc; reflexivity).
  split; [exact H1|]. apply Hf. rewrite H1. reflexivity.
Defined.

(** X14: for a readable data set, the out-of-range counter is the
    number of numeric cells of the resolved vibration column outside
    the range [expect_vibration_range] gives for that column, over all
    chunks, and 0 when no vibration column resolved or no range is
    expected for it; the flag "Vibration values
    outside expected 0-5 range" is present exactly when the counter is
    positive. *)
Theorem vibration_range_exact (fs : FS) (name : string) (file : File)
    (ds : Dataset) (w : World) :
  fs name = Some file -> f_content file = Some ds ->
  exists r w',
    analyze_dataset fs name w = (OK r, w') /\
    expected_range (vibration r) = expect_vibration_range (vib_column (vibration r)) /\
    out_of_range_count (vibration r)
    = match vib_column (vibration r), expected_range (vibration r) with
      | Some v, Some (lower, upper) =>
          count_where (fun q => Qltb q lower || Qltb upper q)
            (numeric_values
               (column_cells (ds_header ds) v (List.concat (ds_chunks ds))))
      | _, _ => 0
      end /\
    (In "Vibration values outside expected 0-5 range" (unit_flags r)
     <-> 0 < out_of_range_count (vibration r)).
Proof.
  intros Hfile Hds.
  destruct (analyze_dataset_exact fs name file ds w Hfile Hds)
    as (st & mness & nsum & dup & pct & w' & beats & E & Inv & C & _).
  eexists; eexists. split; [exact E|].
  set (sc := detect_standard_columns (ds_header ds)) in *.
  set (vr := expect_vibration_range (sc_vibration sc)) in *.
  destruct (assemble_more_fields name (f_size file) (ds_header ds) sc vr
              st mness nsum dup pct) as (Hflags & _ & Hv & Hr & Ho & _).
  rewrite Hv, Hr, Ho, Hflags.
  split; [reflexivity|]. split.
  - rewrite (cnt_vibration _ _ _ _ _ C). unfold vibration_outliers.
    destruct (sc_vibration sc) as [v|] eqn:Sv; [|reflexivity].
    destruct vr as [[lower upper]|]; [|reflexivity].
    rewrite (resolved_guard (ds_header ds) vibration_candidates v Sv); [reflexivity|].
    repeat constructor.
  - apply (compute_unit_flags_spec (depth_negative st) (vibration_out_of_range st)).
Qed.

Lemma vibration_range_exact_witness :
  demo_fs "volve_drilling_best.csv" = Some (mkFile 1024 (Some demo_dataset)) /\
  f_content (mkFile 1024 (Some demo_dataset)) = Some demo_dataset /\
  exists r w',
    analyze_dataset demo_fs "volve_drilling_best.csv" empty_world = (OK r, w') /\
    out_of_range_count (vibration r) = 1 /\
    In "Vibration values outside expected 0-5 range" (unit_flags r).
Proof.
  split; [reflexivity|]. split; [reflexivity|].
  destruct (vibration_range_exact demo_fs "volve_drilling_best.csv"
              (mkFile 1024 (Some demo_dataset)) demo_dataset empty_world
              eq_refl eq_refl) as (r & w' & E & Hr & Hc & Hf).
  exists r, w'. split; [exact E|].
  assert (Hv : vib_column (vibration r) = Some "VIBRATION_0_5").
  { pose proof E as E'. vm_compute in E'. injection E' as <- _. reflexivity. }
  rewrite Hv in Hr. rewrite Hv, Hr in Hc.
  assert (H1 : out_of_range_count (vibration r) = 1) by (rewrite Hc; reflexivity).
  split; [exact H1|]. apply Hf. rewrite H1. reflexivity.
Defined.

Lemma summary_lookup (columns : list string) (seen : list Row) (st : LoopState)
    (nsum : dict Summary) (col : string) :
  loop_columns columns seen st ->
  efold summary_step (stats st) [] = OK nsum ->
  In col columns ->
  match numeric_values (column_cells columns col seen) with
  | [] => dict_get col nsum = None
  | vals =>
      exists e lo hi,
        dict_get col nsum = Some e /\
        s_count e = len vals /\
        (s_mean e == series_mean vals)%Q /\
        s_std e = sqrt (Q2R (series_var0 vals)) /\
        s_min e = Some lo /\ s_max e = Some hi /\
        is_least lo vals /\ is_greatest hi vals
  end.
Proof.
  intros K Hs Hin.
  destruct (col_stats _ _ _ K col Hin) as (s & G & T & X).
  destruct (summary_table_exact (stats st) (col_keys _ _ _ K) [] nsum Hs) as [S1 _].
  specialize (S1 col s G).
  destruct (numeric_values (column_cells columns col seen)) as [|x v] eqn:EV.
  - simpl in T. subst s. simpl in S1. exact S1.
  - assert (Hne : x :: v <> []) by discriminate.
    pose proof (var0_single_or_more s (x :: v) Hne T) as Hstd.
    apply (tracks_nonempty s _ Hne) in T. destruct T as (C & M & _).
    pose proof (len_pos (x :: v) Hne) as P.
    destruct (count s =? 0) eqn:Z0; [apply Z.eqb_eq in Z0; lia|].
    destruct S1 as (sd & Esd & Ge).
    assert (sd = sqrt (Q2R (series_var0 (x :: v)))) by congruence. subst sd.
    simpl in X. destruct X as (lo & hi & Xmin & Xmax & Llo & Lhi).
    eexists; exists lo, hi. split; [exact Ge|]. simpl.
    repeat split; try assumption; try apply Llo; try apply Lhi.
Qed.

(** X15: for a readable data set whose header has no repeated name, the
    flag "ROP max exceeds 300 m/h (unit check)" is present exactly when
    the rate-of-penetration column was resolved and one of its numeric
    cells, over all chunks, is above 300. *)
Theorem rop_max_flag_exact (fs : FS) (name : string) (file : File)
    (ds : Dataset) (w : World) :
  fs name = Some file -> f_content file = Some ds -> NoDup (ds_header ds) ->
  exists r w',
    analyze_dataset fs name w = (OK r, w') /\
    (In "ROP max exceeds 300 m/h (unit check)" (unit_flags r)
     <-> exists c q,
           rop_column (rop r) = Some c /\
           In q (numeric_values
                   (column_cells (ds_header ds) c (List.concat (ds_chunks ds)))) /\
           (300 < q)%Q).
Proof.
  intros Hfile Hds ND.
  destruct (analyze_dataset_exact fs name file ds w Hfile Hds)
    as (st & mness & nsum & dup & pct & w' & beats & E & Inv & _ & K & _ & _ & Hs & _).
  specialize (K ND).
  eexists; eexists. split; [exact E|].
  set (sc := detect_standard_columns (ds_header ds)) in *.
  set (vr := expect_vibration_range (sc_vibration sc)) in *.
  destruct (assemble_more_fields name (f_size file) (ds_header ds) sc vr
              st mness nsum dup pct) as (Hflags & _ & _ & _ & _ & Hrc & _).
  rewrite Hflags, Hrc.
  destruct (compute_unit_flags_spec (depth_negative st) (vibration_out_of_range st)
              (get_if (sc_rop sc) nsum)) as (_ & Fmax & _).
  rewrite Fmax. clear Fmax.
  destruct (sc_rop sc) as [c|] eqn:Sc; simpl get_if.
  - pose proof (find_column_some (ds_header ds) rop_candidates c Sc) as [Hin Ht].
    rewrite Ht by repeat constructor.
    pose proof (summary_lookup _ _ _ _ c K Hs Hin) as L.
    destruct (numeric_values (column_cells (ds_header ds) c (List.concat (ds_chunks ds))))
      as [|x v] eqn:EV.
    + rewrite L. split.
      * intros (e & mx & H & _). discriminate.
      * intros (c' & q & [= <-] & H & _). rewrite EV in H. destruct H.
    + destruct L as (e & lo & hi & G & _ & _ & _ & _ & Xmax & _ & Lhi).
      rewrite G. split.
      * intros (e' & mx & [= <-] & Hm & H). rewrite Xmax in Hm. injection Hm as <-.
        destruct Lhi as [_ (q & Hq & Eq)].
        exists c, q. split; [reflexivity|]. rewrite EV. split; [exact Hq|]. lra.
      * intros (c' & q & [= <-] & Hq & H). rewrite EV in Hq.
        exists e, hi. split; [reflexivity|]. split; [exact Xmax|].
        destruct Lhi as [Lhi _]. specialize (Lhi q Hq). lra.
  - split.
    + intros (e & mx & H & _). discriminate.
    + intros (c' & q & H & _). discriminate.
Qed.

Lemma rop_max_flag_exact_witness :
  demo_fs "volve_drilling_best.csv" = Some (mkFile 1024 (Some demo_dataset)) /\
  f_content (mkFile 1024 (Some demo_dataset)) = Some demo_dataset /\
  NoDup (ds_header demo_dataset) /\
  exists r w',
    analyze_dataset demo_fs "volve_drilling_best.csv" empty_world = (OK r, w') /\
    ~ In "ROP max exceeds 300 m/h (unit check)" (unit_flags r).
Proof.
  split; [reflexivity|]. split; [reflexivity|]. split; [exact demo_header_nodup|].
  destruct (rop_max_flag_exact demo_fs "volve_drilling_best.csv"
              (mkFile 1024 (Some demo_dataset)) demo_dataset empty_world
              eq_refl eq_refl demo_header_nodup) as (r & w' & E & Hmax).
  exists r, w'. split; [exact E|].
  intros Hin. apply Hmax in Hin. destruct Hin as (c & q & Hc & Hq & Hlt).
  assert (Hrop : rop_column (rop r) = Some "ROP").
  { pose proof E as E'. vm_compute in E'. injection E' as <- _. reflexivity. }
  rewrite Hrop in Hc. injection Hc as <-.
  simpl in Hq. unfold Qlt in Hlt. simpl in Hlt.
  destruct Hq as [<-|[<-|[<-|[<-|[]]]]]; simpl in Hlt; lia.
Defined.

Lemma count_repeats_below (ncols : nat) (rows : list Row) :
  rows <> [] -> 0 <= count_repeats ncols rows < len rows.
Proof.
  destruct rows as [|r rest]; [congruence|]. intros _.
  unfold count_repeats. cbn [List.length seq].
  assert (Heq : count_where (repeats_earlier ncols (r :: rest))
                  (0%nat :: seq 1 (List.length rest))
                = count_where (repeats_earlier ncols (r :: rest))
                    (seq 1 (List.length rest))).
  { unfold count_where. cbn [filter].
    change (repeats_earlier ncols (r :: rest) 0) with false. reflexivity. }
  rewrite Heq.
  pose proof (count_where_bounds (repeats_earlier ncols (r :: rest))
                (seq 1 (List.length rest))) as B.
  unfold len in B. rewrite length_seq in B.
  rewrite len_cons. unfold len. lia.
Qed.

(** X16: for a readable data set, the duplicate sample holds at most
    200,000 rows and at most all rows; fewer of its rows than it holds
    are duplicates (its first row never is), so the duplicate rate is at
    least 0 and below 1. *)
Theorem duplicate_rate_bounds (fs : FS) (name : string) (file : File)
    (ds : Dataset) (w : World) :
  fs name = Some file -> f_content file = Some ds ->
  exists r w',
    analyze_dataset fs name w = (OK r, w') /\
    let d := duplicate_sample r in
    0 <= sample_rows d <= rows r /\
    sample_rows d <= DUPLICATE_SAMPLE_ROWS /\
    0 <= duplicate_rows d <= sample_rows d /\
    (0 < sample_rows d -> duplicate_rows d < sample_rows d) /\
    (0 <= duplicate_rate d)%Q /\ (duplicate_rate d < 1)%Q.
Proof.
  intros Hfile Hds.
  destruct (analyze_dataset_exact fs name file ds w Hfile Hds)
    as (st & mness & nsum & dup & pct & w' & beats & E & Inv & _ & _ & T & _).
  eexists; eexists. split; [exact E|].
  destruct (assemble_fields name (f_size file) (ds_header ds)
              (detect_standard_columns (ds_header ds))
              (expect_vibration_range
                 (sc_vibration (detect_standard_columns (ds_header ds))))
              st mness nsum dup pct) as (Hrows & _ & _ & _ & _ & _ & Hd & _).
  cbv zeta. rewrite Hrows, Hd.
  rewrite (tbl_sample_rows _ _ _ _ _ _ _ T), (tbl_duplicate_rows _ _ _ _ _ _ _ T),
    (tbl_duplicate_rate _ _ _ _ _ _ _ T).
  rewrite (inv_rows _ _ _ _ Inv), (inv_sample _ _ _ _ Inv).
  set (sample := firstn (Z.to_nat DUPLICATE_SAMPLE_ROWS) (List.concat (ds_chunks ds))).
  assert (Hlen : len sample
                 = Z.min (Z.of_nat (Z.to_nat DUPLICATE_SAMPLE_ROWS))
                     (len (List.concat (ds_chunks ds)))) by apply len_firstn.
  assert (Hcap : Z.of_nat (Z.to_nat DUPLICATE_SAMPLE_ROWS) = DUPLICATE_SAMPLE_ROWS)
    by reflexivity.
  rewrite Hcap in Hlen.
  pose proof (len_nonneg sample) as Hnn.
  pose proof (len_nonneg (List.concat (ds_chunks ds))) as Hnn2.
  destruct sample as [|r0 rest] eqn:Es.
  - change (len (@nil Row)) with 0 in *. simpl.
    repeat split; try lia; try discriminate; reflexivity.
  - pose proof (count_repeats_below (List.length (ds_header ds)) (r0 :: rest)
                  ltac:(discriminate)) as B.
    pose proof (len_pos (r0 :: rest) ltac:(discriminate)) as P.
    destruct (len (r0 :: rest) =? 0) eqn:Z0; [apply Z.eqb_eq in Z0; lia|].
    assert (Hp : (0 < inject_Z (len (r0 :: rest)))%Q).
    { change 0%Q with (inject_Z 0). rewrite <- Zlt_Qlt. exact P. }
    assert (Hq : (0 <= inject_Z (count_repeats (List.length (ds_header ds)) (r0 :: rest)))%Q
                 /\ (inject_Z (count_repeats (List.length (ds_header ds)) (r0 :: rest))
                     < inject_Z (len (r0 :: rest)))%Q).
    { change 0%Q with (inject_Z 0). rewrite <- Zle_Qle, <- Zlt_Qlt. lia. }
    repeat split; try lia.
    + apply Qle_shift_div_l; [exact Hp | lra].
    + apply Qlt_shift_div_r; [exact Hp | lra].
Qed.

Lemma duplicate_rate_bounds_witness :
  demo_fs "volve_drilling_best.csv" = Some (mkFile 1024 (Some demo_dataset)) /\
  f_content (mkFile 1024 (Some demo_dataset)) = Some demo_dataset /\
  exists r w',
    analyze_dataset demo_fs "volve_drilling_best.csv" empty_world = (OK r, w') /\
    (duplicate_rate (duplicate_sample r) < 1)%Q.
Proof.
  split; [reflexivity|]. split; [reflexivity|].
  destruct (duplicate_rate_bounds demo_fs "volve_drilling_best.csv"
              (mkFile 1024 (Some demo_dataset)) demo_dataset empty_world
              eq_refl eq_refl) as (r & w' & E & _ & _ & _ & _ & _ & H).
  exists r, w'. split; [exact E | exact H].
Defined.

(* ================================================================== *)
(** * More on the fit score                                             *)
(* ================================================================== *)

(** The score before the clamp is the sum of what each rule gives. *)
Lemma score_rules_sum (sc : StandardColumns)
    (depth_rate rop_rate vib_rate time_rate pct : Q) (dn : Z) :
  fst (score_rules sc depth_rate rop_rate vib_rate time_rate pct dn)
  = tier (otruthy (sc_depth sc)) depth_rate (9 # 10) (7 # 10) 30 15
    + tier (otruthy (sc_rop sc)) rop_rate (7 # 10) (4 # 10) 20 10
    + tier (otruthy (sc_vibration sc)) vib_rate (7 # 10) (4 # 10) 20 10
    + (if otruthy (sc_time sc) && Qltb (5 # 10) time_rate then 10 else 0)
    - (if Qltb (1 # 10) pct then 10 else 0)
    - (if 0 <? dn then 10 else 0).
Proof.
  unfold score_rules, tier. split_ifs; reflexivity.
Qed.

Lemma Qltb_mono (bound a b : Q) :
  (a <= b)%Q -> Qltb bound a = true -> Qltb bound b = true.
Proof.
  intros Hab H. apply Qltb_iff in H. apply Qltb_true. lra.
Qed.

Lemma tier_mono (resolved : bool) (a b upper lower : Q) (full half : Z) :
  (a <= b)%Q -> 0 <= half <= full ->
  tier resolved a upper lower full half <= tier resolved b upper lower full half.
Proof.
  intros Hab Hp. unfold tier. destruct resolved; simpl; [|lia].
  destruct (Qltb upper a) eqn:Ua.
  - rewrite (Qltb_mono upper a b Hab Ua). lia.
  - destruct (Qltb upper b); [destruct (Qltb lower a); lia|].
    destruct (Qltb lower a) eqn:La.
    + rewrite (Qltb_mono lower a b Hab La). lia.
    + destruct (Qltb lower b); lia.
Qed.

(** X17: the fit score never decreases when the coverage rates grow,
    when the fully-empty-row rate shrinks, or when negative depths
    disappear. *)
Theorem fit_score_monotone (sc : StandardColumns)
    (depth_rate depth_rate' rop_rate rop_rate' vib_rate vib_rate'
     time_rate time_rate' pct pct' : Q) (dn dn' : Z) :
  (depth_rate <= depth_rate')%Q -> (rop_rate <= rop_rate')%Q ->
  (vib_rate <= vib_rate')%Q -> (time_rate <= time_rate')%Q ->
  (pct' <= pct)%Q -> dn' <= dn ->
  clamp_score (fst (score_rules sc depth_rate rop_rate vib_rate time_rate pct dn))
  <= clamp_score
       (fst (score_rules sc depth_rate' rop_rate' vib_rate' time_rate' pct' dn')).
Proof.
  intros Hd Hr Hv Ht Hp Hn. rewrite !score_rules_sum.
  pose proof (tier_mono (otruthy (sc_depth sc)) _ _ (9 # 10) (7 # 10) 30 15 Hd
                ltac:(lia)) as Td.
  pose proof (tier_mono (otruthy (sc_rop sc)) _ _ (7 # 10) (4 # 10) 20 10 Hr
                ltac:(lia)) as Tr.
  pose proof (tier_mono (otruthy (sc_vibration sc)) _ _ (7 # 10) (4 # 10) 20 10 Hv
                ltac:(lia)) as Tv.
  assert (Tt : (if otruthy (sc_time sc) && Qltb (5 # 10) time_rate then 10 else 0)
               <= (if otruthy (sc_time sc) && Qltb (5 # 10) time_rate' then 10 else 0)).
  { destruct (otruthy (sc_time sc)); simpl; [|lia].
    destruct (Qltb (5 # 10) time_rate) eqn:A.
    - rewrite (Qltb_mono _ _ _ Ht A). lia.
    - destruct (Qltb (5 # 10) time_rate'); lia. }
  assert (Te : (if Qltb (1 # 10) pct' then 10 else 0)
               <= (if Qltb (1 # 10) pct then 10 else 0)).
  { destruct (Qltb (1 # 10) pct') eqn:A.
    - rewrite (Qltb_mono _ _ _ Hp A). lia.
    - destruct (Qltb (1 # 10) pct); lia. }
  assert (Tn : (if 0 <? dn' then 10 else 0) <= (if 0 <? dn then 10 else 0)).
  { destruct (0 <? dn') eqn:A.
    - apply Z.ltb_lt in A. assert (B : (0 <? dn) = true) by (apply Z.ltb_lt; lia).
      rewrite B. lia.
    - destruct (0 <? dn); lia. }
  unfold clamp_score. lia.
Qed.

Lemma fit_score_monotone_witness :
  (6 # 10 <= 95 # 100)%Q /\ (5 # 10 <= 5 # 10)%Q /\ (0 <= 1)%Q /\ (3 # 10 <= 6 # 10)%Q /\
  (0 <= 2 # 10)%Q /\ 0 <= 4 /\
  clamp_score (fst (score_rules (detect_standard_columns (ds_header demo_dataset))
                      (6 # 10) (5 # 10) 0 (3 # 10) (2 # 10) 4))
  <= clamp_score (fst (score_rules (detect_standard_columns (ds_header demo_dataset))
                         (95 # 100) (5 # 10) 1 (6 # 10) 0 0)).
Proof.
  assert (H1 : (6 # 10 <= 95 # 100)%Q) by (unfold Qle; simpl; lia).
  assert (H2 : (5 # 10 <= 5 # 10)%Q) by (unfold Qle; simpl; lia).
  assert (H3 : (0 <= 1)%Q) by (unfold Qle; simpl; lia).
  assert (H4 : (3 # 10 <= 6 # 10)%Q) by (unfold Qle; simpl; lia).
  assert (H5 : (0 <= 2 # 10)%Q) by (unfold Qle; simpl; lia).
  assert (H6 : 0 <= 4) by lia.
  split; [exact H1|]. split; [exact H2|]. split; [exact H3|]. split; [exact H4|].
  split; [exact H5|]. split; [exact H6|].
  exact (fit_score_monotone _ _ _ _ _ _ _ _ _ _ _ _ _ H1 H2 H3 H4 H5 H6).
Defined.

(* ================================================================== *)
(** * Outcomes and log lines of [analyze_dataset]                       *)
(* ================================================================== *)

(** X18: analysing a readable data set leaves the report file alone and
    prints, in this order, the large-file warning if and only if the
    file is larger than 500 MiB, and one heartbeat line for every ten
    chunks. *)
Theorem analyze_dataset_log (fs : FS) (name : string) (file : File)
    (ds : Dataset) (w : World) :
  fs name = Some file -> f_content file = Some ds ->
  exists r w' beats,
    analyze_dataset fs name w = (OK r, w') /\
    w_output w' = w_output w /\
    w_log w' = w_log w
               ++ (if 500 * 1024 * 1024 <? f_size file
                   then [LogLargeFile (f_size file)] else [])
               ++ beats /\
    len beats = len (ds_chunks ds) / 10 /\
    Forall (is_heartbeat name) beats.
Proof.
  intros Hfile Hds.
  destruct (analyze_dataset_exact fs name file ds w Hfile Hds)
    as (st & mness & nsum & dup & pct & w' & beats & E & _ & _ & _ & _ & _ & _
        & O & L & N & F).
  eexists; exists w', beats. split; [exact E|]. auto.
Qed.

Lemma analyze_dataset_log_witness :
  demo_fs "volve_drilling_best.csv" = Some (mkFile 1024 (Some demo_dataset)) /\
  f_content (mkFile 1024 (Some demo_dataset)) = Some demo_dataset /\
  exists r w',
    analyze_dataset demo_fs "volve_drilling_best.csv" empty_world = (OK r, w') /\
    w_log w' = [] /\ w_output w' = None.
Proof.
  split; [reflexivity|]. split; [reflexivity|].
  destruct (analyze_dataset_log demo_fs "volve_drilling_best.csv"
              (mkFile 1024 (Some demo_dataset)) demo_dataset empty_world
              eq_refl eq_refl) as (r & w' & beats & E & O & L & N & _).
  exists r, w'. split; [exact E|]. split; [|exact O].
  rewrite L. simpl.
  destruct beats as [|b beats]; [reflexivity|].
  rewrite len_cons in N. pose proof (len_nonneg beats).
  change (len (ds_chunks demo_dataset) / 10) with 0 in N. lia.
Defined.


(* ================================================================== *)
(** * More on the batch driver                                          *)
(* ================================================================== *)

Lemma discover_from_exact (fs : FS) (names : list string) :
  forall (paths : list string) (w : World),
    discover_from fs names paths w
    = (OK (paths ++ filter (file_exists fs) names),
       mkWorld (w_log w
                ++ map LogNotFound (filter (fun n => negb (file_exists fs n)) names))
               (w_output w)).
Proof.
  induction names as [|name rest IH]; intros paths w; simpl.
  - rewrite !app_nil_r. destruct w. reflexivity.
  - destruct (file_exists fs name) eqn:Ex; simpl.
    + rewrite IH, <- app_assoc. reflexivity.
    + unfold ibind, log. rewrite IH. simpl. rewrite <- app_assoc. reflexivity.
Qed.

(** X20: [discover_datasets] never raises; it returns the candidate
    files that exist, in priority order, and prints one "not found" line
    for every missing candidate, in the same order, and nothing else. *)
Theorem discover_datasets_exact (fs : FS) (w : World) :
  discover_datasets fs w
  = (OK (filter (file_exists fs) dataset_candidates),
     mkWorld (w_log w
              ++ map LogNotFound
                   (filter (fun n => negb (file_exists fs n)) dataset_candidates))
             (w_output w)).
Proof.
  unfold discover_datasets. rewrite discover_from_exact. reflexivity.
Qed.

Lemma split_readable (fs : FS) (names : list string) :
  (forall n, In n names -> file_exists fs n = true) ->
  Forall (readable fs) names \/
  exists pre name post file,
    names = pre ++ name :: post /\ Forall (readable fs) pre /\
    fs name = Some file /\ f_content file = None.
Proof.
  induction names as [|n rest IH]; intros Hex.
  - left. constructor.
  - assert (Hn : file_exists fs n = true) by (apply Hex; left; reflexivity).
    unfold file_exists in Hn. destruct (fs n) as [file|] eqn:Hfile; [|discriminate].
    destruct (f_content file) as [ds|] eqn:Hds.
    + destruct IH as [Hall|(pre & name & post & file' & -> & Hpre & Hf & Hc)].
      * intros m Hm. apply Hex. right. exact Hm.
      * left. constructor; [exists file, ds; auto | exact Hall].
      * right. exists (n :: pre), name, post, file'.
        split; [reflexivity|]. split; [|auto].
        constructor; [exists file, ds; auto | exact Hpre].
    + right. exists [], n, rest, file. split; [reflexivity|].
      split; [constructor | auto].
Qed.

(** X21: [main] either returns normally, and then every existing
    candidate file was readable, or it raises the read error of an
    existing candidate file that cannot be read; it raises nothing else,
    and when it raises the report is left untouched and the last line
    printed is the error. *)
Theorem main_outcome (fs : FS) (w : World) :
  exists w',
    (main fs w = (OK tt, w') /\ Forall (readable fs) (existing_datasets fs)) \/
    (exists name file,
        In name (existing_datasets fs) /\
        fs name = Some file /\ f_content file = None /\
        main fs w = (Raise (ReadError name), w') /\
        w_output w' = w_output w /\
        exists before, w_log w' = before ++ [LogError (ReadError name)]).
Proof.
  destruct (main_reaches_loop fs w) as (w3 & (O3 & L3) & _ & Emain).
  destruct (split_readable fs (existing_datasets fs)) as
    [Hall|(pre & name & post & file & Ex & Hpre & Hfile & Hnone)].
  { intros n Hn. unfold existing_datasets in Hn. apply filter_In in Hn. tauto. }
  - rewrite Emain. unfold try_log.
    destruct (existing_datasets fs) as [|n rest] eqn:Ex.
    + eexists. left. split; [reflexivity | constructor].
    + destruct (analyze_all_ok fs (n :: rest) Hall w3) as (recs & w4 & E4 & _ & _).
      rewrite (ibind_ok _ _ _ _ _ E4).
      rewrite (ibind_ok (write_output (mkReport recs)) _ w4
                 (snd (write_output (mkReport recs) w4)) tt eq_refl).
      eexists. left. split; [reflexivity | exact Hall].
  - rewrite Emain. unfold try_log. rewrite Ex.
    destruct (analyze_all_aborts fs pre name post file Hpre Hfile Hnone w3)
      as (w4 & E4 & (O4 & L4)).
    assert (Etail : match pre ++ name :: post with
                    | [] => log LogNoDatasets
                    | _ :: _ =>
                        ibind (io_map (analyze_one fs) (pre ++ name :: post))
                          (fun results =>
                             ibind (write_output (mkReport results))
                               (fun _ => log LogWrote))
                    end w3 = (Raise (ReadError name), w4)).
    { destruct (pre ++ name :: post) eqn:El.
      - destruct pre; discriminate.
      - apply ibind_raise. exact E4. }
    rewrite Etail. eexists. right. exists name, file.
    split; [apply in_or_app; right; left; reflexivity|].
    split; [exact Hfile|]. split; [exact Hnone|]. split; [reflexivity|].
    simpl. split; [congruence|]. eexists. reflexivity.
Qed.

(** X22: when none of the candidate files exists, [main] returns
    normally without writing a report, after printing the start and
    configuration lines, one "not found" line per candidate, the
    primary-missing line and the no-datasets line. *)
Theorem main_without_datasets (fs : FS) (w : World) :
  existing_datasets fs = [] ->
  main fs w
  = (OK tt,
     mkWorld (w_log w
              ++ [LogStarting;
                  LogConfig 200000 200000 (500 * 1024 * 1024);
                  LogNotFound "volve_drilling_ares1_ready.csv";
                  LogNotFound "volve_drilling_best.csv";
                  LogNotFound "volve_drilling_best_wide.csv";
                  LogPrimaryMissing;
                  LogNoDatasets])
             (w_output w)).
Proof.
  intros Hnone.
  assert (Hex : forall n, In n dataset_candidates -> file_exists fs n = false).
  { intros n Hin. destruct (file_exists fs n) eqn:Ex; [|reflexivity].
    assert (Hf : In n (existing_datasets fs)).
    { unfold existing_datasets. apply filter_In. auto. }
    rewrite Hnone in Hf. destruct Hf. }
  assert (H1 : file_exists fs PRIMARY_DATASET_NAME = false)
    by (apply Hex; simpl; tauto).
  assert (H2 : file_exists fs "volve_drilling_best.csv" = false)
    by (apply Hex; simpl; tauto).
  assert (H3 : file_exists fs "volve_drilling_best_wide.csv" = false)
    by (apply Hex; simpl; tauto).
  unfold main, try_log.
  rewrite (ibind_ok (log LogStarting) _ w (snd (log LogStarting w)) tt eq_refl).
  rewrite (ibind_ok
             (log (LogConfig CHUNK_SIZE DUPLICATE_SAMPLE_ROWS LARGE_FILE_BYTES))
             _ _ (snd (log (LogConfig CHUNK_SIZE DUPLICATE_SAMPLE_ROWS LARGE_FILE_BYTES)
                         (snd (log LogStarting w)))) tt eq_refl).
  rewrite (ibind_ok (discover_datasets fs) _ _ _ _
             (discover_from_exact fs dataset_candidates [] _)).
  rewrite app_nil_l.
  fold (existing_datasets fs). rewrite Hnone, H1.
  unfold dataset_candidates. cbn [filter]. rewrite H1, H2, H3.
  cbn [negb map]. unfold ibind, log. cbn [fst snd w_log w_output].
  rewrite <- !app_assoc. reflexivity.
Qed.

Lemma main_without_datasets_witness :
  existing_datasets (fun _ => None) = [] /\
  main (fun _ => None) empty_world
  = (OK tt,
     mkWorld ([] ++ [LogStarting;
                     LogConfig 200000 200000 (500 * 1024 * 1024);
                     LogNotFound "volve_drilling_ares1_ready.csv";
                     LogNotFound "volve_drilling_best.csv";
                     LogNotFound "volve_drilling_best_wide.csv";
                     LogPrimaryMissing;
                     LogNoDatasets])
             None).
Proof.
  split; [reflexivity|].
  exact (main_without_datasets (fun _ => None) empty_world eq_refl).
Defined.

(* ================================================================== *)
(** * Soundness of the resolution, and what does not depend on chunks   *)
(* ================================================================== *)

(** X23: a column returned by [find_column] is a column of the header
    that matches one of the candidates: its normalized name equals the
    candidate's, or contains the candidate's non-empty normalized
    name. *)
Theorem find_column_sound (columns candidates : list string) (h : string) :
  find_column columns candidates = Some h ->
  In h columns /\
  exists c, In c candidates /\
            (normalize_name h = normalize_name c \/
             (truthy (normalize_name c) = true /\
              str_in (normalize_name c) (normalize_name h) = true)).
Proof.
  rewrite find_column_lists. unfold find_column_on_lists.
  destruct (exact_pass columns candidates) as [h'|] eqn:E.
  - intros [= ->]. induction candidates as [|c rest IH]; [discriminate|].
    simpl in E.
    destruct (last_with_norm columns (normalize_name c)) as [h1|] eqn:L.
    + injection E as ->. apply last_with_norm_some in L. destruct L as [Hin Hn].
      split; [exact Hin|]. exists c. split; [left; reflexivity | left; exact Hn].
    + destruct (IH E) as (Hin & c' & Hc & Hm). split; [exact Hin|].
      exists c'. split; [right; exact Hc | exact Hm].
  - clear E. induction candidates as [|c rest IH]; [discriminate|].
    simpl. destruct (substring_hit columns (normalize_name c)) as [h1|] eqn:S.
    + intros [= ->]. unfold substring_hit in S.
      destruct (truthy (normalize_name c)) eqn:Tc; [|discriminate].
      destruct (find (fun h0 => str_in (normalize_name c) (normalize_name h0)) columns)
        as [h0|] eqn:F0; [|discriminate].
      apply last_with_norm_some in S. destruct S as [Hin Hn].
      apply find_some in F0. destruct F0 as [_ S0]. rewrite <- Hn in S0.
      split; [exact Hin|]. exists c. split; [left; reflexivity | right; auto].
    + intros H. destruct (IH H) as (Hin & c' & Hc & Hm). split; [exact Hin|].
      exists c'. split; [right; exact Hc | exact Hm].
Qed.

Lemma find_column_sound_witness :
  find_column ["Bit Depth"; "ROP avg (m/h)"] rop_candidates = Some "ROP avg (m/h)" /\
  In "ROP avg (m/h)" ["Bit Depth"; "ROP avg (m/h)"] /\
  exists c, In c rop_candidates /\
            (normalize_name "ROP avg (m/h)" = normalize_name c \/
             (truthy (normalize_name c) = true /\
              str_in (normalize_name c) (normalize_name "ROP avg (m/h)") = true)).
Proof.
  split; [reflexivity|].
  exact (find_column_sound ["Bit Depth"; "ROP avg (m/h)"] rop_candidates
           "ROP avg (m/h)" eq_refl).
Defined.

Lemma rate_of_ext (header : list string) (o : option string)
    (m1 m2 : dict Missingness) :
  (forall c, In c header -> dict_get c m1 = dict_get c m2) ->
  (forall c, o = Some c -> In c header) ->
  rate_of o m1 = rate_of o m2.
Proof.
  intros Hext Hin. unfold rate_of, get_if. destruct o as [c|]; [|reflexivity].
  destruct (truthy c); [|reflexivity].
  rewrite (Hext c (Hin c eq_refl)). reflexivity.
Qed.

(** X24: where the chunk boundaries fall matters only through the cells:
    two readable data sets with the same header, without repeated names,
    whose chunks hold, row for row, the same cells as parsed (which two
    cuts of one file do only if the type pandas infers for each column
    is the same in every chunk of both), get the same row count, the
    same missingness entry for every column, the same fully-empty-row
    count and rate, the same negative-depth and out-of-range counters,
    the same duplicate-sample figures, and the same fit score with the
    same notes. *)
Theorem same_cells_same_analysis
    (fs1 fs2 : FS) (name1 name2 : string) (file1 file2 : File)
    (ds1 ds2 : Dataset) (w1 w2 : World) :
  fs1 name1 = Some file1 -> f_content file1 = Some ds1 ->
  fs2 name2 = Some file2 -> f_content file2 = Some ds2 ->
  ds_header ds1 = ds_header ds2 -> NoDup (ds_header ds1) ->
  List.concat (ds_chunks ds1) = List.concat (ds_chunks ds2) ->
  exists r1 r2 w1' w2',
    analyze_dataset fs1 name1 w1 = (OK r1, w1') /\
    analyze_dataset fs2 name2 w2 = (OK r2, w2') /\
    rows r1 = rows r2 /\
    (forall col, In col (ds_header ds1) ->
       dict_get col (missingness r1) = dict_get col (missingness r2)) /\
    fully_empty_rows r1 = fully_empty_rows r2 /\
    fully_empty_row_pct r1 = fully_empty_row_pct r2 /\
    negative_count (depth r1) = negative_count (depth r2) /\
    out_of_range_count (vibration r1) = out_of_range_count (vibration r2) /\
    sample_rows (duplicate_sample r1) = sample_rows (duplicate_sample r2) /\
    duplicate_rows (duplicate_sample r1) = duplicate_rows (duplicate_sample r2) /\
    duplicate_rate (duplicate_sample r1) = duplicate_rate (duplicate_sample r2) /\
    fit_score r1 = fit_score r2 /\
    fit_score_notes r1 = fit_score_notes r2.
Proof.
  intros Hf1 Hd1 Hf2 Hd2 Hhead ND Hrows.
  destruct (analyze_dataset_exact fs1 name1 file1 ds1 w1 Hf1 Hd1)
    as (st1 & m1 & n1 & d1 & p1 & w1' & b1 & E1 & I1 & C1 & K1 & T1 & M1 & _).
  destruct (analyze_dataset_exact fs2 name2 file2 ds2 w2 Hf2 Hd2)
    as (st2 & m2 & n2 & d2 & p2 & w2' & b2 & E2 & I2 & C2 & K2 & T2 & M2 & _).
  rewrite <- Hhead, <- Hrows in *.
  specialize (K1 ND). specialize (K2 ND).
  set (header := ds_header ds1) in *.
  set (seen := List.concat (ds_chunks ds1)) in *.
  set (sc := detect_standard_columns header) in *.
  set (vr := expect_vibration_range (sc_vibration sc)) in *.
  eexists; eexists; exists w1', w2'. split; [exact E1|]. split; [exact E2|].
  rewrite !fit_score_assemble.
  destruct (assemble_fields name1 (f_size file1) header sc vr st1 m1 n1 d1 p1)
    as (Ra & _ & Ma & _ & Fa & Pa & Da & Sa & _ & Na & Ta).
  destruct (assemble_fields name2 (f_size file2) header sc vr st2 m2 n2 d2 p2)
    as (Rb & _ & Mb & _ & Fb & Pb & Db & Sb & _ & Nb & Tb).
  destruct (assemble_more_fields name1 (f_size file1) header sc vr st1 m1 n1 d1 p1)
    as (_ & NTa & _ & _ & Oa & _).
  destruct (assemble_more_fields name2 (f_size file2) header sc vr st2 m2 n2 d2 p2)
    as (_ & NTb & _ & _ & Ob & _).
  rewrite Ra, Rb, Ma, Mb, Fa, Fb, Pa, Pb, Da, Db, Sa, Sb, Na, Nb, Ta, Tb,
    NTa, NTb, Oa, Ob.
  assert (Hrc : row_count st1 = row_count st2).
  { rewrite (inv_rows _ _ _ _ I1), (inv_rows _ _ _ _ I2). reflexivity. }
  assert (Hfe : fully_empty st1 = fully_empty st2).
  { rewrite (cnt_empty _ _ _ _ _ C1), (cnt_empty _ _ _ _ _ C2). reflexivity. }
  assert (Hdn : depth_negative st1 = depth_negative st2).
  { rewrite (cnt_depth _ _ _ _ _ C1), (cnt_depth _ _ _ _ _ C2). reflexivity. }
  assert (Hvo : vibration_out_of_range st1 = vibration_out_of_range st2).
  { rewrite (cnt_vibration _ _ _ _ _ C1), (cnt_vibration _ _ _ _ _ C2). reflexivity. }
  assert (Hp : p1 = p2).
  { rewrite (tbl_pct _ _ _ _ _ _ _ T1), (tbl_pct _ _ _ _ _ _ _ T2), Hrc, Hfe.
    reflexivity. }
  assert (Hm : forall col, In col header -> dict_get col m1 = dict_get col m2).
  { intros col Hin.
    destruct (M1 col Hin) as (x1 & G1 & ->). destruct (M2 col Hin) as (x2 & G2 & ->).
    rewrite (col_missing _ _ _ K1 col Hin) in G1.
    rewrite (col_missing _ _ _ K2 col Hin) in G2. congruence. }
  assert (Hfr : List.concat (sample_frames st1) = List.concat (sample_frames st2)).
  { rewrite (inv_sample _ _ _ _ I1), (inv_sample _ _ _ _ I2). reflexivity. }
  assert (Hin : forall o, (o = sc_depth sc \/ o = sc_rop sc \/
                           o = sc_vibration sc \/ o = sc_time sc) ->
                          forall c, o = Some c -> In c header).
  { intros o Ho c ->.
    destruct Ho as [H|[H|[H|H]]]; symmetry in H;
      apply find_column_some in H; exact (proj1 H). }
  assert (R1 : rate_of (sc_depth sc) m1 = rate_of (sc_depth sc) m2).
  { apply (rate_of_ext header); [exact Hm | apply Hin; tauto]. }
  assert (R2 : rate_of (sc_rop sc) m1 = rate_of (sc_rop sc) m2).
  { apply (rate_of_ext header); [exact Hm | apply Hin; tauto]. }
  assert (R3 : rate_of (sc_vibration sc) m1 = rate_of (sc_vibration sc) m2).
  { apply (rate_of_ext header); [exact Hm | apply Hin; tauto]. }
  assert (R4 : rate_of (sc_time sc) m1 = rate_of (sc_time sc) m2).
  { apply (rate_of_ext header); [exact Hm | apply Hin; tauto]. }
  rewrite R1, R2, R3, R4.
  rewrite (tbl_sample_rows _ _ _ _ _ _ _ T1), (tbl_sample_rows _ _ _ _ _ _ _ T2),
    (tbl_duplicate_rows _ _ _ _ _ _ _ T1), (tbl_duplicate_rows _ _ _ _ _ _ _ T2),
    (tbl_duplicate_rate _ _ _ _ _ _ _ T1), (tbl_duplicate_rate _ _ _ _ _ _ _ T2).
  rewrite Hfr, Hp, Hdn, Hvo, Hfe, Hrc.
  repeat split; try reflexivity. exact Hm.
Qed.

Lemma same_cells_same_analysis_witness :
  ds_header demo_dataset = ds_header demo_rechunked /\
  NoDup (ds_header demo_dataset) /\
  List.concat (ds_chunks demo_dataset) = List.concat (ds_chunks demo_rechunked) /\
  ds_chunks demo_dataset <> ds_chunks demo_rechunked /\
  exists r1 r2 w1' w2',
    analyze_dataset (one_file demo_dataset) "a.csv" empty_world = (OK r1, w1') /\
    analyze_dataset (one_file demo_rechunked) "b.csv" empty_world = (OK r2, w2') /\
    rows r1 = rows r2 /\ fit_score r1 = fit_score r2.
Proof.
  split; [reflexivity|]. split; [exact demo_header_nodup|].
  split; [reflexivity|]. split; [discriminate|].
  destruct (same_cells_same_analysis
              (one_file demo_dataset) (one_file demo_rechunked) "a.csv" "b.csv"
              (mkFile 64 (Some demo_dataset)) (mkFile 64 (Some demo_rechunked))
              demo_dataset demo_rechunked empty_world empty_world
              eq_refl eq_refl eq_refl eq_refl eq_refl demo_header_nodup eq_refl)
    as (r1 & r2 & w1' & w2' & E1 & E2 & Hr & _ & _ & _ & _ & _ & _ & _ & _ & Hs & _).
  exists r1, r2, w1', w2'. auto.
Defined.

Lemma tier_bound (o : option string) (rate upper lower : Q) (full half : Z) :
  0 <= half <= full ->
  tier (otruthy o) rate upper lower full half
  <= match o with Some _ => full | None => 0 end.
Proof.
  intros H. unfold tier. destruct o as [c|]; simpl.
  - destruct (truthy c && Qltb upper rate); [lia|].
    destruct (truthy c && Qltb lower rate); lia.
  - lia.
Qed.

(** X25: for a readable data set the fit score is at most the points of
    the standard columns that were resolved: 30 for depth, 20 for ROP, 20
    for vibration and 10 for time; a header in which none is resolved
    scores 0 whatever the rows hold. *)
Theorem fit_score_resolved_bound (fs : FS) (name : string) (file : File)
    (ds : Dataset) (w : World) :
  fs name = Some file -> f_content file = Some ds ->
  exists r w',
    analyze_dataset fs name w = (OK r, w') /\
    let sc := detect_standard_columns (ds_header ds) in
    0 <= fit_score r /\
    fit_score r
    <= match sc_depth sc with Some _ => 30 | None => 0 end
       + match sc_rop sc with Some _ => 20 | None => 0 end
       + match sc_vibration sc with Some _ => 20 | None => 0 end
       + match sc_time sc with Some _ => 10 | None => 0 end.
Proof.
  intros Hfile Hds.
  destruct (analyze_dataset_runs fs name file ds w Hfile Hds)
    as (st & mness & nsum & dup & pct & w' & E & _).
  eexists; eexists. split; [exact E|].
  rewrite fit_score_assemble.
  destruct (assemble_fields name (f_size file) (ds_header ds)
              (detect_standard_columns (ds_header ds))
              (expect_vibration_range
                 (sc_vibration (detect_standard_columns (ds_header ds))))
              st mness nsum dup pct) as (_ & _ & _ & _ & _ & _ & _ & S & _).
  cbv zeta. rewrite S, score_rules_sum.
  set (sc := detect_standard_columns (ds_header ds)).
  match goal with
  | |- context [tier (otruthy (sc_depth sc)) ?a ?u ?l 30 15] =>
      pose proof (tier_bound (sc_depth sc) a u l 30 15 ltac:(lia)) as B1
  end.
  match goal with
  | |- context [tier (otruthy (sc_rop sc)) ?a ?u ?l 20 10] =>
      pose proof (tier_bound (sc_rop sc) a u l 20 10 ltac:(lia)) as B2
  end.
  match goal with
  | |- context [tier (otruthy (sc_vibration sc)) ?a ?u ?l 20 10] =>
      pose proof (tier_bound (sc_vibration sc) a u l 20 10 ltac:(lia)) as B3
  end.
  assert (B4 : forall b : bool,
             (if otruthy (sc_time sc) && b then 10 else 0)
             <= match sc_time sc with Some _ => 10 | None => 0 end).
  { intros b. destruct (sc_time sc) as [c|]; simpl; [|lia].
    destruct (truthy c && b); lia. }
  match goal with
  | |- context [otruthy (sc_time sc) && ?b] => specialize (B4 b)
  end.
  assert (P1 : 0 <= match sc_depth sc with Some _ => 30 | None => 0 end)
    by (destruct (sc_depth sc); lia).
  assert (P2 : 0 <= match sc_rop sc with Some _ => 20 | None => 0 end)
    by (destruct (sc_rop sc); lia).
  assert (P3 : 0 <= match sc_vibration sc with Some _ => 20 | None => 0 end)
    by (destruct (sc_vibration sc); lia).
  assert (P4 : 0 <= match sc_time sc with Some _ => 10 | None => 0 end)
    by (destruct (sc_time sc); lia).
  unfold clamp_score.
  destruct (Qltb (1 # 10) _); destruct (0 <? _); lia.
Qed.

Lemma fit_score_resolved_bound_witness :
  exists r w',
    analyze_dataset (one_file unnamed_dataset) "u.csv" empty_world = (OK r, w') /\
    fit_score r = 0.
Proof.
  destruct (fit_score_resolved_bound (one_file unnamed_dataset) "u.csv"
              (mkFile 64 (Some unnamed_dataset)) unnamed_dataset empty_world
              eq_refl eq_refl) as (r & w' & E & H0 & H1).
  exists r, w'. split; [exact E|]. simpl in H1. lia.
Defined.

(* ================================================================== *)
(** * The running statistics in double precision                        *)
(* ================================================================== *)

Section Binary64.
Import SpecFloat.

Lemma digits2_size (p : positive) : digits2_pos p = Pos.size p.
Proof. induction p; simpl; congruence. Qed.

Lemma digits2_iter_xO (k p : positive) :
  digits2_pos (Pos.iter xO p k) = (digits2_pos p + k)%positive.
Proof.
  revert p. induction k using Pos.peano_ind; intros p.
  - simpl. lia.
  - rewrite Pos.iter_succ. simpl. rewrite IHk. lia.
Qed.

Lemma digits2_bound (p : positive) :
  Zpos p < 2 ^ 53 -> Zpos (digits2_pos p) <= 53.
Proof.
  intros H. rewrite digits2_size.
  pose proof (Pos.size_le p) as L.
  destruct (Z_le_gt_dec (Zpos (Pos.size p)) 53) as [|G]; [assumption|exfalso].
  apply Pos2Z.pos_le_pos in L. rewrite Pos2Z.inj_pow in L.
  change (Z.pos 2) with 2 in L. rewrite (Pos2Z.inj_xO p) in L.
  assert (E : 2 ^ 54 <= 2 ^ Zpos (Pos.size p)) by (apply Z.pow_le_mono_r; lia).
  change (2 ^ 53) with 9007199254740992 in H.
  change (2 ^ 54) with 18014398509481984 in E. lia.
Qed.

(** A 53-bit mantissa with an exponent in range is not rounded. *)
Lemma binary_round_aux_exact (mz : positive) (ez : Z) :
  Zpos (digits2_pos mz) = 53 -> -1074 <= ez <= 971 ->
  binary_round_aux Float64.prec Float64.emax false (Zpos mz) ez loc_Exact
  = S754_finite false mz ez.
Proof.
  intros D B.
  assert (F : fexp Float64.prec Float64.emax (Zpos (digits2_pos mz) + ez) - ez = 0).
  { rewrite D. unfold fexp, emin, Float64.prec, Float64.emax. lia. }
  unfold binary_round_aux, shr_fexp. cbn [Zdigits2 shr_record_of_loc].
  rewrite F. cbn [shr shr_m loc_of_shr_record round_nearest_even Zdigits2
                  shr_record_of_loc].
  rewrite F. cbn [shr shr_m].
  assert (L : (ez <=? Float64.emax - Float64.prec) = true).
  { apply Z.leb_le. unfold Float64.prec, Float64.emax. lia. }
  rewrite L. reflexivity.
Qed.

(** Counts below 2^53 convert to a positive finite double. *)
Lemma float_of_int_small (n : Z) :
  0 < n < 2 ^ 53 ->
  exists m e, Float64.float_of_int n = OK (S754_finite false m e).
Proof.
  intros [Hpos Hlt]. unfold Float64.float_of_int.
  destruct (2 ^ 1024 - 2 ^ 970 <=? Z.abs n) eqn:B.
  { apply Z.leb_le in B. exfalso.
    assert (2 ^ 53 < 2 ^ 1024 - 2 ^ 970) by (vm_compute; reflexivity).
    rewrite Z.abs_eq in B by lia. lia. }
  destruct n as [|p|p]; try lia.
  pose proof (digits2_bound p Hlt) as D.
  unfold binary_normalize, binary_round.
  assert (F : fexp Float64.prec Float64.emax (Zpos (digits2_pos p) + 0)
              = Zpos (digits2_pos p) - 53).
  { unfold fexp, emin, Float64.prec, Float64.emax. lia. }
  rewrite F. unfold shl_align.
  destruct (Zpos (digits2_pos p) - 53 - 0) as [|k|k] eqn:K; try lia.
  - eexists; eexists. rewrite binary_round_aux_exact; [reflexivity | lia | lia].
  - eexists; eexists. rewrite binary_round_aux_exact; [reflexivity | | lia].
    rewrite digits2_iter_xO. lia.
Qed.

Lemma mul_int_small (x : Float64.float) (n : Z) :
  0 < n < 2 ^ 53 -> exists y, Float64.mul_int x n = OK y.
Proof.
  intros H. destruct (float_of_int_small n H) as (m & e & E).
  unfold Float64.mul_int. rewrite E. simpl. eexists; reflexivity.
Qed.

Lemma div_int_small (x : Float64.float) (n : Z) :
  0 < n < 2 ^ 53 -> exists y, Float64.div_int x n = OK y.
Proof.
  intros H. destruct (float_of_int_small n H) as (m & e & E).
  unfold Float64.div_int. rewrite E. simpl. eexists; reflexivity.
Qed.

Ltac order_cases :=
  repeat match goal with
  | |- context [Z.compare ?a ?b] =>
      destruct (Z.compare_spec a b); subst
  | H : context [Z.compare ?a ?b] |- _ =>
      destruct (Z.compare_spec a b); subst
  | |- context [Pos.compare_cont Eq ?a ?b] =>
      fold (Pos.compare a b); destruct (Pos.compare_spec a b); subst
  | H : context [Pos.compare_cont Eq ?a ?b] |- _ =>
      fold (Pos.compare a b) in H; destruct (Pos.compare_spec a b); subst
  end.

(** [<] on doubles is transitive, and on doubles other than NaN the
    order is total. *)
Lemma flt_trans (x y z : Float64.float) :
  Float64.flt x y = true -> Float64.flt y z = true -> Float64.flt x z = true.
Proof.
  unfold Float64.flt, SFltb.
  destruct x as [[]|[]| |[] mx ex], y as [[]|[]| |[] my ey], z as [[]|[]| |[] mz ez];
    simpl; try discriminate; try reflexivity;
    order_cases; simpl; try discriminate; try reflexivity; intros; lia.
Qed.

Lemma flt_between (x y z : Float64.float) :
  Float64.isnan y = false -> Float64.flt x z = true ->
  Float64.flt x y = true \/ Float64.flt y z = true.
Proof.
  unfold Float64.flt, SFltb.
  destruct x as [[]|[]| |[] mx ex], y as [[]|[]| |[] my ey], z as [[]|[]| |[] mz ez];
    simpl; try discriminate; auto;
    order_cases; simpl; try discriminate; auto; intros; lia.
Qed.

Lemma flt_irrefl (x : Float64.float) : Float64.flt x x = false.
Proof.
  unfold Float64.flt, SFltb.
  destruct x as [[]|[]| |[] mx ex]; simpl; try reflexivity;
    rewrite Z.compare_refl; fold (Pos.compare mx mx); rewrite Pos.compare_refl;
    reflexivity.
Qed.

Lemma dropna_cells (series : Float64.Series) :
  Forall (fun c => Float64.isnan c = false) (Float64.dropna series).
Proof.
  apply Forall_forall. intros c H. unfold Float64.dropna in H.
  apply filter_In in H. destruct H as [_ H]. destruct (Float64.isnan c);
    [discriminate | reflexivity].
Qed.

Lemma dropna_app (a b : Float64.Series) :
  Float64.dropna (a ++ b) = Float64.dropna a ++ Float64.dropna b.
Proof. apply filter_app. Qed.

Lemma dropna_concat (batches : list Float64.Series) :
  Float64.dropna (List.concat batches)
  = List.concat (map Float64.dropna batches).
Proof.
  induction batches as [|b rest IH]; simpl; [reflexivity|].
  rewrite dropna_app, IH. reflexivity.
Qed.

Lemma len_dropna (series : Float64.Series) :
  0 <= len (Float64.dropna series) <= len series.
Proof.
  unfold len, Float64.dropna.
  pose proof (filter_length_le (fun x => negb (Float64.isnan x)) series). lia.
Qed.

(** The least of the values so far, while the loop of [min] runs. *)
Lemma fold_min64_bound (rest before : list Float64.float) (acc : Float64.float) :
  Forall (fun c => Float64.isnan c = false) (before ++ rest) ->
  In acc before -> (forall c, In c before -> Float64.flt c acc = false) ->
  let m := fold_left (fun acc v => if Float64.flt v acc then v else acc) rest acc in
  In m (before ++ rest) /\
  forall c, In c (before ++ rest) -> Float64.flt c m = false.
Proof.
  revert before acc. induction rest as [|v rest IH]; intros before acc Hn Hin Hlow.
  - simpl. rewrite app_nil_r. auto.
  - simpl.
    assert (Hv : Float64.isnan v = false).
    { rewrite Forall_forall in Hn. apply Hn. apply in_or_app. right. left.
      reflexivity. }
    assert (Hacc : Float64.isnan acc = false).
    { rewrite Forall_forall in Hn. apply Hn. apply in_or_app. left. exact Hin. }
    replace (before ++ v :: rest) with ((before ++ [v]) ++ rest) in *
      by (rewrite <- app_assoc; reflexivity).
    destruct (Float64.flt v acc) eqn:L.
    + apply IH; [exact Hn | apply in_or_app; right; left; reflexivity |].
      intros c Hc. apply in_app_or in Hc. destruct Hc as [Hc|[<-|[]]].
      * destruct (Float64.flt c v) eqn:L2; [|reflexivity].
        rewrite <- (Hlow c Hc). symmetry. exact (flt_trans c v acc L2 L).
      * apply flt_irrefl.
    + apply IH; [exact Hn | apply in_or_app; left; exact Hin |].
      intros c Hc. apply in_app_or in Hc. destruct Hc as [Hc|[<-|[]]].
      * exact (Hlow c Hc).
      * exact L.
Qed.

Lemma fold_max64_bound (rest before : list Float64.float) (acc : Float64.float) :
  Forall (fun c => Float64.isnan c = false) (before ++ rest) ->
  In acc before -> (forall c, In c before -> Float64.flt acc c = false) ->
  let m := fold_left (fun acc v => if Float64.flt acc v then v else acc) rest acc in
  In m (before ++ rest) /\
  forall c, In c (before ++ rest) -> Float64.flt m c = false.
Proof.
  revert before acc. induction rest as [|v rest IH]; intros before acc Hn Hin Hup.
  - simpl. rewrite app_nil_r. auto.
  - simpl.
    replace (before ++ v :: rest) with ((before ++ [v]) ++ rest) in *
      by (rewrite <- app_assoc; reflexivity).
    destruct (Float64.flt acc v) eqn:L.
    + apply IH; [exact Hn | apply in_or_app; right; left; reflexivity |].
      intros c Hc. apply in_app_or in Hc. destruct Hc as [Hc|[<-|[]]].
      * destruct (Float64.flt v c) eqn:L2; [|reflexivity].
        rewrite <- (Hup c Hc). symmetry. exact (flt_trans acc v c L L2).
      * apply flt_irrefl.
    + apply IH; [exact Hn | apply in_or_app; left; exact Hin |].
      intros c Hc. apply in_app_or in Hc. destruct Hc as [Hc|[<-|[]]].
      * exact (Hup c Hc).
      * exact L.
Qed.

Lemma series_min64_least (values : list Float64.float) :
  values <> [] -> Forall (fun c => Float64.isnan c = false) values ->
  In (Float64.series_min values) values /\
  forall c, In c values -> Float64.flt c (Float64.series_min values) = false.
Proof.
  destruct values as [|x rest]; [congruence|]. intros _ Hn.
  apply (fold_min64_bound rest [x] x Hn); [left; reflexivity|].
  intros c [<-|[]]. apply flt_irrefl.
Qed.

Lemma series_max64_greatest (values : list Float64.float) :
  values <> [] -> Forall (fun c => Float64.isnan c = false) values ->
  In (Float64.series_max values) values /\
  forall c, In c values -> Float64.flt (Float64.series_max values) c = false.
Proof.
  destruct values as [|x rest]; [congruence|]. intros _ Hn.
  apply (fold_max64_bound rest [x] x Hn); [left; reflexivity|].
  intros c [<-|[]]. apply flt_irrefl.
Qed.

Lemma flt_nan_l (m : Float64.float) : Float64.flt S754_nan m = false.
Proof. reflexivity. Qed.

Lemma flt_nan_r (m : Float64.float) : Float64.flt m S754_nan = false.
Proof. destruct m as [[]|[]| |[] mx ex]; reflexivity. Qed.

(** One [update] in double precision: it returns as long as the count
    stays below 2^53, and the accumulator goes on tracking the cells. *)
Lemma update64_tracks (series_sum : list Float64.float -> Float64.float)
    (s : Float64.RunningStat) (seen : list Float64.float)
    (series : Float64.Series) :
  tracks64 s seen ->
  len seen + len (Float64.dropna series) < 2 ^ 53 ->
  exists s', Float64.update series_sum s series = OK s' /\
             tracks64 s' (seen ++ Float64.dropna series).
Proof.
  intros T B. unfold Float64.update.
  pose proof (dropna_cells series) as Hn.
  destruct (Float64.dropna series) as [|v vs] eqn:Dv.
  { exists s. rewrite app_nil_r. auto. }
  set (values := v :: vs) in *.
  assert (Hne : values <> []) by discriminate.
  assert (Hc : 0 < len values) by (apply len_pos; exact Hne).
  pose proof (len_nonneg seen) as Hs.
  destruct (series_min64_least values Hne Hn) as [Imin Lmin].
  destruct (series_max64_greatest values Hne Hn) as [Imax Lmax].
  assert (Hcells : Forall (fun c => Float64.isnan c = false) (seen ++ values)).
  { apply Forall_app. split; [exact (t64_cells _ _ T) | exact Hn]. }
  destruct (mul_int_small (Float64.series_var0 series_sum values) (len values))
    as (cm2 & E1); [lia|].
  rewrite E1. cbn [ebind].
  destruct (Float64.count s =? 0) eqn:C0.
  - apply Z.eqb_eq in C0. rewrite (t64_count _ _ T) in C0.
    assert (seen = []) as -> by (destruct seen; [reflexivity | discriminate C0]).
    rewrite (t64_fresh _ _ T eq_refl). cbn [ebind Float64.min_value Float64.max_value
      Float64.fresh_stat app].
    eexists. split; [reflexivity|].
    constructor; cbn [Float64.count Float64.min_value Float64.max_value];
      [exact Hn | reflexivity | intros H; contradiction | auto | auto].
  - apply Z.eqb_neq in C0. rewrite (t64_count _ _ T) in *.
    set (delta := Float64.fsub (Float64.series_mean series_sum values) (Float64.mean s)).
    destruct (mul_int_small delta (len values)) as (dn & E2); [lia|].
    destruct (div_int_small dn (len seen + len values)) as (dm & E3); [lia|].
    destruct (mul_int_small (Float64.fmul delta delta) (len seen)) as (dd & E4); [lia|].
    destruct (mul_int_small dd (len values)) as (ddn & E5); [lia|].
    destruct (div_int_small ddn (len seen + len values)) as (d2 & E6); [lia|].
    rewrite E2. cbn [ebind]. rewrite E3. cbn [ebind]. rewrite E4. cbn [ebind].
    rewrite E5. cbn [ebind]. rewrite E6. cbn [ebind].
    eexists. split; [reflexivity|].
    assert (Hseen : seen <> []).
    { intros ->. apply C0. reflexivity. }
    pose proof (t64_min _ _ T) as Tmin. pose proof (t64_max _ _ T) as Tmax.
    constructor; cbn [Float64.count Float64.min_value Float64.max_value].
    + exact Hcells.
    + rewrite len_app. reflexivity.
    + intros H. apply app_eq_nil in H. destruct H as [H _]. contradiction.
    + destruct (Float64.min_value s) as [m|]; [|contradiction].
      destruct Tmin as [Im Lm].
      assert (Nm : Float64.isnan m = false).
      { pose proof (t64_cells _ _ T) as F. rewrite Forall_forall in F. auto. }
      assert (Ncm : Float64.isnan (Float64.series_min values) = false).
      { rewrite Forall_forall in Hn. auto. }
      destruct (Float64.flt (Float64.series_min values) m) eqn:L.
      * split; [apply in_or_app; right; exact Imin|].
        intros c Hin. apply in_app_or in Hin. destruct Hin as [Hin|Hin]; [|auto].
        destruct (Float64.flt c (Float64.series_min values)) eqn:L2; [|reflexivity].
        rewrite <- (Lm c Hin). symmetry. exact (flt_trans _ _ _ L2 L).
      * split; [apply in_or_app; left; exact Im|].
        intros c Hin. apply in_app_or in Hin. destruct Hin as [Hin|Hin]; [auto|].
        destruct (Float64.flt c m) eqn:L2; [|reflexivity].
        destruct (flt_between c (Float64.series_min values) m Ncm L2) as [H|H].
        -- rewrite (Lmin c Hin) in H. discriminate.
        -- rewrite L in H. discriminate.
    + destruct (Float64.max_value s) as [m|]; [|contradiction].
      destruct Tmax as [Im Lm].
      assert (Ncm : Float64.isnan (Float64.series_max values) = false).
      { rewrite Forall_forall in Hn. auto. }
      destruct (Float64.flt m (Float64.series_max values)) eqn:L.
      * split; [apply in_or_app; right; exact Imax|].
        intros c Hin. apply in_app_or in Hin. destruct Hin as [Hin|Hin]; [|auto].
        destruct (Float64.flt (Float64.series_max values) c) eqn:L2; [|reflexivity].
        rewrite <- (Lm c Hin). symmetry. exact (flt_trans _ _ _ L L2).
      * split; [apply in_or_app; left; exact Im|].
        intros c Hin. apply in_app_or in Hin. destruct Hin as [Hin|Hin]; [auto|].
        destruct (Float64.flt m c) eqn:L2; [|reflexivity].
        destruct (flt_between m (Float64.series_max values) c Ncm L2) as [H|H].
        -- rewrite L in H. discriminate.
        -- rewrite (Lmax c Hin) in H. discriminate.
Qed.

Lemma tracks64_fresh : tracks64 Float64.fresh_stat [].
Proof. constructor; simpl; auto. Qed.

Lemma update_all64_tracks (series_sum : list Float64.float -> Float64.float)
    (batches : list Float64.Series) :
  forall (s : Float64.RunningStat) (seen : list Float64.float),
    tracks64 s seen ->
    len seen + len (List.concat batches) < 2 ^ 53 ->
    exists s', Float64.update_all series_sum s batches = OK s' /\
               tracks64 s' (seen ++ Float64.dropna (List.concat batches)).
Proof.
  induction batches as [|b rest IH]; intros s seen T B.
  - exists s. simpl. rewrite app_nil_r. auto.
  - simpl in B. rewrite len_app in B.
    pose proof (len_dropna b) as Lb. pose proof (len_nonneg (List.concat rest)) as Lr.
    destruct (update64_tracks series_sum s seen b T) as (s1 & E1 & T1); [lia|].
    destruct (IH s1 (seen ++ Float64.dropna b) T1) as (s2 & E2 & T2).
    { rewrite len_app. lia. }
    exists s2. unfold Float64.update_all in *. simpl. rewrite E1. simpl.
    split; [exact E2|].
    rewrite dropna_app, app_assoc. exact T2.
Qed.

(** X7: in double precision and whatever the order of summation, feeding
    the batches of a float64 column of fewer than 2^53 cells to a fresh
    accumulator raises nothing; its count is the number of cells that
    are not NaN, and it is still the fresh accumulator when there is no
    such cell. *)
Theorem update_all_count_exact
    (series_sum : list Float64.float -> Float64.float)
    (batches : list Float64.Series) :
  len (List.concat batches) < 2 ^ 53 ->
  exists s,
    Float64.update_all series_sum Float64.fresh_stat batches = OK s /\
    Float64.count s
    = count_where (fun c => negb (Float64.isnan c)) (List.concat batches) /\
    (Float64.count s = 0 -> s = Float64.fresh_stat).
Proof.
  intros B.
  destruct (update_all64_tracks series_sum batches Float64.fresh_stat []
              tracks64_fresh) as (s & E & T).
  { change (len (@nil Float64.float)) with 0. lia. }
  exists s. split; [exact E|]. simpl in T.
  split; [exact (t64_count _ _ T)|].
  intros H. apply (t64_fresh _ _ T). rewrite (t64_count _ _ T) in H.
  destruct (Float64.dropna (List.concat batches)); [reflexivity | discriminate H].
Qed.

Lemma update_all_count_exact_witness :
  len (List.concat [[Float64.tenth; S754_nan]; []; [Float64.huge]]) < 2 ^ 53 /\
  exists s,
    Float64.update_all Float64.sum_loop Float64.fresh_stat
      [[Float64.tenth; S754_nan]; []; [Float64.huge]] = OK s /\
    Float64.count s = 2.
Proof.
  assert (B : len (List.concat [[Float64.tenth; S754_nan]; []; [Float64.huge]])
              < 2 ^ 53) by reflexivity.
  split; [exact B|].
  destruct (update_all_count_exact Float64.sum_loop
              [[Float64.tenth; S754_nan]; []; [Float64.huge]] B) as (s & E & C & _).
  exists s. split; [exact E | exact C].
Defined.

(** X8: in double precision, after the batches of a float64 column of
    fewer than 2^53 cells, [min_value] and [max_value] are undefined
    exactly when every cell is NaN; otherwise [min_value] is a cell of
    the column that no cell is below, and [max_value] a cell that no
    cell is above. *)
Theorem update_all_float_extremes
    (series_sum : list Float64.float -> Float64.float)
    (batches : list Float64.Series) :
  len (List.concat batches) < 2 ^ 53 ->
  exists s,
    Float64.update_all series_sum Float64.fresh_stat batches = OK s /\
    match Float64.min_value s with
    | None => Forall (fun c => Float64.isnan c = true) (List.concat batches)
    | Some m =>
        In m (List.concat batches) /\ Float64.isnan m = false /\
        forall c, In c (List.concat batches) -> Float64.flt c m = false
    end /\
    match Float64.max_value s with
    | None => Forall (fun c => Float64.isnan c = true) (List.concat batches)
    | Some m =>
        In m (List.concat batches) /\ Float64.isnan m = false /\
        forall c, In c (List.concat batches) -> Float64.flt m c = false
    end.
Proof.
  intros B.
  destruct (update_all64_tracks series_sum batches Float64.fresh_stat []
              tracks64_fresh) as (s & E & T).
  { change (len (@nil Float64.float)) with 0. lia. }
  exists s. split; [exact E|]. simpl in T.
  set (cells := List.concat batches) in *.
  assert (Hall : Float64.dropna cells = [] ->
                 Forall (fun c => Float64.isnan c = true) cells).
  { intros H. apply Forall_forall. intros c Hc.
    destruct (Float64.isnan c) eqn:N; [reflexivity|].
    assert (In c (Float64.dropna cells)).
    { unfold Float64.dropna. apply filter_In. rewrite N. auto. }
    rewrite H in H0. destruct H0. }
  assert (Hin : forall m, In m (Float64.dropna cells) ->
                          In m cells /\ Float64.isnan m = false).
  { intros m H. unfold Float64.dropna in H. apply filter_In in H.
    destruct H as [H N]. split; [exact H|].
    destruct (Float64.isnan m); [discriminate | reflexivity]. }
  assert (Hcell : forall c, In c cells ->
                            Float64.isnan c = true \/ In c (Float64.dropna cells)).
  { intros c Hc. destruct (Float64.isnan c) eqn:N; [left; reflexivity|].
    right. unfold Float64.dropna. apply filter_In. rewrite N. auto. }
  pose proof (t64_min _ _ T) as Tmin. pose proof (t64_max _ _ T) as Tmax.
  split.
  - destruct (Float64.min_value s) as [m|]; [|auto].
    destruct Tmin as [Im Lm]. destruct (Hin m Im) as [I N].
    split; [exact I|]. split; [exact N|].
    intros c Hc. destruct (Hcell c Hc) as [Nc|Dc]; [|auto].
    destruct c; try discriminate Nc. apply flt_nan_l.
  - destruct (Float64.max_value s) as [m|]; [|auto].
    destruct Tmax as [Im Lm]. destruct (Hin m Im) as [I N].
    split; [exact I|]. split; [exact N|].
    intros c Hc. destruct (Hcell c Hc) as [Nc|Dc]; [|auto].
    destruct c; try discriminate Nc. apply flt_nan_r.
Qed.

Lemma update_all_float_extremes_witness :
  len (List.concat [[Float64.tenth; S754_nan]; []; [Float64.huge]]) < 2 ^ 53 /\
  exists s,
    Float64.update_all Float64.sum_loop Float64.fresh_stat
      [[Float64.tenth; S754_nan]; []; [Float64.huge]] = OK s /\
    Float64.min_value s = Some Float64.tenth /\
    Float64.max_value s = Some Float64.huge.
Proof.
  assert (B : len (List.concat [[Float64.tenth; S754_nan]; []; [Float64.huge]])
              < 2 ^ 53) by reflexivity.
  split; [exact B|].
  destruct (update_all_float_extremes Float64.sum_loop
              [[Float64.tenth; S754_nan]; []; [Float64.huge]] B) as (s & E & _).
  exists s. split; [exact E|].
  vm_compute in E. injection E as <-. split; reflexivity.
Defined.


(** The cells 0.1, 0.1, 0.1: one [update] leaves a standard deviation
    of 2^-56, three [update]s of one cell leave 0.0. *)
Lemma tenth_thrice :
  exists (s1 s2 : Float64.RunningStat),
    Float64.update_all Float64.sum_loop Float64.fresh_stat
      [[Float64.tenth]; [Float64.tenth]; [Float64.tenth]] = OK s1 /\
    Float64.update Float64.sum_loop Float64.fresh_stat
      [Float64.tenth; Float64.tenth; Float64.tenth] = OK s2 /\
    Float64.mean s1 = Float64.tenth /\
    Float64.mean s2 = S754_finite false 7205759403792795 (-56) /\
    Float64.std s1 = OK (S754_zero false) /\
    Float64.std s2 = OK (S754_finite false 4503599627370496 (-108)).
Proof.
  do 2 eexists.
  split; [vm_compute; reflexivity|]. split; [vm_compute; reflexivity|].
  repeat split.
Qed.

(** The cells 1e308, 1e308: their sum overflows in one [update]. *)
Lemma huge_twice :
  exists (s1 s2 : Float64.RunningStat),
    Float64.update_all Float64.sum_loop Float64.fresh_stat
      [[Float64.huge]; [Float64.huge]] = OK s1 /\
    Float64.update Float64.sum_loop Float64.fresh_stat
      [Float64.huge; Float64.huge] = OK s2 /\
    Float64.mean s1 = Float64.huge /\
    Float64.mean s2 = S754_infinity false.
Proof.
  do 2 eexists.
  split; [vm_compute; reflexivity|]. split; [vm_compute; reflexivity|].
  split; reflexivity.
Qed.

(** C1: for every sequence of batches, feeding them one [update] at a
    time to a fresh accumulator gives the same count as one [update] on
    the concatenated sequence, and under exact arithmetic also the same
    mean, the same sum of squared deviations and the same standard
    deviation.  In double precision, whatever the order of summation
    and for fewer than 2^53 cells, both ways return and the counts are
    the same number of non-NaN cells; but the standard deviations need
    not be within 1e-9 of one another relative to the larger: there
    are batches for which they are not. *)
Theorem update_chunking_invariant :
  (forall batches : list Series,
      exists (s1 s2 : RunningStat) (sd : R),
        update_all fresh_stat batches = OK s1 /\
        update fresh_stat (List.concat batches) = OK s2 /\
        count s1 = count s2 /\
        (mean s1 == mean s2)%Q /\
        (m2 s1 == m2 s2)%Q /\
        std s1 = OK sd /\ std s2 = OK sd) /\
  (forall (series_sum : list Float64.float -> Float64.float)
          (batches : list Float64.Series),
      len (List.concat batches) < 2 ^ 53 ->
      exists s1 s2 : Float64.RunningStat,
        Float64.update_all series_sum Float64.fresh_stat batches = OK s1 /\
        Float64.update series_sum Float64.fresh_stat (List.concat batches) = OK s2 /\
        Float64.count s1 = Float64.count s2 /\
        Float64.count s1
        = count_where (fun c => negb (Float64.isnan c)) (List.concat batches)) /\
  (exists (batches : list Float64.Series) (s1 s2 : Float64.RunningStat)
          (sd1 sd2 : Float64.float),
      Float64.update_all Float64.sum_loop Float64.fresh_stat batches = OK s1 /\
      Float64.update Float64.sum_loop Float64.fresh_stat (List.concat batches)
      = OK s2 /\
      Float64.std s1 = OK sd1 /\ Float64.std s2 = OK sd2 /\
      Float64.rel_close (1 # 1000000000) (Float64.to_Q sd1) (Float64.to_Q sd2)
      = false).
Proof.
  split; [exact update_chunking_exact|]. split.
  - intros series_sum batches B.
    destruct (update_all64_tracks series_sum batches Float64.fresh_stat []
                tracks64_fresh) as (s1 & E1 & T1).
    { change (len (@nil Float64.float)) with 0. lia. }
    destruct (update64_tracks series_sum Float64.fresh_stat [] (List.concat batches)
                tracks64_fresh) as (s2 & E2 & T2).
    { change (len (@nil Float64.float)) with 0.
      pose proof (len_dropna (List.concat batches)). lia. }
    exists s1, s2. split; [exact E1|]. split; [exact E2|]. simpl in T1, T2.
    rewrite (t64_count _ _ T1), (t64_count _ _ T2). split; reflexivity.
  - destruct tenth_thrice as (s1 & s2 & E1 & E2 & _ & _ & D1 & D2).
    exists [[Float64.tenth]; [Float64.tenth]; [Float64.tenth]], s1, s2.
    do 2 eexists. split; [exact E1|]. split; [exact E2|].
    split; [exact D1|]. split; [exact D2|]. vm_compute. reflexivity.
Qed.

Lemma update_chunking_invariant_witness :
  len (List.concat [[Float64.tenth]; [Float64.tenth; Float64.tenth]]) < 2 ^ 53 /\
  exists s1 s2 : Float64.RunningStat,
    Float64.update_all Float64.sum_loop Float64.fresh_stat
      [[Float64.tenth]; [Float64.tenth; Float64.tenth]] = OK s1 /\
    Float64.update Float64.sum_loop Float64.fresh_stat
      (List.concat [[Float64.tenth]; [Float64.tenth; Float64.tenth]]) = OK s2 /\
    Float64.count s1 = Float64.count s2 /\
    Float64.count s1 = 3.
Proof.
  assert (B : len (List.concat [[Float64.tenth]; [Float64.tenth; Float64.tenth]])
              < 2 ^ 53) by reflexivity.
  split; [exact B|].
  exact (proj1 (proj2 update_chunking_invariant) Float64.sum_loop
           [[Float64.tenth]; [Float64.tenth; Float64.tenth]] B).
Defined.

(** C1, read with the tolerance on doubles, fails: for the cells 0.1,
    0.1, 0.1 one [update] gives the standard deviation 2^-56 and three
    [update]s of one cell give 0.0, which are not within 1e-9 of one
    another relative to the larger; for the cells 1e308, 1e308 one
    [update] gives the mean infinity and two [update]s of one cell give
    1e308. *)
Lemma update_chunking_tolerance_fails :
  (exists (s1 s2 : Float64.RunningStat),
      Float64.update_all Float64.sum_loop Float64.fresh_stat
        [[Float64.tenth]; [Float64.tenth]; [Float64.tenth]] = OK s1 /\
      Float64.update Float64.sum_loop Float64.fresh_stat
        [Float64.tenth; Float64.tenth; Float64.tenth] = OK s2 /\
      Float64.std s1 = OK (S754_zero false) /\
      Float64.std s2 = OK (S754_finite false 4503599627370496 (-108)) /\
      Float64.rel_close (1 # 1000000000)
        (Float64.to_Q (S754_zero false))
        (Float64.to_Q (S754_finite false 4503599627370496 (-108))) = false) /\
  (exists s1 s2 : Float64.RunningStat,
      Float64.update_all Float64.sum_loop Float64.fresh_stat
        [[Float64.huge]; [Float64.huge]] = OK s1 /\
      Float64.update Float64.sum_loop Float64.fresh_stat
        [Float64.huge; Float64.huge] = OK s2 /\
      Float64.mean s1 = Float64.huge /\
      Float64.mean s2 = S754_infinity false).
Proof.
  split; [|exact huge_twice].
  destruct tenth_thrice as (s1 & s2 & E1 & E2 & _ & _ & D1 & D2).
  exists s1, s2. split; [exact E1|]. split; [exact E2|].
  split; [exact D1|]. split; [exact D2|]. vm_compute. reflexivity.
Qed.

End Binary64.
